(** * Longstaff-Schwartz least-squares Monte Carlo: a shallow embedding

    The notebook [smf_group19_code_longstaff_schwartz_simulation.ipynb]
    defines a single-asset simulator, trainer and evaluator (first code
    cell) and a multi-asset simulator with a trainer and evaluator working
    on max-over-assets paths (second code cell).

    Modelling choices.
    - A Python/NumPy float is a real number ([R]); [np.exp] and [np.sqrt]
      are the real exponential and square root.  Rounding, overflow, [nan]
      and underflow are not modelled; since [np.exp] underflows to [0.0],
      the sign of a simulated price is stated as not negative, and the
      driver's number of dates is left as [int(maturity / dt) + 1].  The
      [float32] storage of the multi-asset simulator is an explicit cast in
      the source and is kept as a parameter [float32 : R -> R].
    - A NumPy array of rank 2 or 3 is a record of its shape and its item
      function; a rank-1 array is a list.
    - The global generator of [np.random] is a state threaded through the
      simulators; [np.random.seed], [np.random.standard_normal] and
      [np.random.randn] are parameters.  [np.random.seed] is taken total;
      the seeds NumPy accepts are described by [valid_seed].
    - [np.polyfit] is a parameter; [np.polyval] is Horner's scheme as NumPy
      writes it.
    - A raised exception is the [Raise] result. *)

From Stdlib Require Import String.
From Stdlib Require Import Reals Lra Lia ZArith Bool List.
Import ListNotations.
Open Scope R_scope.

(** ** Python values and exceptions *)

Inductive exn : Type :=
| ValueError (msg : string)
| ZeroDivisionError
| IndexError.

Inductive result (A : Type) : Type :=
| Ok (a : A)
| Raise (e : exn).
Arguments Ok {A} a.
Arguments Raise {A} e.

(** An argument written without a static type: [isinstance(param, int)]
    tells the two apart. *)
Inductive pyval : Type :=
| PyInt (n : Z)
| PyFloat (x : R).

Definition isinstance_int (v : pyval) : bool :=
  match v with PyInt _ => true | PyFloat _ => false end.

Definition int_of (v : pyval) : Z :=
  match v with PyInt n => n | PyFloat _ => 0%Z end.

(** The seeds [np.random.seed] accepts: an int in [0 .. 2**32 - 1]; on any
    other int it raises [ValueError].  The simulators below take
    [np.random.seed] as a total parameter and do not model that exception:
    a statement that a seeded call succeeds carries this condition on the
    seed as a hypothesis. *)
Definition valid_seed (seed : option Z) : Prop :=
  match seed with
  | None => True
  | Some s => (0 <= s < 2 ^ 32)%Z
  end.

(** ** Comparisons on floats *)

Definition Rgtb (x y : R) : bool := if Rlt_dec y x then true else false.
Definition Rltb (x y : R) : bool := if Rlt_dec x y then true else false.
Definition Rleb (x y : R) : bool := if Rle_dec x y then true else false.

Definition py_gt0 (v : pyval) : bool :=
  match v with PyInt n => (0 <? n)%Z | PyFloat x => Rgtb x 0 end.

(** ** Arrays *)

Record ndarray2 : Type := Array2 {
  shape0 : nat;
  shape1 : nat;
  item2 : nat -> nat -> R
}.

Record ndarray3 : Type := Array3 {
  dim0 : nat;
  dim1 : nat;
  dim2 : nat;
  item3 : nat -> nat -> nat -> R
}.

(** [a[t]] *)
Definition row (a : ndarray2) (t : nat) : list R :=
  map (item2 a t) (seq 0 (shape1 a)).

(** [a[:, s]] *)
Definition col (a : ndarray2) (s : nat) : list R :=
  map (fun p => item2 a p s) (seq 0 (shape0 a)).

(** [a[t] = v] *)
Definition set_row (t : nat) (v : list R) (a : ndarray2) : ndarray2 :=
  Array2 (shape0 a) (shape1 a)
         (fun t' i => if (t' =? t)%nat then nth i v 0 else item2 a t' i).

(** [a[:, :, s] = v], [v] of shape [(dim0, dim1)] *)
Definition set_slice (s : nat) (v : nat -> nat -> R) (a : ndarray3) : ndarray3 :=
  Array3 (dim0 a) (dim1 a) (dim2 a)
         (fun p d s' => if (s' =? s)%nat then v p d else item3 a p d s').

Definition of_rows (rows : list (list R)) : ndarray2 :=
  Array2 (length rows) (length (hd [] rows))
         (fun t i => nth i (nth t rows []) 0).

(** [a.T] *)
Definition transpose (a : ndarray2) : ndarray2 :=
  Array2 (shape1 a) (shape0 a) (fun t i => item2 a i t).

Fixpoint map2 {A B C : Type} (f : A -> B -> C) (l : list A) (l' : list B) : list C :=
  match l, l' with
  | x :: xs, y :: ys => f x y :: map2 f xs ys
  | _, _ => []
  end.

(** Boolean-mask indexing [a[mask]]. *)
Fixpoint select {A : Type} (a : list A) (mask : list bool) : list A :=
  match a, mask with
  | x :: xs, b :: bs => if b then x :: select xs bs else select xs bs
  | _, _ => []
  end.

(** [np.where(c, a, b)] on arrays of one shape. *)
Fixpoint np_where {A : Type} (c : list bool) (a b : list A) : list A :=
  match c, a, b with
  | k :: ks, x :: xs, y :: ys => (if k then x else y) :: np_where ks xs ys
  | _, _, _ => []
  end.

Definition np_sum (v : list R) : R := fold_right Rplus 0 v.

Definition np_mean (v : list R) : R := np_sum v / INR (length v).

(** [np.polyval(p, x)]: [y = 0; for pv in p: y = y * x + pv]. *)
Definition np_polyval (p : list R) (x : R) : R :=
  fold_left (fun y pv => y * x + pv) p 0.

(** [np.amax] along an axis that holds [l]. *)
Definition np_amax (l : list R) : R :=
  match l with
  | [] => 0
  | x :: xs => fold_left Rmax xs x
  end.

(** [np.amax(a, axis=1)] on an array of rank 3. *)
Definition amax_axis1 (a : ndarray3) : ndarray2 :=
  Array2 (dim0 a) (dim2 a)
         (fun p s => np_amax (map (fun d => item3 a p d s) (seq 0 (dim1 a)))).

(** [np.maximum(prices - K, 0)] *)
Definition call_payoff (K : R) (prices : list R) : list R :=
  map (fun x => Rmax (x - K) 0) prices.

(** What replaying a recorded entry on a value vector means, path by
    path: [None] keeps the vector; a polynomial [coeff] gives a path its
    payoff [max(price - K, 0)] when the payoff is strictly above the
    polynomial's value at the path's price, and keeps its value otherwise. *)
Definition replay_entry (K : R) (e : option (list R)) (prices V : list R)
  : list R :=
  match e with
  | None => V
  | Some coeff =>
    map2 (fun x v => if Rlt_dec (np_polyval coeff x) (Rmax (x - K) 0)
                     then Rmax (x - K) 0 else v)
         prices V
  end.

(** The series the trainer returns: a coefficient vector or [None] per date. *)
Abbreviation coeff_series := (list (option (list R))) (only parsing).

(** [int(x)]: truncation towards zero. *)
Definition py_int (x : R) : Z :=
  if Rle_dec 0 x then Int_part x else (- Int_part (- x))%Z.

(** [T / M] with [M] a Python int. *)
Definition py_div (T : R) (M : Z) : result R :=
  if (M =? 0)%Z then Raise ZeroDivisionError else Ok (T / IZR M).

(** [np.exp(-r * dt)] *)
Definition discount_factor (r dt : R) : R := exp (- r * dt).

(** ** First code cell: one underlying *)

Module Single.

Section Simulator.

(** The global generator of [np.random]. *)
Variable rng : Type.
Variable np_random_seed : Z -> rng.
Variable np_random_standard_normal :
  nat -> nat -> rng -> (nat -> nat -> R) * rng.

(** One pass of [for t in range(1, M + 1)]. *)
Definition gbm_step (drift vol : R) (rand_numbers : nat -> nat -> R)
           (paths : ndarray2) (t : nat) : ndarray2 :=
  set_row t
    (map2 (fun p z => p * exp (drift + vol * z))
          (row paths (t - 1))
          (map (rand_numbers (t - 1)%nat) (seq 0 (shape1 paths))))
    paths.

Definition simulate_gbm (S0 r dividend sigma T : R) (M I : pyval)
           (seed : option Z) (g : rng) : result ndarray2 * rng :=
  if existsb (fun param => Rleb param 0) [S0; T]
     || existsb (fun param => Rltb param 0) [sigma]
  then (Raise (ValueError "S0, T must be positive; sigma must be non-negative"), g)
  else if negb (forallb (fun param => isinstance_int param && py_gt0 param) [M; I])
  then (Raise (ValueError "M and I must be positive integers"), g)
  else
    let M := Z.to_nat (int_of M) in
    let I := Z.to_nat (int_of I) in
    let dt := T / INR M in
    let paths := Array2 (M + 1) I (fun _ _ => 0) in
    let paths := set_row 0 (repeat S0 I) paths in
    let g := match seed with
             | Some s => np_random_seed s
             | None => g
             end in
    let drift := (r - dividend - 0.5 * sigma ^ 2) * dt in
    let vol := sigma * sqrt dt in
    let (rand_numbers, g) := np_random_standard_normal M I g in
    (Ok (fold_left (gbm_step drift vol rand_numbers) (seq 1 M) paths), g).

End Simulator.

(** What a matrix of [M + 1] dates and [I] paths must satisfy to be a
    discretised geometric Brownian motion from [S0] with step [T / M] driven
    by the normals [rand_numbers].  Entries are asked to be not negative
    rather than positive: a float factor [np.exp(x)] is [0.0] for very
    negative [x]. *)
Definition gbm_invariant (S0 r dividend sigma T : R) (M I : nat)
           (rand_numbers : nat -> nat -> R) (paths : ndarray2) : Prop :=
  let dt := T / INR M in
  shape0 paths = (M + 1)%nat /\ shape1 paths = I
  /\ (forall i, (i < I)%nat -> item2 paths 0 i = S0)
  /\ (forall t i, (t <= M)%nat -> (i < I)%nat -> 0 <= item2 paths t i)
  /\ (forall t i, (1 <= t <= M)%nat -> (i < I)%nat ->
                  item2 paths t i
                  = item2 paths (t - 1) i
                    * exp ((r - dividend - 0.5 * sigma ^ 2) * dt
                           + sigma * sqrt dt * rand_numbers (t - 1)%nat i)).

Section Engine.

Variable np_polyfit : list R -> list R -> nat -> list R.

(** The exercise rule shared by the trainer and the evaluator:
    [np.where(exercise > continuation, exercise, V)]. *)
Definition exercise_update (K : R) (coeff : list R)
           (current_prices V : list R) : list R :=
  let continuation := map (np_polyval coeff) current_prices in
  let exercise := call_payoff K current_prices in
  np_where (map2 Rgtb exercise continuation) exercise V.

(** One pass of the trainer's [for t in reversed(range(1, M))]. *)
Definition train_step (S_paths_train : ndarray2) (K discount : R)
           (degree : nat) (st : list R * coeff_series) (t : nat)
  : list R * coeff_series :=
  let (V, coefficients) := st in
  let current_prices := row S_paths_train t in
  let in_the_money := map (fun x => Rgtb x K) current_prices in
  let X := select current_prices in_the_money in
  let Y := map (fun v => v * discount) (select V in_the_money) in
  if (length X =? 0)%nat then (V, coefficients ++ [None])
  else
    let coeff := np_polyfit X Y degree in
    (exercise_update K coeff current_prices V,
     coefficients ++ [Some coeff]).

(** The dates of the backward induction, [reversed(range(1, M))]. *)
Definition backward_dates (M : Z) : list nat :=
  rev (seq 1 (Z.to_nat M - 1)).

(** The trainer up to its [return]: the final value vector and the
    coefficients in the order they were appended. *)
Definition train_run (S_paths_train : ndarray2) (K r T : R) (degree : Z)
  : result (list R * coeff_series) :=
  let M_plus_1 := shape0 S_paths_train in
  let M := (Z.of_nat M_plus_1 - 1)%Z in
  if existsb (fun param => Rleb param 0) [K; T] || (degree <? 0)%Z
  then Raise (ValueError "K, T must be positive; degree must be non-negative")
  else
    match py_div T M with
    | Raise e => Raise e
    | Ok dt =>
      let discount := discount_factor r dt in
      if (M_plus_1 =? 0)%nat then Raise IndexError
      else
        let V := call_payoff K (row S_paths_train (M_plus_1 - 1)) in
        Ok (fold_left (train_step S_paths_train K discount (Z.to_nat degree))
                      (backward_dates M) (V, []))
    end.

(** The trainer's state when its loop reaches date [t]: the dates
    [M-1, ..., t+1] have been processed. *)
Definition state_before (S_paths_train : ndarray2) (K r T : R) (degree : Z)
           (t : nat) : list R * coeff_series :=
  let M_plus_1 := shape0 S_paths_train in
  let M := (M_plus_1 - 1)%nat in
  let discount := discount_factor r (T / INR M) in
  fold_left (train_step S_paths_train K discount (Z.to_nat degree))
            (rev (seq (t + 1) (M - 1 - t)))
            (call_payoff K (row S_paths_train (M_plus_1 - 1)), []).

(** What the trainer's loop records at date [t]: [None] when no path is in
    the money there, else [np.polyfit(X, Y, degree)] on the in-the-money
    prices [X] and the discounted values [Y] the loop holds at that date. *)
Definition fitted_at (S_paths_train : ndarray2) (K r T : R) (degree : Z)
           (t : nat) : option (list R) :=
  let M := (shape0 S_paths_train - 1)%nat in
  let discount := discount_factor r (T / INR M) in
  let V := fst (state_before S_paths_train K r T degree t) in
  let current_prices := row S_paths_train t in
  let in_the_money := map (fun x => Rgtb x K) current_prices in
  let X := select current_prices in_the_money in
  let Y := map (fun v => v * discount) (select V in_the_money) in
  match X with
  | [] => None
  | _ :: _ => Some (np_polyfit X Y (Z.to_nat degree))
  end.

Definition longstaff_schwartz_train (S_paths_train : ndarray2)
           (K r T : R) (degree : Z) : result coeff_series :=
  match train_run S_paths_train K r T degree with
  | Raise e => Raise e
  | Ok (_, coefficients) => Ok (rev coefficients)
  end.

(** One pass of the evaluator's [for t in reversed(range(1, M))]. *)
Definition test_step (S_paths_test : ndarray2) (K : R)
           (coefficients : coeff_series) (V : list R) (t : nat) : list R :=
  match nth (t - 1) coefficients None with
  | None => V
  | Some coeff => exercise_update K coeff (row S_paths_test t) V
  end.

(** The evaluator's value vector when its loop ends. *)
Definition test_run (S_paths_test : ndarray2) (K : R)
           (coefficients : coeff_series) : list R :=
  let M_plus_1 := shape0 S_paths_test in
  let M := (Z.of_nat M_plus_1 - 1)%Z in
  fold_left (test_step S_paths_test K coefficients) (backward_dates M)
            (call_payoff K (row S_paths_test (M_plus_1 - 1))).

(** Whether the entry read at date [t] makes path [i] exercise: it is a
    polynomial and the payoff is strictly above its value at the price. *)
Definition exercise_signal (S_paths_test : ndarray2) (K : R)
           (coefficients : coeff_series) (t i : nat) : bool :=
  match nth (t - 1) coefficients None with
  | None => false
  | Some coeff =>
    Rgtb (Rmax (item2 S_paths_test t i - K) 0)
         (np_polyval coeff (item2 S_paths_test t i))
  end.

(** The date whose payoff path [i] ends with: the earliest of the dates
    [1 .. M-1] that makes it exercise, and the last date [M] if none does. *)
Definition stopping_date (S_paths_test : ndarray2) (K : R)
           (coefficients : coeff_series) (i : nat) : nat :=
  let M := (shape0 S_paths_test - 1)%nat in
  hd M (filter (fun t => exercise_signal S_paths_test K coefficients t i)
               (seq 1 (M - 1))).

Definition longstaff_schwartz_test (S_paths_test : ndarray2)
           (K r T : R) (coefficients : coeff_series) : result R :=
  let M_plus_1 := shape0 S_paths_test in
  let M := (Z.of_nat M_plus_1 - 1)%Z in
  if negb (Z.of_nat (length coefficients) =? M - 1)%Z
  then Raise (ValueError "Coefficients length mismatch with time steps")
  else
    match py_div T M with
    | Raise e => Raise e
    | Ok dt =>
      if (M_plus_1 =? 0)%nat then Raise IndexError
      else
        let V := test_run S_paths_test K coefficients in
        Ok (np_mean V * exp (- r * dt))
    end.

End Engine.

Section Driver.

Variable rng : Type.
Variable np_random_seed : Z -> rng.
Variable np_random_standard_normal :
  nat -> nat -> rng -> (nat -> nat -> R) * rng.
Variable np_polyfit : list R -> list R -> nat -> list R.

(** The driver cell: simulate and train, then simulate again and evaluate. *)
Definition price (S0 r dividend sigma K : R) (degree : Z) (T : R)
           (M I_train : pyval) (seed_train : option Z)
           (I_test : pyval) (seed_test : option Z) (g : rng)
  : result R * rng :=
  match simulate_gbm rng np_random_seed np_random_standard_normal
                     S0 r dividend sigma T M I_train seed_train g with
  | (Raise e, g) => (Raise e, g)
  | (Ok trained_s, g) =>
    match longstaff_schwartz_train np_polyfit trained_s K r T degree with
    | Raise e => (Raise e, g)
    | Ok coeffs =>
      match simulate_gbm rng np_random_seed np_random_standard_normal
                         S0 r dividend sigma T M I_test seed_test g with
      | (Raise e, g) => (Raise e, g)
      | (Ok tested_s, g) =>
        (longstaff_schwartz_test tested_s K r T coeffs, g)
      end
    end
  end.

End Driver.

End Single.

(** ** Second code cell: a basket of underlyings *)

Module Multi.

(** [dividend_rates: Union[float, np.ndarray]] *)
Inductive dividend : Type :=
| DivScalar (q : R)
| DivArray (qs : list R).

(** The truth value of [seed] in [np.random.seed(seed) if seed else None]:
    [None] and [0] are false. *)
Definition truthy (seed : option Z) : bool :=
  match seed with
  | None => false
  | Some s => negb (s =? 0)%Z
  end.

(** The dividend rate of asset [d], scalar rates being broadcast. *)
Definition dividend_at (dividend_rates : dividend) (d : nat) : R :=
  match dividend_rates with
  | DivScalar q => q
  | DivArray qs => nth d qs 0
  end.

(** [np.full(dimension, dividend_rates)] for a scalar rate. *)
Definition full (dimension : nat) (dividend_rates : dividend) : list R :=
  match dividend_rates with
  | DivScalar q => repeat q dimension
  | DivArray qs => qs
  end.

(** [(risk_free_rate - dividend_rates - 0.5 * sigma**2) * time_step] *)
Definition drift_terms (risk_free_rate : R) (dividend_rates sigma : list R)
           (time_step : R) : list R :=
  map2 (fun q s => (risk_free_rate - q - 0.5 * s ^ 2) * time_step)
       dividend_rates sigma.

(** [sigma * dt_sqrt] *)
Definition diffusion_terms (sigma : list R) (dt_sqrt : R) : list R :=
  map (fun s => s * dt_sqrt) sigma.

Section Simulator.

Variable rng : Type.
Variable np_random_seed : Z -> rng.
Variable np_random_randn : nat -> nat -> rng -> (nat -> nat -> R) * rng.
(** [.astype(np.float32)] and the store into a [float32] array. *)
Variable float32 : R -> R.

(** What [np.random.randn(num_paths, dimension)] returns at pass [k]
    (counted from 0) of the loop started with generator [g]. *)
Fixpoint draw (num_paths dimension : nat) (g : rng) (k : nat)
  : (nat -> nat -> R) * rng :=
  match k with
  | O => np_random_randn num_paths dimension g
  | S k => draw num_paths dimension
                (snd (np_random_randn num_paths dimension g)) k
  end.

(** One pass of [for step in range(1, n_steps + 1)]. *)
Definition gbm_step (num_paths dimension : nat)
           (drift_terms diffusion_terms : list R)
           (st : ndarray3 * rng) (step : nat) : ndarray3 * rng :=
  let (paths, g) := st in
  let (rand_nums, g) := np_random_randn num_paths dimension g in
  let rand_nums := fun p d => float32 (rand_nums p d) in
  (set_slice step
     (fun p d =>
        float32 (item3 paths p d (step - 1)
                 * exp (nth d drift_terms 0
                        + nth d diffusion_terms 0 * rand_nums p d)))
     paths,
   g).

Definition simulate_gbm_multi (dimension : Z) (risk_free_rate : R)
           (dividend_rates : dividend) (sigma initial_prices : list R)
           (time_horizon time_step : R) (num_paths : Z)
           (seed : option Z) (g : rng) : result ndarray3 * rng :=
  if (dimension <=? 0)%Z
  then (Raise (ValueError "Dimension must be ≥ 1"), g)
  else if negb (Z.of_nat (length sigma) =? dimension)%Z
          || negb (Z.of_nat (length initial_prices) =? dimension)%Z
  then (Raise (ValueError "Parameter shape mismatch"), g)
  else if Rleb time_horizon 0 || Rleb time_step 0
  then (Raise (ValueError "Time parameters must be positive"), g)
  else if (num_paths <=? 0)%Z
  then (Raise (ValueError "Number of paths must be ≥ 1"), g)
  else if Rltb risk_free_rate 0
  then (Raise (ValueError "Risk-free rate cannot be negative"), g)
  else if match dividend_rates with
          | DivArray qs => negb (Z.of_nat (length qs) =? dimension)%Z
          | DivScalar _ => false
          end
  then (Raise (ValueError "Dividend rates shape mismatch"), g)
  else
    let dimension := Z.to_nat dimension in
    let num_paths := Z.to_nat num_paths in
    let g := match seed with
             | Some s => if truthy seed then np_random_seed s else g
             | None => g
             end in
    let dividend_rates := full dimension dividend_rates in
    let n_steps := Z.to_nat (py_int (time_horizon / time_step)) in
    let dt_sqrt := sqrt time_step in
    let drift_terms :=
        drift_terms risk_free_rate dividend_rates sigma time_step in
    let diffusion_terms := diffusion_terms sigma dt_sqrt in
    (* [np.empty]: the storage is not initialised; every slice
       [0 .. n_steps] is assigned below before it is read. *)
    let paths := Array3 num_paths dimension (n_steps + 1) (fun _ _ _ => 0) in
    let paths :=
        set_slice 0 (fun _ d => float32 (nth d initial_prices 0)) paths in
    let (paths, g) :=
        fold_left (gbm_step num_paths dimension drift_terms diffusion_terms)
                  (seq 1 n_steps) (paths, g) in
    (Ok paths, g).

End Simulator.

(** What a tensor of [num_paths] paths, [dimension] assets and
    [n_steps + 1] dates must satisfy to hold, for each asset, a discretised
    geometric Brownian motion with step [time_step], stored through
    [float32], driven by the normals [rand_nums step]. *)
Definition gbm_invariant (float32 : R -> R) (risk_free_rate : R)
           (dividend_rates : dividend) (sigma initial_prices : list R)
           (time_step : R) (num_paths dimension n_steps : nat)
           (rand_nums : nat -> nat -> nat -> R) (paths : ndarray3) : Prop :=
  dim0 paths = num_paths /\ dim1 paths = dimension
  /\ dim2 paths = (n_steps + 1)%nat
  /\ (forall p d, item3 paths p d 0 = float32 (nth d initial_prices 0))
  /\ (forall p d s,
         (1 <= s <= n_steps)%nat -> (d < dimension)%nat ->
         item3 paths p d s
         = float32
             (item3 paths p d (s - 1)
              * exp ((risk_free_rate - dividend_at dividend_rates d
                      - 0.5 * nth d sigma 0 ^ 2) * time_step
                     + nth d sigma 0 * sqrt time_step
                       * float32 (rand_nums (s - 1)%nat p d))))
  /\ ((forall x, 0 <= x -> 0 <= float32 x) ->
      (forall d, 0 <= nth d initial_prices 0) ->
      forall p d s, (s <= n_steps)%nat -> (d < dimension)%nat ->
                    0 <= item3 paths p d s).

(** [np.amax(underlying_prices, axis=1)] then [np.maximum(... - K, 0)].
    NumPy raises on a reduction axis of size zero; the callers below test
    for it where they slice the last column. *)
Definition bermudan_max_call_payoff (underlying_prices : ndarray2)
           (strike_price : R) : list R :=
  let max_asset :=
      map (fun p => np_amax (row underlying_prices p))
          (seq 0 (shape0 underlying_prices)) in
  map (fun m => Rmax (m - strike_price) 0) max_asset.

Definition zero_size_reduction : exn :=
  ValueError "zero-size array to reduction operation maximum which has no identity".

(** [price_paths[:, -1:]] *)
Definition last_column (price_paths : ndarray2) : ndarray2 :=
  Array2 (shape0 price_paths) (Nat.min 1 (shape1 price_paths))
         (fun p _ => item2 price_paths p (shape1 price_paths - 1)).

(** [current_prices[:, None]] *)
Definition as_column (current_prices : list R) : ndarray2 :=
  Array2 (length current_prices) 1 (fun p _ => nth p current_prices 0).

Section Engine.

Variable np_polyfit : list R -> list R -> nat -> list R.

Definition exercise_update (strike_price : R) (coeff : list R)
           (current_prices value_func : list R) : list R :=
  let continuation := map (np_polyval coeff) current_prices in
  let exercise :=
      bermudan_max_call_payoff (as_column current_prices) strike_price in
  np_where (map2 Rgtb exercise continuation) exercise value_func.

(** One pass of the trainer's [for step in reversed(range(1, exercise_steps))]. *)
Definition train_step (price_paths : ndarray2)
           (strike_price discount_factor : R) (poly_degree : nat)
           (st : list R * coeff_series) (step : nat)
  : list R * coeff_series :=
  let (value_func, coefficients) := st in
  let current_prices := col price_paths step in
  let itm_mask := map (fun x => Rgtb x strike_price) current_prices in
  let X := select current_prices itm_mask in
  let Y := map (fun v => v * discount_factor) (select value_func itm_mask) in
  if (length X =? 0)%nat then (value_func, coefficients ++ [None])
  else
    let coeff := np_polyfit X Y poly_degree in
    (exercise_update strike_price coeff current_prices value_func,
     coefficients ++ [Some coeff]).

Definition backward_dates (exercise_steps : Z) : list nat :=
  rev (seq 1 (Z.to_nat exercise_steps - 1)).

Definition train_run (price_paths : ndarray2)
           (strike_price risk_free_rate maturity : R) (poly_degree : Z)
  : result (list R * coeff_series) :=
  let total_steps := shape1 price_paths in
  let exercise_steps := (Z.of_nat total_steps - 1)%Z in
  if existsb (fun param => Rleb param 0) [strike_price; maturity]
     || (poly_degree <? 0)%Z
  then Raise (ValueError "Invalid parameter values")
  else
    match py_div maturity exercise_steps with
    | Raise e => Raise e
    | Ok dt =>
      let discount_factor := discount_factor risk_free_rate dt in
      if (total_steps =? 0)%nat then Raise zero_size_reduction
      else
        let value_func :=
            bermudan_max_call_payoff (last_column price_paths) strike_price in
        Ok (fold_left (train_step price_paths strike_price discount_factor
                                  (Z.to_nat poly_degree))
                      (backward_dates exercise_steps) (value_func, []))
    end.

(** The trainer's state when its loop reaches [step]. *)
Definition state_before (price_paths : ndarray2)
           (strike_price risk_free_rate maturity : R) (poly_degree : Z)
           (step : nat) : list R * coeff_series :=
  let total_steps := shape1 price_paths in
  let exercise_steps := (total_steps - 1)%nat in
  let discount_factor :=
      discount_factor risk_free_rate (maturity / INR exercise_steps) in
  fold_left (train_step price_paths strike_price discount_factor
                        (Z.to_nat poly_degree))
            (rev (seq (step + 1) (exercise_steps - 1 - step)))
            (bermudan_max_call_payoff (last_column price_paths) strike_price, []).

(** What the trainer's loop records at [step]. *)
Definition fitted_at (price_paths : ndarray2)
           (strike_price risk_free_rate maturity : R) (poly_degree : Z)
           (step : nat) : option (list R) :=
  let exercise_steps := (shape1 price_paths - 1)%nat in
  let discount_factor :=
      discount_factor risk_free_rate (maturity / INR exercise_steps) in
  let value_func :=
      fst (state_before price_paths strike_price risk_free_rate maturity
                        poly_degree step) in
  let current_prices := col price_paths step in
  let itm_mask := map (fun x => Rgtb x strike_price) current_prices in
  let X := select current_prices itm_mask in
  let Y := map (fun v => v * discount_factor) (select value_func itm_mask) in
  match X with
  | [] => None
  | _ :: _ => Some (np_polyfit X Y (Z.to_nat poly_degree))
  end.

Definition longstaff_schwartz_train (price_paths : ndarray2)
           (strike_price risk_free_rate maturity : R) (poly_degree : Z)
  : result coeff_series :=
  match train_run price_paths strike_price risk_free_rate maturity poly_degree with
  | Raise e => Raise e
  | Ok (_, coefficients) => Ok (rev coefficients)
  end.

(** One pass of the evaluator's loop. *)
Definition evaluate_step (price_paths : ndarray2) (strike_price : R)
           (coefficients : coeff_series) (value_func : list R) (step : nat)
  : list R :=
  match nth (step - 1) coefficients None with
  | None => value_func
  | Some coeff =>
    exercise_update strike_price coeff (col price_paths step) value_func
  end.

(** Whether the entry read at [step] makes path [p] exercise. *)
Definition exercise_signal (price_paths : ndarray2) (strike_price : R)
           (coefficients : coeff_series) (step p : nat) : bool :=
  match nth (step - 1) coefficients None with
  | None => false
  | Some coeff =>
    Rgtb (Rmax (item2 price_paths p step - strike_price) 0)
         (np_polyval coeff (item2 price_paths p step))
  end.

(** The step whose payoff path [p] ends with. *)
Definition stopping_date (price_paths : ndarray2) (strike_price : R)
           (coefficients : coeff_series) (p : nat) : nat :=
  let exercise_steps := (shape1 price_paths - 1)%nat in
  hd exercise_steps
     (filter (fun step =>
                exercise_signal price_paths strike_price coefficients step p)
             (seq 1 (exercise_steps - 1))).

Definition longstaff_schwartz_evaluate (price_paths : ndarray2)
           (strike_price risk_free_rate maturity : R)
           (coefficients : coeff_series) : result R :=
  let total_steps := shape1 price_paths in
  let exercise_steps := (Z.of_nat total_steps - 1)%Z in
  if negb (Z.of_nat (length coefficients) =? exercise_steps - 1)%Z
  then Raise (ValueError "Coefficients/exercise steps mismatch")
  else
    match py_div maturity exercise_steps with
    | Raise e => Raise e
    | Ok dt =>
      if (total_steps =? 0)%nat then Raise zero_size_reduction
      else
        let value_func :=
            bermudan_max_call_payoff (last_column price_paths) strike_price in
        let value_func :=
            fold_left (evaluate_step price_paths strike_price coefficients)
                      (backward_dates exercise_steps) value_func in
        Ok (np_mean value_func * exp (- risk_free_rate * dt))
    end.

End Engine.

Section Driver.

Variable rng : Type.
Variable np_random_seed : Z -> rng.
Variable np_random_randn : nat -> nat -> rng -> (nat -> nat -> R) * rng.
Variable float32 : R -> R.
Variable np_polyfit : list R -> list R -> nat -> list R.



End Driver.

End Multi.

(** ** Instances used to run the model on concrete inputs *)

(** A generator whose state is a counter: seeding sets the counter, and a
    draw fills the array with the counter and advances it. *)
Definition counter_rng : Type := Z.

Definition counter_seed (s : Z) : counter_rng := s.

Definition counter_normal (n m : nat) (g : counter_rng)
  : (nat -> nat -> R) * counter_rng :=
  (fun _ _ => IZR g, (g + 1)%Z).

(** The least-squares constant: what [np.polyfit(X, Y, 0)] returns in exact
    arithmetic.  For a higher degree it is padded with zero leading
    coefficients, which keeps NumPy's shape [(deg + 1,)]. *)
Definition constant_fit (X Y : list R) (deg : nat) : list R :=
  repeat 0 deg ++ [np_mean Y].

(** A store that keeps every value exactly. *)
Definition exact_store (x : R) : R := x.

(** One path over three dates, as the single-asset engine reads it (a row
    per date) and as the basket engine reads it (a row per path). *)
Definition three_dates : ndarray2 := of_rows [[1]; [2]; [5]].

Definition three_dates_by_path : ndarray2 := of_rows [[1; 2; 5]].

(** Two paths over four dates, with strike 100 in mind: at date 1 one path
    is in the money, at date 2 none is. *)
Definition four_dates : ndarray2 :=
  of_rows [[100; 100]; [90; 120]; [80; 95]; [110; 130]].

Definition four_dates_by_path : ndarray2 :=
  of_rows [[100; 90; 80; 110]; [100; 120; 95; 130]].

(** An entry of the series that is [None] or the constant polynomial [c]. *)
Definition held_entry (c : R) (e : option (list R)) : Prop :=
  e = None \/ e = Some [c].

(** * Properties *)

(** ** Comparisons *)

Lemma Rgtb_true (x y : R) : y < x -> Rgtb x y = true.
Proof. intros H. unfold Rgtb. destruct (Rlt_dec y x); [reflexivity | contradiction]. Qed.

Lemma Rgtb_false (x y : R) : x <= y -> Rgtb x y = false.
Proof. intros H. unfold Rgtb. destruct (Rlt_dec y x); [lra | reflexivity]. Qed.

Lemma Rltb_true (x y : R) : x < y -> Rltb x y = true.
Proof. intros H. unfold Rltb. destruct (Rlt_dec x y); [reflexivity | contradiction]. Qed.

Lemma Rltb_false (x y : R) : y <= x -> Rltb x y = false.
Proof. intros H. unfold Rltb. destruct (Rlt_dec x y); [lra | reflexivity]. Qed.

Lemma Rleb_true (x y : R) : x <= y -> Rleb x y = true.
Proof. intros H. unfold Rleb. destruct (Rle_dec x y); [reflexivity | contradiction]. Qed.

Lemma Rleb_false (x y : R) : y < x -> Rleb x y = false.
Proof. intros H. unfold Rleb. destruct (Rle_dec x y); [lra | reflexivity]. Qed.

Lemma Rgtb_spec (x y : R) : Rgtb x y = true <-> y < x.
Proof.
  split; [| apply Rgtb_true].
  unfold Rgtb. destruct (Rlt_dec y x); [trivial | discriminate].
Qed.

(** Decide the comparisons of a concrete run. *)
Ltac Rcompare :=
  repeat first
    [ rewrite Rgtb_true by lra | rewrite Rgtb_false by lra
    | rewrite Rltb_true by lra | rewrite Rltb_false by lra
    | rewrite Rleb_true by lra | rewrite Rleb_false by lra ].

(** ** Arrays *)

Lemma row_length (a : ndarray2) (t : nat) : length (row a t) = shape1 a.
Proof. unfold row. now rewrite length_map, length_seq. Qed.

Lemma col_length (a : ndarray2) (s : nat) : length (col a s) = shape0 a.
Proof. unfold col. now rewrite length_map, length_seq. Qed.

Lemma nth_map_seq (f : nat -> R) (n i : nat) :
  (i < n)%nat -> nth i (map f (seq 0 n)) 0 = f i.
Proof.
  intros H.
  rewrite (nth_indep _ 0 (f 0%nat)) by now rewrite length_map, length_seq.
  now rewrite (map_nth f), seq_nth.
Qed.

Lemma row_nth (a : ndarray2) (t i : nat) :
  (i < shape1 a)%nat -> nth i (row a t) 0 = item2 a t i.
Proof. apply nth_map_seq. Qed.

Lemma col_nth (a : ndarray2) (s p : nat) :
  (p < shape0 a)%nat -> nth p (col a s) 0 = item2 a p s.
Proof. intros H. unfold col. now rewrite (nth_map_seq (fun p => item2 a p s)). Qed.

Lemma np_where_length {A : Type} (c : list bool) (a b : list A) :
  length c = length a -> length b = length a ->
  length (np_where c a b) = length a.
Proof.
  revert a b. induction c as [|k c IH]; intros [|x a] [|y b]; simpl; try discriminate; auto.
Qed.

Lemma np_where_nth {A : Type} (d : A) (c : list bool) (a b : list A) (i : nat) :
  length c = length a -> length b = length a -> (i < length a)%nat ->
  nth i (np_where c a b) d = if nth i c false then nth i a d else nth i b d.
Proof.
  revert a b i. induction c as [|k c IH]; intros [|x a] [|y b] i; simpl;
    try discriminate; try lia.
  intros Hc Hb Hi. destruct i as [|i]; [reflexivity|].
  apply IH; lia.
Qed.

Lemma map2_length {A B C : Type} (f : A -> B -> C) (l : list A) (l' : list B) :
  length l' = length l -> length (map2 f l l') = length l.
Proof.
  revert l'. induction l as [|x l IH]; intros [|y l']; simpl; try discriminate; auto.
Qed.

Lemma map2_nth {A B C : Type} (f : A -> B -> C) (da : A) (db : B) (dc : C)
      (l : list A) (l' : list B) (i : nat) :
  length l' = length l -> (i < length l)%nat ->
  nth i (map2 f l l') dc = f (nth i l da) (nth i l' db).
Proof.
  revert l' i. induction l as [|x l IH]; intros [|y l'] i; simpl; try discriminate; try lia.
  intros Hl Hi. destruct i as [|i]; [reflexivity|]. apply IH; lia.
Qed.


Lemma select_some_true {A : Type} (f : A -> bool) (l : list A) (x : A) :
  In x l -> f x = true -> select l (map f l) <> [].
Proof.
  induction l as [|y l IH]; simpl; [contradiction|].
  intros [->|Hin] Hx.
  - rewrite Hx. discriminate.
  - destruct (f y); [discriminate | now apply IH].
Qed.

Lemma select_nil_all_false {A : Type} (f : A -> bool) (l : list A) :
  select l (map f l) = [] -> forall x, In x l -> f x = false.
Proof.
  intros H x Hin. destruct (f x) eqn:E; [|reflexivity].
  exfalso. now apply (select_some_true f l x).
Qed.

Lemma length_zero_eqb {A : Type} (l : list A) :
  (length l =? 0)%nat = true <-> l = [].
Proof.
  destruct l; simpl; split; intros; try reflexivity; discriminate.
Qed.

(** ** The exercise rule *)

Lemma call_payoff_length (K : R) (prices : list R) :
  length (call_payoff K prices) = length prices.
Proof. apply length_map. Qed.

Lemma call_payoff_nth (K : R) (prices : list R) (i : nat) :
  (i < length prices)%nat ->
  nth i (call_payoff K prices) 0 = Rmax (nth i prices 0 - K) 0.
Proof.
  intros H. unfold call_payoff.
  rewrite (nth_indep _ 0 (Rmax (0 - K) 0)) by now rewrite length_map.
  now rewrite (map_nth (fun x => Rmax (x - K) 0)).
Qed.

Lemma exercise_update_length (K : R) (coeff prices V : list R) :
  length V = length prices ->
  length (Single.exercise_update K coeff prices V) = length prices.
Proof.
  intros HV. unfold Single.exercise_update.
  rewrite np_where_length; rewrite ?call_payoff_length; auto.
  rewrite map2_length; rewrite ?call_payoff_length, ?length_map; auto.
Qed.

(** What [np.where(exercise > continuation, exercise, V)] leaves at path [i]. *)
Lemma exercise_update_nth (K : R) (coeff prices V : list R) (i : nat) :
  length V = length prices -> (i < length prices)%nat ->
  nth i (Single.exercise_update K coeff prices V) 0 =
  let exercise := Rmax (nth i prices 0 - K) 0 in
  let continuation := np_polyval coeff (nth i prices 0) in
  if Rgtb exercise continuation then exercise else nth i V 0.
Proof.
  intros HV Hi. unfold Single.exercise_update.
  assert (Hm : length (map2 Rgtb (call_payoff K prices)
                            (map (np_polyval coeff) prices))
               = length (call_payoff K prices)).
  { apply map2_length. now rewrite call_payoff_length, length_map. }
  rewrite (np_where_nth 0); rewrite ?call_payoff_length; auto;
    [| now rewrite Hm, call_payoff_length ].
  rewrite (map2_nth Rgtb 0 0 false);
    rewrite ?call_payoff_length, ?length_map; auto.
  rewrite call_payoff_nth by assumption.
  rewrite (nth_indep (map _ prices) 0 (np_polyval coeff 0))
    by now rewrite length_map.
  rewrite (map_nth (np_polyval coeff)).
  reflexivity.
Qed.

Lemma map_nth_seq (f : R -> R) (l : list R) :
  map (fun p => f (nth p l 0)) (seq 0 (length l)) = map f l.
Proof.
  induction l as [|x l IH]; [reflexivity|].
  simpl. f_equal. rewrite <- seq_shift, map_map. exact IH.
Qed.

(** On a one-column array the basket payoff is the plain call payoff. *)
Lemma bermudan_column (K : R) (prices : list R) :
  Multi.bermudan_max_call_payoff (Multi.as_column prices) K = call_payoff K prices.
Proof.
  unfold Multi.bermudan_max_call_payoff, Multi.as_column, row, call_payoff. simpl.
  rewrite map_map. apply (map_nth_seq (fun x => Rmax (x - K) 0)).
Qed.

Lemma multi_exercise_update (K : R) (coeff prices V : list R) :
  Multi.exercise_update K coeff prices V = Single.exercise_update K coeff prices V.
Proof.
  unfold Multi.exercise_update, Single.exercise_update.
  now rewrite bermudan_column.
Qed.

Lemma exp_neg_one_bounds : / 3 <= exp (- 1) < 1.
Proof.
  split.
  - replace (-1) with (Ropp 1) by lra.
    rewrite exp_Ropp. apply Rinv_le_contravar; [apply exp_pos | apply exp_le_3].
  - rewrite <- exp_0. apply exp_increasing. lra.
Qed.

Lemma discount_one : discount_factor 1 1 = exp (- 1).
Proof. unfold discount_factor. f_equal. lra. Qed.

(** C1 (the code departs from the claim).  One path over three dates,
    strike 1, rate 1, one year between dates, value 4 carried from the last
    date.  At the interior date the exercise payoff 1 is below the
    continuation value in the evaluator (fitted polynomial 10) and in the
    trainer (constant fit of the discounted value), for the single-asset and
    the basket engine alike.  The held entry stays 4: it is not replaced by
    the one-step-discounted value [discount * 4]. *)
Theorem held_value_is_not_discounted :
  let discount := discount_factor 1 1 in
  Single.test_step three_dates 1 [Some [10]] [4] 1 = [4]
  /\ fst (Single.train_step constant_fit three_dates 1 discount 0 ([4], []) 1) = [4]
  /\ Multi.evaluate_step three_dates_by_path 1 [Some [10]] [4] 1 = [4]
  /\ fst (Multi.train_step constant_fit three_dates_by_path 1 discount 0 ([4], []) 1) = [4]
  /\ discount * 4 <> 4.
Proof.
  intros discount.
  assert (Hd : / 3 <= discount < 1).
  { unfold discount. rewrite discount_one. apply exp_neg_one_bounds. }
  assert (Hmax : Rmax (2 - 1) 0 = 1).
  { rewrite Rmax_left; lra. }
  repeat split.
  - unfold Single.test_step, Single.exercise_update, call_payoff, np_polyval,
      three_dates, of_rows, row.
    simpl. rewrite Hmax. Rcompare. reflexivity.
  - unfold Single.train_step, Single.exercise_update, call_payoff, np_polyval,
      three_dates, of_rows, row, constant_fit, np_mean, np_sum.
    simpl. Rcompare. simpl. rewrite Hmax. Rcompare. reflexivity.
  - unfold Multi.evaluate_step. cbn [nth Nat.sub]. rewrite multi_exercise_update.
    unfold Single.exercise_update, call_payoff, np_polyval,
      three_dates_by_path, of_rows, col.
    simpl. rewrite Hmax. Rcompare. reflexivity.
  - unfold Multi.train_step. cbv beta iota zeta. rewrite multi_exercise_update.
    unfold Single.exercise_update, call_payoff, np_polyval,
      three_dates_by_path, of_rows, col, constant_fit, np_mean, np_sum.
    simpl. Rcompare. simpl. rewrite Hmax. Rcompare. reflexivity.
  - lra.
Qed.

(** ** One date of the backward induction *)

Lemma row_In (a : ndarray2) (t : nat) (x : R) :
  In x (row a t) <-> exists i, (i < shape1 a)%nat /\ item2 a t i = x.
Proof.
  unfold row. rewrite in_map_iff. split.
  - intros [i [E Hi]]. apply in_seq in Hi. exists i. split; [lia | exact E].
  - intros [i [Hi E]]. exists i. split; [exact E | apply in_seq; lia].
Qed.

Lemma col_In (a : ndarray2) (s : nat) (x : R) :
  In x (col a s) <-> exists p, (p < shape0 a)%nat /\ item2 a p s = x.
Proof.
  unfold col. rewrite in_map_iff. split.
  - intros [i [E Hi]]. apply in_seq in Hi. exists i. split; [lia | exact E].
  - intros [i [Hi E]]. exists i. split; [exact E | apply in_seq; lia].
Qed.

Section Step.

Variable np_polyfit : list R -> list R -> nat -> list R.

(** The entry a date contributes to the series, as the trainer decides it. *)
Lemma single_train_step_cases (S : ndarray2) (K discount : R) (degree : nat)
      (V : list R) (cs : coeff_series) (t : nat) :
  let prices := row S t in
  let mask := map (fun x => Rgtb x K) prices in
  (select prices mask = []
   /\ Single.train_step np_polyfit S K discount degree (V, cs) t
      = (V, cs ++ [None]))
  \/ (select prices mask <> []
      /\ Single.train_step np_polyfit S K discount degree (V, cs) t
         = let coeff := np_polyfit (select prices mask)
                          (map (fun v => v * discount) (select V mask)) degree in
           (Single.exercise_update K coeff prices V, cs ++ [Some coeff])).
Proof.
  intros prices mask. unfold Single.train_step. fold prices. fold mask.
  destruct (select prices mask) eqn:E; simpl.
  - left. split; reflexivity.
  - right. split; [discriminate | reflexivity].
Qed.

Lemma multi_train_step_cases (P : ndarray2) (K discount : R) (degree : nat)
      (V : list R) (cs : coeff_series) (step : nat) :
  let prices := col P step in
  let mask := map (fun x => Rgtb x K) prices in
  (select prices mask = []
   /\ Multi.train_step np_polyfit P K discount degree (V, cs) step
      = (V, cs ++ [None]))
  \/ (select prices mask <> []
      /\ Multi.train_step np_polyfit P K discount degree (V, cs) step
         = let coeff := np_polyfit (select prices mask)
                          (map (fun v => v * discount) (select V mask)) degree in
           (Single.exercise_update K coeff prices V, cs ++ [Some coeff])).
Proof.
  intros prices mask. unfold Multi.train_step. fold prices. fold mask.
  destruct (select prices mask) eqn:E; simpl.
  - left. split; reflexivity.
  - right. split; [discriminate |]. now rewrite multi_exercise_update.
Qed.

End Step.


Lemma some_path_in_the_money (prices : list R) (K x : R) :
  In x prices -> K < x ->
  select prices (map (fun x => Rgtb x K) prices) <> [].
Proof.
  intros Hin Hx. apply (select_some_true _ _ x Hin). now apply Rgtb_true.
Qed.



Lemma constant_fit_length (X Y : list R) (deg : nat) :
  length (constant_fit X Y deg) = (deg + 1)%nat.
Proof. unfold constant_fit. now rewrite length_app, repeat_length. Qed.

(** ** The whole backward induction *)

Section Loop.

(** A loop body that appends one entry to the series per date. *)
Variable step : list R * coeff_series -> nat -> list R * coeff_series.
Hypothesis step_appends :
  forall V cs t, exists V' e, step (V, cs) t = (V', cs ++ [e]).

Lemma loop_appends (dates : list nat) (V : list R) (cs : coeff_series) :
  exists V' cs',
    fold_left step dates (V, cs) = (V', cs ++ cs')
    /\ length cs' = length dates.
Proof.
  revert V cs. induction dates as [|t dates IH]; intros V cs; simpl.
  - exists V, []. now rewrite app_nil_r.
  - destruct (step_appends V cs t) as [V1 [e E]]. rewrite E.
    destruct (IH V1 (cs ++ [e])) as [V2 [cs2 [E2 L2]]].
    exists V2, (e :: cs2). split; [| simpl; lia].
    rewrite <- app_assoc in E2. exact E2.
Qed.

Lemma backward_split (n t : nat) :
  (1 <= t <= n)%nat ->
  rev (seq 1 n) = rev (seq (t + 1) (n - t)) ++ t :: rev (seq 1 (t - 1)).
Proof.
  intros Ht.
  replace n with ((t - 1) + (1 + (n - t)))%nat at 1 by lia.
  rewrite seq_app, seq_app, !rev_app_distr.
  replace (1 + (t - 1))%nat with t by lia.
  replace (t + 1)%nat with (S t) by lia.
  simpl. rewrite <- app_assoc. reflexivity.
Qed.

(** The entry appended at date [t] ends up at position [t - 1] of the
    reversed series. *)
Lemma entry_position (V0 : list R) (n t : nat) :
  (1 <= t <= n)%nat ->
  let st := fold_left step (rev (seq (t + 1) (n - t))) (V0, []) in
  exists e,
    snd (step st t) = snd st ++ [e]
    /\ nth_error (rev (snd (fold_left step (rev (seq 1 n)) (V0, [])))) (t - 1)
       = Some e.
Proof.
  intros Ht st.
  rewrite (backward_split n t Ht), fold_left_app. fold st. simpl fold_left.
  destruct st as [V1 cs1] eqn:Est.
  destruct (step_appends V1 cs1 t) as [V2 [e E]]. rewrite E.
  exists e. split; [reflexivity |].
  destruct (loop_appends (rev (seq 1 (t - 1))) V2 (cs1 ++ [e]))
    as [V3 [cs3 [E3 L3]]].
  rewrite E3. simpl snd.
  rewrite length_rev, length_seq in L3.
  rewrite !rev_app_distr. simpl rev at 2. simpl app at 2.
  rewrite nth_error_app2 by (rewrite length_rev; lia).
  rewrite length_rev, L3, Nat.sub_diag. reflexivity.
Qed.

End Loop.

Lemma single_step_appends (np_polyfit : list R -> list R -> nat -> list R)
      (S : ndarray2) (K discount : R) (degree : nat) :
  forall V cs t, exists V' e,
      Single.train_step np_polyfit S K discount degree (V, cs) t = (V', cs ++ [e]).
Proof.
  intros V cs t.
  destruct (single_train_step_cases np_polyfit S K discount degree V cs t)
    as [[_ E] | [_ E]]; rewrite E; eauto.
Qed.

Lemma multi_step_appends (np_polyfit : list R -> list R -> nat -> list R)
      (P : ndarray2) (K discount : R) (degree : nat) :
  forall V cs t, exists V' e,
      Multi.train_step np_polyfit P K discount degree (V, cs) t = (V', cs ++ [e]).
Proof.
  intros V cs t.
  destruct (multi_train_step_cases np_polyfit P K discount degree V cs t)
    as [[_ E] | [_ E]]; rewrite E; eauto.
Qed.

Lemma valid_strike_maturity (K T : R) :
  0 < K -> 0 < T -> existsb (fun param => Rleb param 0) [K; T] = false.
Proof. intros HK HT. simpl. now rewrite !Rleb_false. Qed.

Lemma dates_minus_one (M : nat) : (Z.of_nat (M + 1) - 1)%Z = Z.of_nat M.
Proof. lia. Qed.

Lemma py_div_pos (T : R) (M : nat) :
  (1 <= M)%nat -> py_div T (Z.of_nat M) = Ok (T / INR M).
Proof.
  intros HM. unfold py_div.
  destruct (Z.eqb_spec (Z.of_nat M) 0); [lia |].
  now rewrite <- INR_IZR_INZ.
Qed.

(** On valid arguments the trainers run their loop to the end. *)
Lemma single_train_run_valid (np_polyfit : list R -> list R -> nat -> list R)
      (S : ndarray2) (K r T : R) (degree : Z) (M : nat) :
  shape0 S = (M + 1)%nat -> (1 <= M)%nat -> 0 < K -> 0 < T -> (0 <= degree)%Z ->
  Single.train_run np_polyfit S K r T degree
  = Ok (fold_left
          (Single.train_step np_polyfit S K (discount_factor r (T / INR M))
                             (Z.to_nat degree))
          (rev (seq 1 (M - 1)))
          (call_payoff K (row S M), [])).
Proof.
  intros HS HM HK HT Hd. unfold Single.train_run.
  rewrite valid_strike_maturity by assumption.
  destruct (Z.ltb_spec degree 0); [lia |]. simpl orb. cbv iota.
  rewrite HS, dates_minus_one, py_div_pos by assumption.
  replace (M + 1 =? 0)%nat with false by (symmetry; apply Nat.eqb_neq; lia).
  unfold Single.backward_dates. rewrite Nat2Z.id.
  replace (M + 1 - 1)%nat with M by lia. reflexivity.
Qed.

Lemma multi_train_run_valid (np_polyfit : list R -> list R -> nat -> list R)
      (P : ndarray2) (K r T : R) (degree : Z) (M : nat) :
  shape1 P = (M + 1)%nat -> (1 <= M)%nat -> 0 < K -> 0 < T -> (0 <= degree)%Z ->
  Multi.train_run np_polyfit P K r T degree
  = Ok (fold_left
          (Multi.train_step np_polyfit P K (discount_factor r (T / INR M))
                            (Z.to_nat degree))
          (rev (seq 1 (M - 1)))
          (Multi.bermudan_max_call_payoff (Multi.last_column P) K, [])).
Proof.
  intros HS HM HK HT Hd. unfold Multi.train_run.
  rewrite valid_strike_maturity by assumption.
  destruct (Z.ltb_spec degree 0); [lia |]. simpl orb. cbv iota.
  rewrite HS, dates_minus_one, py_div_pos by assumption.
  replace (M + 1 =? 0)%nat with false by (symmetry; apply Nat.eqb_neq; lia).
  unfold Multi.backward_dates. rewrite Nat2Z.id. reflexivity.
Qed.

(** C6, as stated, fails: the trainers guard their arguments.  On a
    matrix with three dates and strike 0 either trainer raises its
    [ValueError] and returns no series. *)
Lemma train_rejects_zero_strike :
  Single.longstaff_schwartz_train constant_fit three_dates 0 1 2 5
  = Raise (ValueError "K, T must be positive; degree must be non-negative")
  /\ Multi.longstaff_schwartz_train constant_fit three_dates_by_path 0 1 2 5
     = Raise (ValueError "Invalid parameter values").
Proof.
  unfold Single.longstaff_schwartz_train, Single.train_run,
    Multi.longstaff_schwartz_train, Multi.train_run.
  simpl existsb. rewrite (Rleb_true 0 0) by lra. split; reflexivity.
Qed.

(** C6, amended.  On a training matrix with [M + 1] dates, [M >= 1], a
    positive strike and maturity and a degree that is not negative, the
    trainer of either engine returns a series of exactly [M - 1] entries,
    whatever the degree and whatever dates have no in-the-money path. *)
Theorem train_returns_one_entry_per_interior_date
        (np_polyfit : list R -> list R -> nat -> list R)
        (S P : ndarray2) (K r T : R) (degree : Z) (M : nat) :
  shape0 S = (M + 1)%nat -> shape1 P = (M + 1)%nat -> (1 <= M)%nat ->
  0 < K -> 0 < T -> (0 <= degree)%Z ->
  (exists coeffs,
      Single.longstaff_schwartz_train np_polyfit S K r T degree = Ok coeffs
      /\ length coeffs = (M - 1)%nat)
  /\ (exists coeffs,
         Multi.longstaff_schwartz_train np_polyfit P K r T degree = Ok coeffs
         /\ length coeffs = (M - 1)%nat).
Proof.
  intros HS HP HM HK HT Hd. split.
  - unfold Single.longstaff_schwartz_train.
    rewrite (single_train_run_valid np_polyfit S K r T degree M) by assumption.
    destruct (loop_appends _ (single_step_appends np_polyfit S K
                (discount_factor r (T / INR M)) (Z.to_nat degree))
                (rev (seq 1 (M - 1))) (call_payoff K (row S M)) [])
      as [V' [cs' [E L]]].
    rewrite E. exists (rev cs'). split; [reflexivity |].
    now rewrite length_rev, L, length_rev, length_seq.
  - unfold Multi.longstaff_schwartz_train.
    rewrite (multi_train_run_valid np_polyfit P K r T degree M) by assumption.
    destruct (loop_appends _ (multi_step_appends np_polyfit P K
                (discount_factor r (T / INR M)) (Z.to_nat degree))
                (rev (seq 1 (M - 1)))
                (Multi.bermudan_max_call_payoff (Multi.last_column P) K) [])
      as [V' [cs' [E L]]].
    rewrite E. exists (rev cs'). split; [reflexivity |].
    now rewrite length_rev, L, length_rev, length_seq.
Qed.

Lemma train_returns_one_entry_per_interior_date_witness :
  (exists coeffs,
      Single.longstaff_schwartz_train constant_fit three_dates 3 1 2 5 = Ok coeffs
      /\ length coeffs = (2 - 1)%nat)
  /\ (exists coeffs,
         Multi.longstaff_schwartz_train constant_fit three_dates_by_path 3 1 2 5
         = Ok coeffs
         /\ length coeffs = (2 - 1)%nat).
Proof.
  apply (train_returns_one_entry_per_interior_date constant_fit three_dates
           three_dates_by_path 3 1 2 5 2).
  - reflexivity.
  - reflexivity.
  - lia.
  - lra.
  - lra.
  - lia.
Defined.

(** C5.  On a path matrix with [M + 1] dates, a coefficient series whose
    length is not [M - 1] — shorter or longer — makes the evaluator of
    either engine raise its length-mismatch [ValueError]; this is the whole
    result, reached before the time step, the payoff or any polynomial is
    computed. *)
Theorem evaluate_rejects_length_mismatch
        (S P : ndarray2) (K r T : R) (coefficients : coeff_series) (M : nat) :
  shape0 S = (M + 1)%nat -> shape1 P = (M + 1)%nat ->
  Z.of_nat (length coefficients) <> (Z.of_nat M - 1)%Z ->
  Single.longstaff_schwartz_test S K r T coefficients
  = Raise (ValueError "Coefficients length mismatch with time steps")
  /\ Multi.longstaff_schwartz_evaluate P K r T coefficients
     = Raise (ValueError "Coefficients/exercise steps mismatch").
Proof.
  intros HS HP Hlen. split.
  - unfold Single.longstaff_schwartz_test. rewrite HS, dates_minus_one.
    destruct (Z.eqb_spec (Z.of_nat (length coefficients)) (Z.of_nat M - 1));
      [contradiction | reflexivity].
  - unfold Multi.longstaff_schwartz_evaluate. rewrite HP, dates_minus_one.
    destruct (Z.eqb_spec (Z.of_nat (length coefficients)) (Z.of_nat M - 1));
      [contradiction | reflexivity].
Qed.

Lemma evaluate_rejects_length_mismatch_witness :
  (Single.longstaff_schwartz_test three_dates 1 1 2 []
   = Raise (ValueError "Coefficients length mismatch with time steps")
   /\ Multi.longstaff_schwartz_evaluate three_dates_by_path 1 1 2 []
      = Raise (ValueError "Coefficients/exercise steps mismatch"))
  /\ (Single.longstaff_schwartz_test three_dates 1 1 2 [None; Some [10]]
      = Raise (ValueError "Coefficients length mismatch with time steps")
      /\ Multi.longstaff_schwartz_evaluate three_dates_by_path 1 1 2 [None; Some [10]]
         = Raise (ValueError "Coefficients/exercise steps mismatch")).
Proof.
  split.
  - apply (evaluate_rejects_length_mismatch three_dates three_dates_by_path
             1 1 2 [] 2); [reflexivity | reflexivity | simpl; lia].
  - apply (evaluate_rejects_length_mismatch three_dates three_dates_by_path
             1 1 2 [None; Some [10]] 2); [reflexivity | reflexivity | simpl; lia].
Defined.

(** A returned series tells that the arguments passed the guards. *)
Lemma single_train_returned (np_polyfit : list R -> list R -> nat -> list R)
      (S : ndarray2) (K r T : R) (degree : Z) (coeffs : coeff_series) :
  Single.longstaff_schwartz_train np_polyfit S K r T degree = Ok coeffs ->
  0 < K /\ 0 < T /\ (0 <= degree)%Z.
Proof.
  unfold Single.longstaff_schwartz_train, Single.train_run.
  simpl existsb. unfold Rleb.
  destruct (Rle_dec K 0) as [? | HK]; [discriminate |].
  destruct (Rle_dec T 0) as [? | HT]; [discriminate |].
  destruct (Z.ltb_spec degree 0) as [? | Hd]; [discriminate |].
  intros _. repeat split; try lra. exact Hd.
Qed.

Lemma multi_train_returned (np_polyfit : list R -> list R -> nat -> list R)
      (P : ndarray2) (K r T : R) (degree : Z) (coeffs : coeff_series) :
  Multi.longstaff_schwartz_train np_polyfit P K r T degree = Ok coeffs ->
  0 < K /\ 0 < T /\ (0 <= degree)%Z.
Proof.
  unfold Multi.longstaff_schwartz_train, Multi.train_run.
  simpl existsb. unfold Rleb.
  destruct (Rle_dec K 0) as [? | HK]; [discriminate |].
  destruct (Rle_dec T 0) as [? | HT]; [discriminate |].
  destruct (Z.ltb_spec degree 0) as [? | Hd]; [discriminate |].
  intros _. repeat split; try lra. exact Hd.
Qed.

(** ** What the returned series holds *)

(** A returned series has one entry per interior date. *)
Lemma single_train_length (np_polyfit : list R -> list R -> nat -> list R)
      (S : ndarray2) (K r T : R) (degree : Z) (M : nat) (coeffs : coeff_series) :
  shape0 S = (M + 1)%nat -> (1 <= M)%nat ->
  Single.longstaff_schwartz_train np_polyfit S K r T degree = Ok coeffs ->
  length coeffs = (M - 1)%nat.
Proof.
  intros HS HM Htrain.
  destruct (single_train_returned _ _ _ _ _ _ _ Htrain) as [HK [HT Hd]].
  unfold Single.longstaff_schwartz_train in Htrain.
  rewrite (single_train_run_valid np_polyfit S K r T degree M) in Htrain
    by assumption.
  destruct (loop_appends _ (single_step_appends np_polyfit S K
              (discount_factor r (T / INR M)) (Z.to_nat degree))
              (rev (seq 1 (M - 1))) (call_payoff K (row S M)) [])
    as [V' [cs' [E L]]].
  rewrite E in Htrain. injection Htrain as <-.
  now rewrite length_rev, L, length_rev, length_seq.
Qed.

Lemma multi_train_length (np_polyfit : list R -> list R -> nat -> list R)
      (P : ndarray2) (K r T : R) (degree : Z) (M : nat) (coeffs : coeff_series) :
  shape1 P = (M + 1)%nat -> (1 <= M)%nat ->
  Multi.longstaff_schwartz_train np_polyfit P K r T degree = Ok coeffs ->
  length coeffs = (M - 1)%nat.
Proof.
  intros HP HM Htrain.
  destruct (multi_train_returned _ _ _ _ _ _ _ Htrain) as [HK [HT Hd]].
  unfold Multi.longstaff_schwartz_train in Htrain.
  rewrite (multi_train_run_valid np_polyfit P K r T degree M) in Htrain
    by assumption.
  destruct (loop_appends _ (multi_step_appends np_polyfit P K
              (discount_factor r (T / INR M)) (Z.to_nat degree))
              (rev (seq 1 (M - 1)))
              (Multi.bermudan_max_call_payoff (Multi.last_column P) K) [])
    as [V' [cs' [E L]]].
  rewrite E in Htrain. injection Htrain as <-.
  now rewrite length_rev, L, length_rev, length_seq.
Qed.

(** Position [t - 1] of the series the single-asset trainer returns holds
    what its loop fitted at date [t]. *)
Lemma single_recorded_entry (np_polyfit : list R -> list R -> nat -> list R)
      (S : ndarray2) (K r T : R) (degree : Z) (M t : nat)
      (coeffs : coeff_series) :
  shape0 S = (M + 1)%nat ->
  Single.longstaff_schwartz_train np_polyfit S K r T degree = Ok coeffs ->
  (1 <= t <= M - 1)%nat ->
  nth_error coeffs (t - 1)
  = Some (Single.fitted_at np_polyfit S K r T degree t).
Proof.
  intros HS Htrain Ht.
  destruct (single_train_returned _ _ _ _ _ _ _ Htrain) as [HK [HT Hd]].
  assert (HM : (1 <= M)%nat) by lia.
  unfold Single.longstaff_schwartz_train in Htrain.
  rewrite (single_train_run_valid np_polyfit S K r T degree M) in Htrain
    by assumption.
  destruct (entry_position _ (single_step_appends np_polyfit S K
              (discount_factor r (T / INR M)) (Z.to_nat degree))
              (call_payoff K (row S M)) (M - 1) t Ht) as [e [E1 E2]].
  destruct (fold_left _ (rev (seq 1 (M - 1))) _) as [Vend cs] eqn:Efold.
  cbn [snd] in E2. injection Htrain as <-.
  rewrite E2. f_equal.
  unfold Single.fitted_at, Single.state_before. rewrite HS.
  replace (M + 1 - 1)%nat with M by lia. cbv zeta.
  destruct (fold_left _ (rev (seq (t + 1) (M - 1 - t))) _) as [V1 cs1].
  cbn [fst snd] in *.
  destruct (single_train_step_cases np_polyfit S K
              (discount_factor r (T / INR M)) (Z.to_nat degree) V1 cs1 t)
    as [[N E] | [N E]]; rewrite E in E1; cbn [snd] in E1;
    apply app_inj_tail in E1; destruct E1 as [_ <-].
  - now rewrite N.
  - destruct (select _ _); [contradiction | reflexivity].
Qed.

Lemma multi_recorded_entry (np_polyfit : list R -> list R -> nat -> list R)
      (P : ndarray2) (K r T : R) (degree : Z) (M t : nat)
      (coeffs : coeff_series) :
  shape1 P = (M + 1)%nat ->
  Multi.longstaff_schwartz_train np_polyfit P K r T degree = Ok coeffs ->
  (1 <= t <= M - 1)%nat ->
  nth_error coeffs (t - 1)
  = Some (Multi.fitted_at np_polyfit P K r T degree t).
Proof.
  intros HP Htrain Ht.
  destruct (multi_train_returned _ _ _ _ _ _ _ Htrain) as [HK [HT Hd]].
  assert (HM : (1 <= M)%nat) by lia.
  unfold Multi.longstaff_schwartz_train in Htrain.
  rewrite (multi_train_run_valid np_polyfit P K r T degree M) in Htrain
    by assumption.
  destruct (entry_position _ (multi_step_appends np_polyfit P K
              (discount_factor r (T / INR M)) (Z.to_nat degree))
              (Multi.bermudan_max_call_payoff (Multi.last_column P) K)
              (M - 1) t Ht) as [e [E1 E2]].
  destruct (fold_left _ (rev (seq 1 (M - 1))) _) as [Vend cs] eqn:Efold.
  cbn [snd] in E2. injection Htrain as <-.
  rewrite E2. f_equal.
  unfold Multi.fitted_at, Multi.state_before. rewrite HP.
  replace (M + 1 - 1)%nat with M by lia. cbv zeta.
  destruct (fold_left _ (rev (seq (t + 1) (M - 1 - t))) _) as [V1 cs1].
  cbn [fst snd] in *.
  destruct (multi_train_step_cases np_polyfit P K
              (discount_factor r (T / INR M)) (Z.to_nat degree) V1 cs1 t)
    as [[N E] | [N E]]; rewrite E in E1; cbn [snd] in E1;
    apply app_inj_tail in E1; destruct E1 as [_ <-].
  - now rewrite N.
  - destruct (select _ _); [contradiction | reflexivity].
Qed.

(** At a date with a path in the money, what the loop fits is
    [np.polyfit] on the in-the-money paths. *)
Lemma single_fitted_in_the_money
      (np_polyfit : list R -> list R -> nat -> list R)
      (S : ndarray2) (K r T : R) (degree : Z) (t i : nat) :
  (i < shape1 S)%nat -> K < item2 S t i ->
  let mask := map (fun x => Rgtb x K) (row S t) in
  let X := select (row S t) mask in
  let Y := map (fun v => v * discount_factor r (T / INR (shape0 S - 1)))
               (select (fst (Single.state_before np_polyfit S K r T degree t))
                       mask) in
  X <> []
  /\ Single.fitted_at np_polyfit S K r T degree t
     = Some (np_polyfit X Y (Z.to_nat degree)).
Proof.
  intros Hi HSi mask X Y.
  assert (HX : X <> []).
  { apply (some_path_in_the_money _ K (item2 S t i)); [| exact HSi].
    apply row_In. now exists i. }
  split; [exact HX |].
  unfold Single.fitted_at. cbv zeta. fold mask. fold X.
  destruct X as [|x X'] eqn:EX; [contradiction | reflexivity].
Qed.

Lemma multi_fitted_in_the_money
      (np_polyfit : list R -> list R -> nat -> list R)
      (P : ndarray2) (K r T : R) (degree : Z) (t p : nat) :
  (p < shape0 P)%nat -> K < item2 P p t ->
  let mask := map (fun x => Rgtb x K) (col P t) in
  let X := select (col P t) mask in
  let Y := map (fun v => v * discount_factor r (T / INR (shape1 P - 1)))
               (select (fst (Multi.state_before np_polyfit P K r T degree t))
                       mask) in
  X <> []
  /\ Multi.fitted_at np_polyfit P K r T degree t
     = Some (np_polyfit X Y (Z.to_nat degree)).
Proof.
  intros Hp HPp mask X Y.
  assert (HX : X <> []).
  { apply (some_path_in_the_money _ K (item2 P p t)); [| exact HPp].
    apply col_In. now exists p. }
  split; [exact HX |].
  unfold Multi.fitted_at. cbv zeta. fold mask. fold X.
  destruct X as [|x X'] eqn:EX; [contradiction | reflexivity].
Qed.

(** C10.  In the series a trainer returns, the entry of an interior date
    [t] at which at least one training path is in the money is a
    coefficient vector, never [None]: it is [np.polyfit(X, Y, degree)] on the
    in-the-money prices [X] of date [t] and the discounted values [Y] the
    loop holds there, and it has [degree + 1] entries — NumPy's [polyfit]
    returns shape [(deg + 1,)] — however few paths are in the money; so an
    entry is [None] only at a date where no path is in the money.  This
    holds for the single-asset and for the basket trainer. *)
Theorem in_the_money_date_records_coefficients
        (np_polyfit : list R -> list R -> nat -> list R)
        (S P : ndarray2) (K r T : R) (degree : Z) (M : nat)
        (coeffs coeffs' : coeff_series) :
  (forall X Y deg, X <> [] -> length (np_polyfit X Y deg) = (deg + 1)%nat) ->
  shape0 S = (M + 1)%nat -> shape1 P = (M + 1)%nat ->
  Single.longstaff_schwartz_train np_polyfit S K r T degree = Ok coeffs ->
  Multi.longstaff_schwartz_train np_polyfit P K r T degree = Ok coeffs' ->
  (forall t i,
      (1 <= t <= M - 1)%nat -> (i < shape1 S)%nat -> K < item2 S t i ->
      let mask := map (fun x => Rgtb x K) (row S t) in
      let X := select (row S t) mask in
      let Y := map (fun v => v * discount_factor r (T / INR M))
                   (select (fst (Single.state_before np_polyfit S K r T degree t))
                           mask) in
      X <> []
      /\ nth_error coeffs (t - 1) = Some (Some (np_polyfit X Y (Z.to_nat degree)))
      /\ length (np_polyfit X Y (Z.to_nat degree)) = (Z.to_nat degree + 1)%nat)
  /\ (forall t, (1 <= t <= M - 1)%nat -> nth_error coeffs (t - 1) = Some None ->
                forall i, (i < shape1 S)%nat -> item2 S t i <= K)
  /\ (forall t p,
         (1 <= t <= M - 1)%nat -> (p < shape0 P)%nat -> K < item2 P p t ->
         let mask := map (fun x => Rgtb x K) (col P t) in
         let X := select (col P t) mask in
         let Y := map (fun v => v * discount_factor r (T / INR M))
                      (select (fst (Multi.state_before np_polyfit P K r T degree t))
                              mask) in
         X <> []
         /\ nth_error coeffs' (t - 1)
            = Some (Some (np_polyfit X Y (Z.to_nat degree)))
         /\ length (np_polyfit X Y (Z.to_nat degree)) = (Z.to_nat degree + 1)%nat)
  /\ (forall t, (1 <= t <= M - 1)%nat -> nth_error coeffs' (t - 1) = Some None ->
                forall p, (p < shape0 P)%nat -> item2 P p t <= K).
Proof.
  intros Hfit HS HP Hsingle Hmulti.
  assert (H1 : forall t i,
             (1 <= t <= M - 1)%nat -> (i < shape1 S)%nat -> K < item2 S t i ->
             let mask := map (fun x => Rgtb x K) (row S t) in
             let X := select (row S t) mask in
             let Y := map (fun v => v * discount_factor r (T / INR M))
                          (select (fst (Single.state_before np_polyfit S K r T
                                                            degree t)) mask) in
             X <> []
             /\ nth_error coeffs (t - 1)
                = Some (Some (np_polyfit X Y (Z.to_nat degree)))).
  { intros t i Ht Hi HSi mask X Y.
    destruct (single_fitted_in_the_money np_polyfit S K r T degree t i Hi HSi)
      as [HX E].
    rewrite HS in E. replace (M + 1 - 1)%nat with M in E by lia.
    split; [exact HX |].
    rewrite (single_recorded_entry np_polyfit S K r T degree M t coeffs
               HS Hsingle Ht).
    now rewrite E. }
  assert (H2 : forall t p,
             (1 <= t <= M - 1)%nat -> (p < shape0 P)%nat -> K < item2 P p t ->
             let mask := map (fun x => Rgtb x K) (col P t) in
             let X := select (col P t) mask in
             let Y := map (fun v => v * discount_factor r (T / INR M))
                          (select (fst (Multi.state_before np_polyfit P K r T
                                                           degree t)) mask) in
             X <> []
             /\ nth_error coeffs' (t - 1)
                = Some (Some (np_polyfit X Y (Z.to_nat degree)))).
  { intros t p Ht Hp HPp mask X Y.
    destruct (multi_fitted_in_the_money np_polyfit P K r T degree t p Hp HPp)
      as [HX E].
    rewrite HP in E. replace (M + 1 - 1)%nat with M in E by lia.
    split; [exact HX |].
    rewrite (multi_recorded_entry np_polyfit P K r T degree M t coeffs'
               HP Hmulti Ht).
    now rewrite E. }
  split; [| split; [| split]].
  - intros t i Ht Hi HSi mask X Y.
    destruct (H1 t i Ht Hi HSi) as [HX E].
    split; [exact HX |]. split; [exact E |]. now apply Hfit.
  - intros t Ht Hnone i Hi.
    destruct (Rle_or_lt (item2 S t i) K) as [Hle | Hlt]; [exact Hle |].
    destruct (H1 t i Ht Hi Hlt) as [_ E]. rewrite E in Hnone. discriminate.
  - intros t p Ht Hp HPp mask X Y.
    destruct (H2 t p Ht Hp HPp) as [HX E].
    split; [exact HX |]. split; [exact E |]. now apply Hfit.
  - intros t Ht Hnone p Hp.
    destruct (Rle_or_lt (item2 P p t) K) as [Hle | Hlt]; [exact Hle |].
    destruct (H2 t p Ht Hp Hlt) as [_ E]. rewrite E in Hnone. discriminate.
Qed.

(** On valid arguments the trainers return a series. *)
Lemma single_train_returns (np_polyfit : list R -> list R -> nat -> list R)
      (S : ndarray2) (K r T : R) (degree : Z) (M : nat) :
  shape0 S = (M + 1)%nat -> (1 <= M)%nat -> 0 < K -> 0 < T -> (0 <= degree)%Z ->
  exists coeffs,
    Single.longstaff_schwartz_train np_polyfit S K r T degree = Ok coeffs.
Proof.
  intros HS HM HK HT Hd. unfold Single.longstaff_schwartz_train.
  rewrite (single_train_run_valid np_polyfit S K r T degree M) by assumption.
  destruct (fold_left _ _ _) as [V cs]. now exists (rev cs).
Qed.

Lemma multi_train_returns (np_polyfit : list R -> list R -> nat -> list R)
      (P : ndarray2) (K r T : R) (degree : Z) (M : nat) :
  shape1 P = (M + 1)%nat -> (1 <= M)%nat -> 0 < K -> 0 < T -> (0 <= degree)%Z ->
  exists coeffs,
    Multi.longstaff_schwartz_train np_polyfit P K r T degree = Ok coeffs.
Proof.
  intros HP HM HK HT Hd. unfold Multi.longstaff_schwartz_train.
  rewrite (multi_train_run_valid np_polyfit P K r T degree M) by assumption.
  destruct (fold_left _ _ _) as [V cs]. now exists (rev cs).
Qed.

Lemma in_the_money_date_records_coefficients_witness :
  exists coeffs coeffs',
    Single.longstaff_schwartz_train constant_fit four_dates 100 1 3 5 = Ok coeffs
    /\ Multi.longstaff_schwartz_train constant_fit four_dates_by_path 100 1 3 5
       = Ok coeffs'
    /\ (1 < shape1 four_dates)%nat /\ 100 < item2 four_dates 1 1
    /\ (1 < shape0 four_dates_by_path)%nat /\ 100 < item2 four_dates_by_path 1 1
    /\ (let mask := map (fun x => Rgtb x 100) (row four_dates 1) in
        let X := select (row four_dates 1) mask in
        let Y := map (fun v => v * discount_factor 1 (3 / INR 3))
                     (select (fst (Single.state_before constant_fit four_dates
                                                       100 1 3 5 1)) mask) in
        X <> []
        /\ nth_error coeffs (1 - 1)
           = Some (Some (constant_fit X Y (Z.to_nat 5)))
        /\ length (constant_fit X Y (Z.to_nat 5)) = (Z.to_nat 5 + 1)%nat)
    /\ (let mask := map (fun x => Rgtb x 100) (col four_dates_by_path 1) in
        let X := select (col four_dates_by_path 1) mask in
        let Y := map (fun v => v * discount_factor 1 (3 / INR 3))
                     (select (fst (Multi.state_before constant_fit
                                     four_dates_by_path 100 1 3 5 1)) mask) in
        X <> []
        /\ nth_error coeffs' (1 - 1)
           = Some (Some (constant_fit X Y (Z.to_nat 5)))
        /\ length (constant_fit X Y (Z.to_nat 5)) = (Z.to_nat 5 + 1)%nat).
Proof.
  destruct (single_train_returns constant_fit four_dates 100 1 3 5 3)
    as [coeffs H1]; [reflexivity | lia | lra | lra | lia |].
  destruct (multi_train_returns constant_fit four_dates_by_path 100 1 3 5 3)
    as [coeffs' H2]; [reflexivity | lia | lra | lra | lia |].
  assert (I1 : (1 < shape1 four_dates)%nat) by (simpl; lia).
  assert (I2 : 100 < item2 four_dates 1 1) by (simpl; lra).
  assert (I3 : (1 < shape0 four_dates_by_path)%nat) by (simpl; lia).
  assert (I4 : 100 < item2 four_dates_by_path 1 1) by (simpl; lra).
  destruct (in_the_money_date_records_coefficients constant_fit four_dates
              four_dates_by_path 100 1 3 5 3 coeffs coeffs'
              (fun X Y deg _ => constant_fit_length X Y deg)
              eq_refl eq_refl H1 H2) as [A [_ [B _]]].
  exists coeffs, coeffs'.
  split; [exact H1 |]. split; [exact H2 |].
  split; [exact I1 |]. split; [exact I2 |].
  split; [exact I3 |]. split; [exact I4 |].
  split.
  - exact (A 1%nat 1%nat (conj (le_n 1) (le_S _ _ (le_n 1))) I1 I2).
  - exact (B 1%nat 1%nat (conj (le_n 1) (le_S _ _ (le_n 1))) I3 I4).
Defined.

(** ** The single-asset simulator *)

Section SingleSimulator.

Variable rng : Type.
Variable np_random_seed : Z -> rng.
Variable np_random_standard_normal :
  nat -> nat -> rng -> (nat -> nat -> R) * rng.

Local Abbreviation simulate_gbm :=
  (Single.simulate_gbm rng np_random_seed np_random_standard_normal).

Lemma single_gbm_step_shape (drift vol : R) (rand : nat -> nat -> R)
      (paths : ndarray2) (t : nat) :
  shape0 (Single.gbm_step drift vol rand paths t) = shape0 paths
  /\ shape1 (Single.gbm_step drift vol rand paths t) = shape1 paths.
Proof. split; reflexivity. Qed.

Lemma single_gbm_step_item (drift vol : R) (rand : nat -> nat -> R)
      (paths : ndarray2) (t t' i : nat) :
  (i < shape1 paths)%nat ->
  item2 (Single.gbm_step drift vol rand paths t) t' i
  = if (t' =? t)%nat
    then item2 paths (t - 1) i * exp (drift + vol * rand (t - 1)%nat i)
    else item2 paths t' i.
Proof.
  intros Hi. unfold Single.gbm_step, set_row. simpl.
  destruct (t' =? t)%nat; [| reflexivity].
  rewrite (map2_nth _ 0 0 0);
    rewrite ?row_length, ?length_map, ?length_seq; auto.
  rewrite row_nth by assumption.
  now rewrite (nth_map_seq (rand (t - 1)%nat)).
Qed.

(** The loop [for t in range(a, a + n)]: earlier rows stay, each new row is
    one step from the row before it. *)
Lemma single_loop_spec (drift vol : R) (rand : nat -> nat -> R) (n : nat) :
  forall (a : nat) (paths : ndarray2),
    (1 <= a)%nat ->
    let paths' := fold_left (Single.gbm_step drift vol rand) (seq a n) paths in
    shape0 paths' = shape0 paths
    /\ shape1 paths' = shape1 paths
    /\ (forall t i, (t < a)%nat -> (i < shape1 paths)%nat ->
                    item2 paths' t i = item2 paths t i)
    /\ (forall t i, (a <= t < a + n)%nat -> (i < shape1 paths)%nat ->
                    item2 paths' t i
                    = item2 paths' (t - 1) i
                      * exp (drift + vol * rand (t - 1)%nat i)).
Proof.
  induction n as [|n IH]; intros a paths Ha; simpl.
  - repeat split; intros; try reflexivity; lia.
  - specialize (IH (S a) (Single.gbm_step drift vol rand paths a)).
    destruct IH as [H0 [H1 [Hold Hnew]]]; [lia |].
    repeat split.
    + exact H0.
    + exact H1.
    + intros t i Ht Hi. rewrite Hold by (simpl; auto; lia).
      rewrite single_gbm_step_item by assumption.
      destruct (Nat.eqb_spec t a); [lia | reflexivity].
    + intros t i Ht Hi.
      destruct (Nat.eq_dec t a) as [-> | Hne].
      * rewrite !Hold by (simpl; auto; lia).
        rewrite !single_gbm_step_item by assumption.
        rewrite Nat.eqb_refl.
        destruct (Nat.eqb_spec (a - 1) a); [lia | reflexivity].
      * apply Hnew; [lia | exact Hi].
Qed.

(** The arguments the validation lets through. *)
Lemma single_validation (S0 r dividend sigma T : R) (M I : pyval)
      (seed : option Z) (g : rng) (paths : ndarray2) :
  fst (simulate_gbm S0 r dividend sigma T M I seed g) = Ok paths ->
  0 < S0 /\ 0 < T /\ 0 <= sigma
  /\ exists m n, M = PyInt (Z.of_nat m) /\ I = PyInt (Z.of_nat n)
                 /\ (1 <= m)%nat /\ (1 <= n)%nat.
Proof.
  unfold Single.simulate_gbm. simpl existsb. simpl forallb.
  unfold Rleb, Rltb.
  destruct (Rle_dec S0 0) as [? | HS0]; [discriminate |].
  destruct (Rle_dec T 0) as [? | HT]; [discriminate |].
  destruct (Rlt_dec sigma 0) as [? | Hsigma]; [discriminate |].
  simpl orb. cbv iota.
  destruct M as [m | x]; [| discriminate].
  destruct I as [n | y]; [| simpl; rewrite andb_false_r; discriminate].
  simpl. destruct (Z.ltb_spec 0 m) as [Hm | ?]; [| discriminate].
  destruct (Z.ltb_spec 0 n) as [Hn | ?]; [| discriminate].
  intros _. repeat split; try lra.
  exists (Z.to_nat m), (Z.to_nat n). rewrite !Z2Nat.id by lia.
  repeat split; lia.
Qed.

(** The run on arguments that pass the validation. *)
Lemma single_simulate_valid (S0 r dividend sigma T : R) (m n : nat)
      (seed : option Z) (g : rng) :
  0 < S0 -> 0 < T -> 0 <= sigma -> (1 <= m)%nat -> (1 <= n)%nat ->
  let g1 := match seed with Some s => np_random_seed s | None => g end in
  let dt := T / INR m in
  simulate_gbm S0 r dividend sigma T (PyInt (Z.of_nat m)) (PyInt (Z.of_nat n))
               seed g
  = (Ok (fold_left
           (Single.gbm_step ((r - dividend - 0.5 * sigma ^ 2) * dt)
                            (sigma * sqrt dt)
                            (fst (np_random_standard_normal m n g1)))
           (seq 1 m)
           (set_row 0 (repeat S0 n) (Array2 (m + 1) n (fun _ _ => 0)))),
     snd (np_random_standard_normal m n g1)).
Proof.
  intros HS0 HT Hs Hm Hn g1 dt. unfold Single.simulate_gbm.
  simpl existsb. simpl forallb.
  rewrite !Rleb_false, Rltb_false by lra. simpl orb. cbv iota.
  destruct (Z.ltb_spec 0 (Z.of_nat m)); [| lia].
  destruct (Z.ltb_spec 0 (Z.of_nat n)); [| lia].
  simpl andb. simpl negb. cbv iota. simpl int_of. rewrite !Nat2Z.id.
  fold g1. fold dt.
  destruct (np_random_standard_normal m n g1) as [rand g2]. reflexivity.
Qed.


End SingleSimulator.

(** ** The multi-asset simulator *)

Lemma py_int_spec (x : R) (z : Z) : 0 <= x -> IZR z <= x < IZR z + 1 -> py_int x = z.
Proof.
  intros Hx Hz. unfold py_int. destruct (Rle_dec 0 x); [| contradiction].
  symmetry. apply Int_part_spec. lra.
Qed.

Section MultiSimulator.

Variable rng : Type.
Variable np_random_seed : Z -> rng.
Variable np_random_randn : nat -> nat -> rng -> (nat -> nat -> R) * rng.
Variable float32 : R -> R.

Local Abbreviation simulate_gbm_multi :=
  (Multi.simulate_gbm_multi rng np_random_seed np_random_randn float32).
Local Abbreviation gbm_step := (Multi.gbm_step rng np_random_randn float32).
Local Abbreviation draw := (Multi.draw rng np_random_randn).

Lemma multi_gbm_step_eq (num_paths dimension : nat) (drift diffusion : list R)
      (paths : ndarray3) (g : rng) (step : nat) :
  gbm_step num_paths dimension drift diffusion (paths, g) step
  = (set_slice step
       (fun p d =>
          float32 (item3 paths p d (step - 1)
                   * exp (nth d drift 0
                          + nth d diffusion 0
                            * float32 (fst (np_random_randn num_paths dimension g) p d))))
       paths,
     snd (np_random_randn num_paths dimension g)).
Proof.
  unfold Multi.gbm_step.
  destruct (np_random_randn num_paths dimension g); reflexivity.
Qed.

(** The loop [for step in range(a, a + n)]: earlier slices stay, each new
    slice is one stored step from the slice before it. *)
Lemma multi_loop_spec (num_paths dimension : nat) (drift diffusion : list R)
      (n : nat) :
  forall (a : nat) (paths : ndarray3) (g : rng),
    (1 <= a)%nat ->
    let paths' := fst (fold_left (gbm_step num_paths dimension drift diffusion)
                                 (seq a n) (paths, g)) in
    dim0 paths' = dim0 paths /\ dim1 paths' = dim1 paths
    /\ dim2 paths' = dim2 paths
    /\ (forall p d s, (s < a)%nat -> item3 paths' p d s = item3 paths p d s)
    /\ (forall p d s, (a <= s < a + n)%nat ->
                      item3 paths' p d s
                      = float32
                          (item3 paths' p d (s - 1)
                           * exp (nth d drift 0
                                  + nth d diffusion 0
                                    * float32 (fst (draw num_paths dimension g (s - a)) p d)))).
Proof.
  induction n as [|n IH]; intros a paths g Ha; cbn [seq fold_left].
  - simpl. repeat split; intros; try reflexivity; lia.
  - rewrite multi_gbm_step_eq.
    match goal with
    | |- context [fold_left _ _ (?P, ?G)] =>
      specialize (IH (S a) P G)
    end.
    destruct IH as [H0 [H1 [H2 [Hold Hnew]]]]; [lia |].
    cbv zeta. repeat split.
    + exact H0.
    + exact H1.
    + exact H2.
    + intros p d s Hs. rewrite Hold by lia. simpl.
      destruct (Nat.eqb_spec s a); [lia | reflexivity].
    + intros p d s Hs.
      destruct (Nat.eq_dec s a) as [-> | Hne].
      * rewrite !Hold by lia. simpl. rewrite Nat.eqb_refl.
        destruct (Nat.eqb_spec (a - 1) a); [lia |].
        rewrite Nat.sub_diag. reflexivity.
      * rewrite Hnew by lia.
        replace (s - a)%nat with (S (s - S a)) by lia. reflexivity.
Qed.

End MultiSimulator.

Lemma drift_terms_nth (r : R) (dividend_rates : Multi.dividend)
      (sigma : list R) (time_step : R) (d : nat) :
  match dividend_rates with
  | Multi.DivArray qs => length qs = length sigma
  | Multi.DivScalar _ => True
  end ->
  (d < length sigma)%nat ->
  nth d (Multi.drift_terms r (Multi.full (length sigma) dividend_rates)
                           sigma time_step) 0
  = (r - Multi.dividend_at dividend_rates d - 0.5 * nth d sigma 0 ^ 2) * time_step.
Proof.
  intros Hq Hd. unfold Multi.drift_terms.
  rewrite (map2_nth _ 0 0 0).
  - destruct dividend_rates as [q | qs]; simpl; [| reflexivity].
    rewrite nth_repeat_lt by assumption. reflexivity.
  - destruct dividend_rates as [q | qs]; simpl; [now rewrite repeat_length | auto].
  - destruct dividend_rates as [q | qs]; simpl; [now rewrite repeat_length | lia].
Qed.

Lemma diffusion_terms_nth (sigma : list R) (dt_sqrt : R) (d : nat) :
  nth d (Multi.diffusion_terms sigma dt_sqrt) 0 = nth d sigma 0 * dt_sqrt.
Proof.
  unfold Multi.diffusion_terms.
  replace 0 with (0 * dt_sqrt) at 1 by lra.
  apply (map_nth (fun s => s * dt_sqrt)).
Qed.

Section MultiSimulatorRun.

Variable rng : Type.
Variable np_random_seed : Z -> rng.
Variable np_random_randn : nat -> nat -> rng -> (nat -> nat -> R) * rng.
Variable float32 : R -> R.

Local Abbreviation simulate_gbm_multi :=
  (Multi.simulate_gbm_multi rng np_random_seed np_random_randn float32).
Local Abbreviation gbm_step := (Multi.gbm_step rng np_random_randn float32).

(** The generator the loop starts from. *)
Local Abbreviation seeded seed g :=
  (match seed with
   | Some s => if Multi.truthy seed then np_random_seed s else g
   | None => g
   end).

(** The arguments the validation lets through. *)
Lemma multi_validation (dimension : Z) (r : R) (dividend_rates : Multi.dividend)
      (sigma initial_prices : list R) (T time_step : R) (num_paths : Z)
      (seed : option Z) (g : rng) (paths : ndarray3) :
  fst (simulate_gbm_multi dimension r dividend_rates sigma initial_prices
                          T time_step num_paths seed g) = Ok paths ->
  (0 < dimension)%Z
  /\ Z.of_nat (length sigma) = dimension
  /\ Z.of_nat (length initial_prices) = dimension
  /\ 0 < T /\ 0 < time_step /\ (0 < num_paths)%Z /\ 0 <= r
  /\ match dividend_rates with
     | Multi.DivArray qs => length qs = length sigma
     | Multi.DivScalar _ => True
     end.
Proof.
  unfold Multi.simulate_gbm_multi.
  destruct (Z.leb_spec dimension 0) as [? | Hdim]; [discriminate |].
  destruct (Z.eqb_spec (Z.of_nat (length sigma)) dimension) as [Hs | ?];
    [| discriminate].
  destruct (Z.eqb_spec (Z.of_nat (length initial_prices)) dimension) as [Hi | ?];
    [| discriminate].
  simpl orb. cbv iota. unfold Rleb, Rltb.
  destruct (Rle_dec T 0) as [? | HT]; [discriminate |].
  destruct (Rle_dec time_step 0) as [? | Hdt]; [discriminate |].
  simpl orb. cbv iota.
  destruct (Z.leb_spec num_paths 0) as [? | Hnp]; [discriminate |].
  destruct (Rlt_dec r 0) as [? | Hr]; [discriminate |].
  intros H.
  repeat split; try assumption; try lra.
  destruct dividend_rates as [q | qs]; [exact I |].
  destruct (Z.eqb_spec (Z.of_nat (length qs)) dimension) as [Hq | ?];
    [lia | discriminate].
Qed.

(** The run on arguments that pass the validation. *)
Lemma multi_simulate_valid (r : R) (dividend_rates : Multi.dividend)
      (sigma initial_prices : list R) (T time_step : R) (num_paths : nat)
      (seed : option Z) (g : rng) :
  (1 <= length sigma)%nat -> length initial_prices = length sigma ->
  0 < T -> 0 < time_step -> (1 <= num_paths)%nat -> 0 <= r ->
  match dividend_rates with
  | Multi.DivArray qs => length qs = length sigma
  | Multi.DivScalar _ => True
  end ->
  let dimension := length sigma in
  let n_steps := Z.to_nat (py_int (T / time_step)) in
  let st :=
      fold_left
        (gbm_step num_paths dimension
           (Multi.drift_terms r (Multi.full dimension dividend_rates) sigma time_step)
           (Multi.diffusion_terms sigma (sqrt time_step)))
        (seq 1 n_steps)
        (set_slice 0 (fun _ d => float32 (nth d initial_prices 0))
           (Array3 num_paths dimension (n_steps + 1) (fun _ _ _ => 0)),
         seeded seed g) in
  simulate_gbm_multi (Z.of_nat dimension) r dividend_rates sigma initial_prices
                     T time_step (Z.of_nat num_paths) seed g
  = (Ok (fst st), snd st).
Proof.
  intros Hdim Hinit HT Hdt Hnp Hr Hq dimension n_steps st.
  unfold Multi.simulate_gbm_multi.
  destruct (Z.leb_spec (Z.of_nat dimension) 0); [unfold dimension in *; lia |].
  fold dimension. rewrite Z.eqb_refl. rewrite Hinit. fold dimension.
  rewrite Z.eqb_refl. simpl orb. cbv iota.
  rewrite !Rleb_false by lra. simpl orb. cbv iota.
  destruct (Z.leb_spec (Z.of_nat num_paths) 0); [lia |].
  rewrite Rltb_false by lra.
  replace (match dividend_rates with
           | Multi.DivScalar _ => false
           | Multi.DivArray qs =>
             negb (Z.of_nat (length qs) =? Z.of_nat dimension)%Z
           end) with false.
  2:{ destruct dividend_rates as [q | qs]; [reflexivity |].
      rewrite Hq. fold dimension. now rewrite Z.eqb_refl. }
  rewrite !Nat2Z.id. fold n_steps. fold st.
  destruct st as [paths g']. reflexivity.
Qed.

(** The arguments the multi-asset validation does reject. *)
Lemma multi_simulator_rejects (dimension : Z) (r : R)
      (dividend_rates : Multi.dividend) (sigma initial_prices : list R)
      (T time_step : R) (num_paths : Z) (seed : option Z) (g : rng) :
  (dimension <= 0)%Z
  \/ Z.of_nat (length sigma) <> dimension
  \/ Z.of_nat (length initial_prices) <> dimension
  \/ T <= 0 \/ time_step <= 0 \/ (num_paths <= 0)%Z ->
  exists msg,
    simulate_gbm_multi dimension r dividend_rates sigma initial_prices
                       T time_step num_paths seed g
    = (Raise (ValueError msg), g).
Proof.
  intros H. unfold Multi.simulate_gbm_multi.
  destruct (Z.leb_spec dimension 0) as [? | Hdim]; [eexists; reflexivity |].
  destruct (Z.eqb_spec (Z.of_nat (length sigma)) dimension) as [Hs | ?];
    [| eexists; reflexivity].
  destruct (Z.eqb_spec (Z.of_nat (length initial_prices)) dimension) as [Hi | ?];
    [| eexists; reflexivity].
  simpl orb. cbv iota. unfold Rleb.
  destruct (Rle_dec T 0) as [? | HT]; [eexists; reflexivity |].
  destruct (Rle_dec time_step 0) as [? | Hdt]; [eexists; reflexivity |].
  simpl orb. cbv iota.
  destruct (Z.leb_spec num_paths 0) as [? | Hnp]; [eexists; reflexivity |].
  destruct H as [H | [H | [H | [H | [H | H]]]]]; try lia; try lra; contradiction.
Qed.

End MultiSimulatorRun.

Section MultiSimulatorSpec.

Variable rng : Type.
Variable np_random_seed : Z -> rng.
Variable np_random_randn : nat -> nat -> rng -> (nat -> nat -> R) * rng.
Variable float32 : R -> R.

Local Abbreviation simulate_gbm_multi :=
  (Multi.simulate_gbm_multi rng np_random_seed np_random_randn float32).
Local Abbreviation draw := (Multi.draw rng np_random_randn).
Local Abbreviation seeded seed g :=
  (match seed with
   | Some s => if Multi.truthy seed then np_random_seed s else g
   | None => g
   end).

(** What the multi-asset simulator returns on valid arguments: the shape,
    the first slice, and the step from each slice to the next. *)
Lemma multi_simulate_spec (r : R) (dividend_rates : Multi.dividend)
      (sigma initial_prices : list R) (T time_step : R) (num_paths : nat)
      (seed : option Z) (g : rng) :
  (1 <= length sigma)%nat -> length initial_prices = length sigma ->
  0 < T -> 0 < time_step -> (1 <= num_paths)%nat -> 0 <= r ->
  match dividend_rates with
  | Multi.DivArray qs => length qs = length sigma
  | Multi.DivScalar _ => True
  end ->
  let dimension := length sigma in
  let n_steps := Z.to_nat (py_int (T / time_step)) in
  exists paths g',
    simulate_gbm_multi (Z.of_nat dimension) r dividend_rates sigma
                       initial_prices T time_step (Z.of_nat num_paths) seed g
    = (Ok paths, g')
    /\ dim0 paths = num_paths /\ dim1 paths = dimension
    /\ dim2 paths = (n_steps + 1)%nat
    /\ (forall p d, item3 paths p d 0 = float32 (nth d initial_prices 0))
    /\ (forall p d s,
           (1 <= s <= n_steps)%nat -> (d < dimension)%nat ->
           item3 paths p d s
           = float32
               (item3 paths p d (s - 1)
                * exp ((r - Multi.dividend_at dividend_rates d
                        - 0.5 * nth d sigma 0 ^ 2) * time_step
                       + nth d sigma 0 * sqrt time_step
                         * float32 (fst (draw num_paths dimension
                                              (seeded seed g) (s - 1)) p d)))).
Proof.
  intros Hdim Hinit HT Hdt Hnp Hr Hq dimension n_steps.
  subst dimension n_steps.
  pose proof (multi_simulate_valid rng np_random_seed np_random_randn float32
                r dividend_rates sigma initial_prices T time_step num_paths
                seed g Hdim Hinit HT Hdt Hnp Hr Hq) as E.
  cbv zeta in E. rewrite E. clear E.
  match goal with
  | |- context [fold_left ?f (seq 1 ?n) (?P, ?G)] =>
    destruct (multi_loop_spec rng np_random_randn float32 num_paths
                (length sigma)
                (Multi.drift_terms r (Multi.full (length sigma) dividend_rates)
                                   sigma time_step)
                (Multi.diffusion_terms sigma (sqrt time_step))
                n 1%nat P G (le_n 1))
      as [H0 [H1 [H2 [Hold Hnew]]]];
    set (st := fold_left f (seq 1 n) (P, G)) in *
  end.
  exists (fst st), (snd st). split; [reflexivity |].
  split; [exact H0 |]. split; [exact H1 |]. split; [exact H2 |]. split.
  - intros p d. rewrite Hold by lia. reflexivity.
  - intros p d s Hs Hd. rewrite Hnew by lia.
    rewrite drift_terms_nth, diffusion_terms_nth by assumption.
    reflexivity.
Qed.

Lemma multi_seed_zero_is_unseeded (dimension : Z) (r : R)
      (dividend_rates : Multi.dividend) (sigma initial_prices : list R)
      (T time_step : R) (num_paths : Z) (g : rng) :
  simulate_gbm_multi dimension r dividend_rates sigma initial_prices
                     T time_step num_paths (Some 0%Z) g
  = simulate_gbm_multi dimension r dividend_rates sigma initial_prices
                       T time_step num_paths None g.
Proof. reflexivity. Qed.

Lemma multi_nonzero_seed_deterministic (dimension : Z) (r : R)
      (dividend_rates : Multi.dividend) (sigma initial_prices : list R)
      (T time_step : R) (num_paths : Z) (s : Z) (g1 g2 : rng) :
  s <> 0%Z ->
  fst (simulate_gbm_multi dimension r dividend_rates sigma initial_prices
                          T time_step num_paths (Some s) g1)
  = fst (simulate_gbm_multi dimension r dividend_rates sigma initial_prices
                            T time_step num_paths (Some s) g2).
Proof.
  intros Hs. unfold Multi.simulate_gbm_multi, Multi.truthy.
  destruct (Z.eqb_spec s 0); [contradiction |]. simpl negb. cbv iota.
  repeat match goal with
         | |- context [if ?c then _ else _] => destruct c; [reflexivity |]
         end.
  reflexivity.
Qed.

End MultiSimulatorSpec.

Section SingleSimulatorSeed.

Variable rng : Type.
Variable np_random_seed : Z -> rng.
Variable np_random_standard_normal :
  nat -> nat -> rng -> (nat -> nat -> R) * rng.

(** With a seed — 0 included — the single-asset simulator does not read
    the generator it is called with. *)
Lemma single_seed_deterministic (S0 r dividend sigma T : R) (M I : pyval)
      (s : Z) (g1 g2 : rng) :
  fst (Single.simulate_gbm rng np_random_seed np_random_standard_normal
                           S0 r dividend sigma T M I (Some s) g1)
  = fst (Single.simulate_gbm rng np_random_seed np_random_standard_normal
                             S0 r dividend sigma T M I (Some s) g2).
Proof.
  unfold Single.simulate_gbm.
  repeat match goal with
         | |- context [if ?c then _ else _] => destruct c; [reflexivity |]
         end.
  reflexivity.
Qed.

End SingleSimulatorSeed.

Lemma py_int_one : py_int (1 / 1) = 1%Z.
Proof. apply py_int_spec; simpl; lra. Qed.

(** C2 (the code departs from the claim).  Two calls of the multi-asset
    simulator with identical arguments and seed 0, the first with the
    global generator in one state and the second with it in another (here a
    counter at 0 and at 1), return different matrices: [seed] being false
    for 0, [np.random.seed] is not called and the draw comes from the
    generator as it was. *)
Theorem seed_zero_reads_ambient_generator :
  exists paths0 paths1,
    fst (Multi.simulate_gbm_multi counter_rng counter_seed counter_normal
           exact_store 1 0 (Multi.DivScalar 0) [1] [1] 1 1 1 (Some 0%Z) 0%Z)
    = Ok paths0
    /\ fst (Multi.simulate_gbm_multi counter_rng counter_seed counter_normal
              exact_store 1 0 (Multi.DivScalar 0) [1] [1] 1 1 1 (Some 0%Z) 1%Z)
       = Ok paths1
    /\ item3 paths0 0 0 1 <> item3 paths1 0 0 1.
Proof.
  assert (run : forall g : counter_rng,
             exists paths,
               fst (Multi.simulate_gbm_multi counter_rng counter_seed
                      counter_normal exact_store 1 0 (Multi.DivScalar 0)
                      [1] [1] 1 1 1 (Some 0%Z) g) = Ok paths
               /\ item3 paths 0 0 1 = 1 * exp ((0 - 0 - 0.5 * 1 ^ 2) * 1 + 1 * 1 * IZR g)).
  { intros g.
    destruct (multi_simulate_spec counter_rng counter_seed counter_normal
                exact_store 0 (Multi.DivScalar 0) [1] [1] 1 1 1 (Some 0%Z) g)
      as [paths [g' [E [_ [_ [_ [H0 Hstep]]]]]]];
      simpl; try lia; try lra; auto.
    exists paths. split.
    - change (Z.of_nat (length [1])) with 1%Z in E.
      change (Z.of_nat 1) with 1%Z in E. now rewrite E.
    - rewrite (Hstep 0%nat 0%nat 1%nat).
      + cbn [Nat.sub]. rewrite (H0 0%nat 0%nat). simpl. unfold exact_store.
        rewrite sqrt_1. reflexivity.
      + rewrite py_int_one. simpl. lia.
      + simpl. lia. }
  destruct (run 0%Z) as [paths0 [E0 V0]].
  destruct (run 1%Z) as [paths1 [E1 V1]].
  exists paths0, paths1. split; [exact E0 |]. split; [exact E1 |].
  rewrite V0, V1. intros H.
  apply Rmult_eq_reg_l in H; [| lra].
  apply exp_inv in H. lra.
Qed.

(** C4 (the code departs from the claim).  The multi-asset simulator
    accepts a negative initial price together with a negative volatility:
    it raises nothing and returns a matrix whose first slice holds the
    negative price.  Its validation tests the shapes of [sigma] and
    [initial_prices], never their signs. *)
Theorem multi_simulator_accepts_negative_price_and_volatility
        (rng : Type) (np_random_seed : Z -> rng)
        (np_random_randn : nat -> nat -> rng -> (nat -> nat -> R) * rng)
        (float32 : R -> R) (g : rng) :
  exists paths,
    fst (Multi.simulate_gbm_multi rng np_random_seed np_random_randn float32
           1 0.05 (Multi.DivScalar 0.1) [-0.2] [-100] 3 (1 / 3) 1
           (Some 42%Z) g)
    = Ok paths
    /\ item3 paths 0 0 0 = float32 (-100).
Proof.
  destruct (multi_simulate_spec rng np_random_seed np_random_randn float32
              0.05 (Multi.DivScalar 0.1) [-0.2] [-100] 3 (1 / 3) 1
              (Some 42%Z) g)
    as [paths [g' [E [_ [_ [_ [H0 _]]]]]]];
    simpl; try lia; try lra; auto.
  exists paths. split.
  - change (Z.of_nat (length [-0.2])) with 1%Z in E.
    change (Z.of_nat 1) with 1%Z in E. now rewrite E.
  - apply (H0 0%nat 0%nat).
Qed.

(** ** Invariants of the simulated matrices *)

Section SinglePaths.

Variable rng : Type.
Variable np_random_seed : Z -> rng.
Variable np_random_standard_normal :
  nat -> nat -> rng -> (nat -> nat -> R) * rng.

Lemma single_paths_invariant (S0 r dividend sigma T : R) (M I : pyval)
      (seed : option Z) (g : rng) (paths : ndarray2) :
  fst (Single.simulate_gbm rng np_random_seed np_random_standard_normal
                           S0 r dividend sigma T M I seed g) = Ok paths ->
  exists m n,
    M = PyInt (Z.of_nat m) /\ I = PyInt (Z.of_nat n)
    /\ (1 <= m)%nat /\ (1 <= n)%nat
    /\ Single.gbm_invariant
         S0 r dividend sigma T m n
         (fst (np_random_standard_normal m n
                 match seed with Some s => np_random_seed s | None => g end))
         paths.
Proof.
  intros H.
  destruct (single_validation _ _ _ _ _ _ _ _ _ _ _ _ _ H)
    as [HS0 [HT [Hs [m [n [-> [-> [Hm Hn]]]]]]]].
  exists m, n.
  pose proof (single_simulate_valid rng np_random_seed
                np_random_standard_normal S0 r dividend sigma T m n seed g
                HS0 HT Hs Hm Hn) as E.
  cbv zeta in E. rewrite E in H. simpl fst in H. injection H as <-.
  match goal with
  | |- context [fold_left (Single.gbm_step ?dr ?vo ?ra) (seq 1 m) ?P] =>
    destruct (single_loop_spec dr vo ra m 1%nat P (le_n 1))
      as [H0 [H1 [Hold Hnew]]];
    set (paths := fold_left (Single.gbm_step dr vo ra) (seq 1 m) P) in *
  end.
  simpl in H0, H1.
  assert (Hfirst : forall i, (i < n)%nat -> item2 paths 0 i = S0).
  { intros i Hi. rewrite Hold by (simpl; lia). simpl.
    now rewrite nth_repeat_lt. }
  assert (Hstep : forall t i, (1 <= t <= m)%nat -> (i < n)%nat ->
              item2 paths t i
              = item2 paths (t - 1) i
                * exp ((r - dividend - 0.5 * sigma ^ 2) * (T / INR m)
                       + sigma * sqrt (T / INR m)
                         * fst (np_random_standard_normal m n
                                  match seed with
                                  | Some s => np_random_seed s
                                  | None => g
                                  end) (t - 1)%nat i)).
  { intros t i Ht Hi. apply Hnew; simpl; lia. }
  unfold Single.gbm_invariant. repeat split; auto.
  intros t. induction t as [|t IHt]; intros i Ht Hi.
  - rewrite Hfirst by assumption. lra.
  - rewrite Hstep by lia. replace (S t - 1)%nat with t by lia.
    apply Rmult_le_pos; [apply IHt; lia | left; apply exp_pos].
Qed.

End SinglePaths.

Section MultiPaths.

Variable rng : Type.
Variable np_random_seed : Z -> rng.
Variable np_random_randn : nat -> nat -> rng -> (nat -> nat -> R) * rng.
Variable float32 : R -> R.

Lemma multi_paths_invariant (dimension : Z) (r : R)
      (dividend_rates : Multi.dividend) (sigma initial_prices : list R)
      (T time_step : R) (num_paths : Z) (seed : option Z) (g : rng)
      (paths : ndarray3) :
  fst (Multi.simulate_gbm_multi rng np_random_seed np_random_randn float32
         dimension r dividend_rates sigma initial_prices T time_step
         num_paths seed g) = Ok paths ->
  Multi.gbm_invariant
    float32 r dividend_rates sigma initial_prices time_step
    (Z.to_nat num_paths) (Z.to_nat dimension)
    (Z.to_nat (py_int (T / time_step)))
    (fun k => fst (Multi.draw rng np_random_randn (Z.to_nat num_paths)
                              (Z.to_nat dimension)
                              match seed with
                              | Some s =>
                                if Multi.truthy seed then np_random_seed s else g
                              | None => g
                              end k))
    paths.
Proof.
  intros H. unfold Multi.gbm_invariant.
  set (n_steps := Z.to_nat (py_int (T / time_step))).
  set (g1 := match seed with
             | Some s => if Multi.truthy seed then np_random_seed s else g
             | None => g
             end).
  destruct (multi_validation _ _ _ _ _ _ _ _ _ _ _ _ _ _ _ H)
    as [Hdim [Hs [Hi [HT [Hdt [Hnp [Hr Hq]]]]]]].
  destruct (multi_simulate_spec rng np_random_seed np_random_randn float32
              r dividend_rates sigma initial_prices T time_step
              (Z.to_nat num_paths) seed g)
    as [paths' [g' [E [H0 [H1 [H2 [Hfirst Hstep]]]]]]]; try lia; try lra; auto.
  rewrite Z2Nat.id, Hs in E by lia. rewrite E in H. simpl in H.
  injection H as <-.
  assert (Hd : length sigma = Z.to_nat dimension) by lia.
  rewrite <- Hd. fold n_steps in H2, Hstep. fold g1 in Hstep.
  repeat split; auto.
  intros Hsign Hpos p d s. induction s as [|s IHs]; intros Hs' Hdd.
  - rewrite Hfirst. apply Hsign, Hpos.
  - rewrite Hstep by lia. apply Hsign.
    replace (S s - 1)%nat with s by lia.
    apply Rmult_le_pos; [apply IHs; lia | left; apply exp_pos].
Qed.

End MultiPaths.

Lemma py_int_five_halves : py_int (1 / (2 / 5)) = 2%Z.
Proof. apply py_int_spec; simpl; lra. Qed.

(** C9, as stated, fails on the multi-asset simulator.  With maturity 1
    and [time_step = 2/5] it returns [int(1 / (2/5)) = 2] steps, so
    [M = 2] and [maturity / M = 1/2]; but with zero volatility, rate 1 and
    no dividend the entry at date 1 is the entry at date 0 times
    [exp(2/5)]: the dates are [time_step] apart, not [maturity / M]. *)
Lemma multi_dates_are_time_step_apart :
  exists paths,
    fst (Multi.simulate_gbm_multi counter_rng counter_seed counter_normal
           exact_store 1 1 (Multi.DivScalar 0) [0] [1] 1 (2 / 5) 1
           (Some 7%Z) 0%Z)
    = Ok paths
    /\ dim2 paths = (2 + 1)%nat
    /\ forall z,
        item3 paths 0 0 1
        <> item3 paths 0 0 0
           * exp ((1 - 0 - 0.5 * 0 ^ 2) * (1 / INR 2)
                  + 0 * sqrt (1 / INR 2) * z).
Proof.
  destruct (multi_simulate_spec counter_rng counter_seed counter_normal
              exact_store 1 (Multi.DivScalar 0) [0] [1] 1 (2 / 5) 1
              (Some 7%Z) 0%Z)
    as [paths [g' [E [_ [_ [H2 [H0 Hstep]]]]]]];
    simpl; try lia; try lra; auto.
  rewrite py_int_five_halves in H2, Hstep.
  exists paths. split; [| split].
  - change (Z.of_nat (length [0])) with 1%Z in E.
    change (Z.of_nat 1) with 1%Z in E. now rewrite E.
  - exact H2.
  - intros z. rewrite (Hstep 0%nat 0%nat 1%nat) by (simpl; lia).
    cbn [Nat.sub]. rewrite (H0 0%nat 0%nat). simpl nth. unfold exact_store.
    intros H. apply Rmult_eq_reg_l in H; [| lra].
    apply exp_inv in H. simpl in H. lra.
Qed.

(** C9, amended.  Every matrix the single-asset simulator returns has
    [M + 1] dates, entries that are not negative, the initial price at date
    0 for every path, and each date one step of [dt = T / M] from the date
    before.  Every matrix the multi-asset simulator returns has
    [int(time_horizon / time_step) + 1] dates, the stored initial price of
    each asset at date 0 for every path, and each date one stored step of
    the caller's [time_step] from the date before; its entries are
    non-negative when the initial prices are and the [float32] store keeps
    the sign. *)
Theorem simulated_paths_invariant
        (rng : Type) (np_random_seed : Z -> rng)
        (np_random_standard_normal np_random_randn :
           nat -> nat -> rng -> (nat -> nat -> R) * rng)
        (float32 : R -> R)
        (S0 r dividend sigma T : R) (M I : pyval) (seed : option Z) (g : rng)
        (paths : ndarray2)
        (dimension : Z) (risk_free_rate : R) (dividend_rates : Multi.dividend)
        (sigmas initial_prices : list R) (time_horizon time_step : R)
        (num_paths : Z) (seed' : option Z) (g' : rng) (paths' : ndarray3) :
  fst (Single.simulate_gbm rng np_random_seed np_random_standard_normal
                           S0 r dividend sigma T M I seed g) = Ok paths ->
  fst (Multi.simulate_gbm_multi rng np_random_seed np_random_randn float32
         dimension risk_free_rate dividend_rates sigmas initial_prices
         time_horizon time_step num_paths seed' g') = Ok paths' ->
  (exists m n,
      M = PyInt (Z.of_nat m) /\ I = PyInt (Z.of_nat n)
      /\ (1 <= m)%nat /\ (1 <= n)%nat
      /\ Single.gbm_invariant
           S0 r dividend sigma T m n
           (fst (np_random_standard_normal m n
                   match seed with Some s => np_random_seed s | None => g end))
           paths)
  /\ Multi.gbm_invariant
       float32 risk_free_rate dividend_rates sigmas initial_prices time_step
       (Z.to_nat num_paths) (Z.to_nat dimension)
       (Z.to_nat (py_int (time_horizon / time_step)))
       (fun k => fst (Multi.draw rng np_random_randn (Z.to_nat num_paths)
                                 (Z.to_nat dimension)
                                 match seed' with
                                 | Some s =>
                                   if Multi.truthy seed' then np_random_seed s
                                   else g'
                                 | None => g'
                                 end k))
       paths'.
Proof.
  intros Hsingle Hmulti. split.
  - exact (single_paths_invariant rng np_random_seed np_random_standard_normal
             S0 r dividend sigma T M I seed g paths Hsingle).
  - exact (multi_paths_invariant rng np_random_seed np_random_randn float32
             dimension risk_free_rate dividend_rates sigmas initial_prices
             time_horizon time_step num_paths seed' g' paths' Hmulti).
Qed.

Lemma simulated_paths_invariant_witness :
  exists paths paths',
    fst (Single.simulate_gbm counter_rng counter_seed counter_normal
           100 0.05 0.1 0.2 3 (PyInt 2) (PyInt 1) (Some 42%Z) 0%Z) = Ok paths
    /\ fst (Multi.simulate_gbm_multi counter_rng counter_seed counter_normal
              exact_store 1 0.05 (Multi.DivScalar 0.1) [0.2] [100] 3 1 1
              (Some 42%Z) 0%Z) = Ok paths'
    /\ (exists m n,
           PyInt 2 = PyInt (Z.of_nat m) /\ PyInt 1 = PyInt (Z.of_nat n)
           /\ (1 <= m)%nat /\ (1 <= n)%nat
           /\ Single.gbm_invariant
                100 0.05 0.1 0.2 3 m n
                (fst (counter_normal m n (counter_seed 42))) paths)
    /\ Multi.gbm_invariant
         exact_store 0.05 (Multi.DivScalar 0.1) [0.2] [100] 1
         (Z.to_nat 1) (Z.to_nat 1) (Z.to_nat (py_int (3 / 1)))
         (fun k => fst (Multi.draw counter_rng counter_normal (Z.to_nat 1)
                                   (Z.to_nat 1)
                                   (if Multi.truthy (Some 42%Z)
                                    then counter_seed 42 else 0%Z) k))
         paths'.
Proof.
  assert (H1 : exists paths,
             fst (Single.simulate_gbm counter_rng counter_seed counter_normal
                    100 0.05 0.1 0.2 3 (PyInt 2) (PyInt 1) (Some 42%Z) 0%Z)
             = Ok paths).
  { pose proof (single_simulate_valid counter_rng counter_seed counter_normal
                  100 0.05 0.1 0.2 3 2 1 (Some 42%Z) 0%Z) as E.
    cbv zeta in E. change (Z.of_nat 2) with 2%Z in E.
    change (Z.of_nat 1) with 1%Z in E.
    rewrite E; [eexists; reflexivity | lra | lra | lra | lia | lia]. }
  assert (H2 : exists paths',
             fst (Multi.simulate_gbm_multi counter_rng counter_seed
                    counter_normal exact_store 1 0.05 (Multi.DivScalar 0.1)
                    [0.2] [100] 3 1 1 (Some 42%Z) 0%Z) = Ok paths').
  { destruct (multi_simulate_spec counter_rng counter_seed counter_normal
                exact_store 0.05 (Multi.DivScalar 0.1) [0.2] [100] 3 1 1
                (Some 42%Z) 0%Z)
      as [paths' [g' [E _]]]; simpl; try lia; try lra; auto.
    exists paths'.
    change (Z.of_nat (length [0.2])) with 1%Z in E.
    change (Z.of_nat 1) with 1%Z in E. now rewrite E. }
  destruct H1 as [paths H1]. destruct H2 as [paths' H2].
  exists paths, paths'. split; [exact H1 |]. split; [exact H2 |].
  exact (simulated_paths_invariant counter_rng counter_seed counter_normal
           counter_normal exact_store
           100 0.05 0.1 0.2 3 (PyInt 2) (PyInt 1) (Some 42%Z) 0%Z paths
           1 0.05 (Multi.DivScalar 0.1) [0.2] [100] 3 1 1 (Some 42%Z) 0%Z paths'
           H1 H2).
Defined.

(** ** Zero volatility *)

Lemma map_seq_const (f : nat -> R) (c : R) (n : nat) :
  (forall i, (i < n)%nat -> f i = c) -> map f (seq 0 n) = repeat c n.
Proof.
  intros H. apply (nth_ext _ _ 0 0).
  - now rewrite length_map, length_seq, repeat_length.
  - intros i Hi. rewrite length_map, length_seq in Hi.
    rewrite nth_map_seq, nth_repeat_lt by assumption. now apply H.
Qed.

(** With [sigma = 0] every path follows the deterministic curve
    [S0 * exp((r - q) * dt * t)]. *)
Lemma zero_volatility_rows (S0 r dividend T : R) (m n : nat)
      (rand : nat -> nat -> R) (paths : ndarray2) :
  Single.gbm_invariant S0 r dividend 0 T m n rand paths ->
  forall t, (t <= m)%nat ->
            row paths t
            = repeat (S0 * exp ((r - dividend) * (T / INR m) * INR t)) n.
Proof.
  intros [H0 [H1 [Hfirst [_ Hstep]]]] t Ht.
  unfold row. rewrite H1. apply map_seq_const. intros i Hi.
  induction t as [|t IHt].
  - rewrite Hfirst by assumption. simpl INR. rewrite Rmult_0_r, exp_0. lra.
  - rewrite Hstep by lia. replace (S t - 1)%nat with t by lia.
    rewrite IHt by lia. rewrite Rmult_assoc, <- exp_plus. f_equal. f_equal.
    rewrite S_INR. lra.
Qed.

Lemma np_mean_repeat (v : R) (n : nat) :
  (1 <= n)%nat -> np_mean (repeat v n) = v.
Proof.
  intros Hn. unfold np_mean. rewrite repeat_length.
  assert (Hs : np_sum (repeat v n) = INR n * v).
  { clear Hn. induction n as [|n IH]; [simpl; lra |].
    change (np_sum (repeat v (S n))) with (v + np_sum (repeat v n)).
    rewrite IH, S_INR. lra. }
  rewrite Hs. field. apply not_0_INR. lia.
Qed.

Lemma call_payoff_repeat (K x : R) (n : nat) :
  call_payoff K (repeat x n) = repeat (Rmax (x - K) 0) n.
Proof. unfold call_payoff. induction n as [|n IH]; simpl; [| rewrite IH]; reflexivity. Qed.

Lemma select_repeat {A : Type} (a : A) (b : bool) (n : nat) :
  select (repeat a n) (repeat b n) = if b then repeat a n else [].
Proof.
  induction n as [|n IH]; simpl; [now destruct b |].
  rewrite IH. now destruct b.
Qed.

Lemma map_repeat_R (f : R -> R) (x : R) (n : nat) :
  map f (repeat x n) = repeat (f x) n.
Proof. induction n as [|n IH]; simpl; [| rewrite IH]; reflexivity. Qed.

Lemma map_repeat_bool (f : R -> bool) (x : R) (n : nat) :
  map f (repeat x n) = repeat (f x) n.
Proof. induction n as [|n IH]; simpl; [| rewrite IH]; reflexivity. Qed.

Lemma map2_repeat (e c : R) (n : nat) :
  map2 Rgtb (repeat e n) (repeat c n) = repeat (Rgtb e c) n.
Proof. induction n as [|n IH]; simpl; [| rewrite IH]; reflexivity. Qed.

Lemma np_where_repeat_false (e v : R) (n : nat) :
  np_where (repeat false n) (repeat e n) (repeat v n) = repeat v n.
Proof. induction n as [|n IH]; simpl; [| rewrite IH]; reflexivity. Qed.

(** A constant continuation value that is not below the payoff keeps the
    value vector. *)
Lemma exercise_update_hold (K c x v : R) (n : nat) :
  Rmax (x - K) 0 <= c ->
  Single.exercise_update K [c] (repeat x n) (repeat v n) = repeat v n.
Proof.
  intros H. unfold Single.exercise_update.
  rewrite call_payoff_repeat, map_repeat_R, map2_repeat.
  unfold np_polyval. simpl fold_left.
  rewrite Rgtb_false by lra. apply np_where_repeat_false.
Qed.

Section ZeroVolatilityEngine.

Variable np_polyfit : list R -> list R -> nat -> list R.
(** In exact arithmetic the least-squares constant is the mean. *)
Hypothesis np_polyfit_degree_0 :
  forall X Y, X <> [] -> np_polyfit X Y 0 = [np_mean Y].

Lemma train_step_hold (S : ndarray2) (K discount x v : R) (n t : nat)
      (cs : coeff_series) :
  (1 <= n)%nat -> row S t = repeat x n ->
  Rmax (x - K) 0 <= v * discount ->
  exists e,
    Single.train_step np_polyfit S K discount 0 (repeat v n, cs) t
    = (repeat v n, cs ++ [e])
    /\ held_entry (v * discount) e.
Proof.
  intros Hn Hrow Hle.
  destruct (single_train_step_cases np_polyfit S K discount 0
              (repeat v n) cs t) as [[_ E] | [N E]].
  - exists None. split; [exact E | now left].
  - exists (Some [v * discount]). split; [| now right].
    rewrite E. cbv zeta. rewrite Hrow in *.
    rewrite map_repeat_bool, !select_repeat in *.
    destruct (Rgtb x K); [| contradiction].
    rewrite np_polyfit_degree_0
      by (destruct n; [lia | discriminate]).
    rewrite map_repeat_R, np_mean_repeat by assumption.
    now rewrite exercise_update_hold.
Qed.

Lemma train_loop_hold (S : ndarray2) (K discount v : R) (n : nat)
      (s : nat -> R) (dates : list nat) :
  (1 <= n)%nat ->
  (forall t, In t dates -> row S t = repeat (s t) n) ->
  (forall t, In t dates -> Rmax (s t - K) 0 <= v * discount) ->
  forall cs, exists cs',
      fold_left (Single.train_step np_polyfit S K discount 0) dates
                (repeat v n, cs)
      = (repeat v n, cs ++ cs')
      /\ Forall (held_entry (v * discount)) cs'
      /\ length cs' = length dates.
Proof.
  intros Hn. induction dates as [|t dates IH]; intros Hrow Hle cs.
  - exists []. simpl. rewrite app_nil_r. auto.
  - destruct (train_step_hold S K discount (s t) v n t cs Hn
                (Hrow t (or_introl eq_refl)) (Hle t (or_introl eq_refl)))
      as [e [E He]].
    destruct (IH (fun t' H => Hrow t' (or_intror H))
                 (fun t' H => Hle t' (or_intror H)) (cs ++ [e]))
      as [cs' [E' [Hcs' Hlen]]].
    exists (e :: cs'). cbn [fold_left]. rewrite E, E', <- app_assoc.
    split; [reflexivity |]. split; [now constructor | simpl; lia].
Qed.

Lemma test_loop_hold (S : ndarray2) (K c v : R) (n : nat)
      (s : nat -> R) (coefficients : coeff_series) (dates : list nat) :
  (forall t, In t dates -> row S t = repeat (s t) n) ->
  (forall t, In t dates -> Rmax (s t - K) 0 <= c) ->
  Forall (held_entry c) coefficients ->
  fold_left (Single.test_step S K coefficients) dates (repeat v n)
  = repeat v n.
Proof.
  intros Hrow Hle Hc. induction dates as [|t dates IH]; [reflexivity |].
  cbn [fold_left].
  assert (E : Single.test_step S K coefficients (repeat v n) t = repeat v n).
  { unfold Single.test_step.
    destruct (nth_in_or_default (t - 1) coefficients None) as [Hin | ->];
      [| reflexivity].
    rewrite Forall_forall in Hc. destruct (Hc _ Hin) as [-> | ->];
      [reflexivity |].
    rewrite (Hrow t) by now left.
    apply exercise_update_hold. apply Hle. now left. }
  rewrite E. apply IH.
  - intros t' H. apply Hrow. now right.
  - intros t' H. apply Hle. now right.
Qed.

End ZeroVolatilityEngine.

Section ZeroVolatilityPrice.

Variable rng : Type.
Variable np_random_seed : Z -> rng.
Variable np_random_standard_normal :
  nat -> nat -> rng -> (nat -> nat -> R) * rng.
Variable np_polyfit : list R -> list R -> nat -> list R.
Hypothesis np_polyfit_degree_0 :
  forall X Y, X <> [] -> np_polyfit X Y 0 = [np_mean Y].

Local Abbreviation simulate_gbm :=
  (Single.simulate_gbm rng np_random_seed np_random_standard_normal).
Local Abbreviation price :=
  (Single.price rng np_random_seed np_random_standard_normal np_polyfit).

Lemma price_valid (S0 r dividend sigma K : R) (degree : Z) (T : R)
      (M I_train : pyval) (seed_train : option Z)
      (I_test : pyval) (seed_test : option Z) (g g1 g2 : rng)
      (trained_s tested_s : ndarray2) (coeffs : coeff_series) :
  simulate_gbm S0 r dividend sigma T M I_train seed_train g
  = (Ok trained_s, g1) ->
  Single.longstaff_schwartz_train np_polyfit trained_s K r T degree
  = Ok coeffs ->
  simulate_gbm S0 r dividend sigma T M I_test seed_test g1
  = (Ok tested_s, g2) ->
  price S0 r dividend sigma K degree T M I_train seed_train I_test seed_test g
  = (Single.longstaff_schwartz_test tested_s K r T coeffs, g2).
Proof.
  intros E1 E2 E3. unfold Single.price. now rewrite E1, E2, E3.
Qed.

Lemma zero_volatility_simulate (S0 r dividend T : R) (m n : nat)
      (seed : option Z) (g : rng) :
  0 < S0 -> 0 < T -> (1 <= m)%nat -> (1 <= n)%nat ->
  exists paths g1,
    simulate_gbm S0 r dividend 0 T (PyInt (Z.of_nat m)) (PyInt (Z.of_nat n))
                 seed g
    = (Ok paths, g1)
    /\ shape0 paths = (m + 1)%nat
    /\ forall t, (t <= m)%nat ->
                 row paths t
                 = repeat (S0 * exp ((r - dividend) * (T / INR m) * INR t)) n.
Proof.
  intros HS0 HT Hm Hn.
  pose proof (single_simulate_valid rng np_random_seed
                np_random_standard_normal S0 r dividend 0 T m n seed g
                HS0 HT (Rle_refl 0) Hm Hn) as E.
  cbv zeta in E.
  match type of E with
  | _ = (Ok ?P, ?G) => exists P, G; set (paths := P) in *
  end.
  split; [exact E |].
  assert (H : fst (simulate_gbm S0 r dividend 0 T (PyInt (Z.of_nat m))
                                (PyInt (Z.of_nat n)) seed g) = Ok paths)
    by now rewrite E.
  destruct (single_paths_invariant _ _ _ _ _ _ _ _ _ _ _ _ _ H)
    as [m' [n' [Em [En [_ [_ Hinv]]]]]].
  injection Em as Em. injection En as En.
  apply Nat2Z.inj in Em. apply Nat2Z.inj in En. subst m' n'.
  split; [apply Hinv |].
  exact (zero_volatility_rows S0 r dividend T m n _ paths Hinv).
Qed.

Lemma zero_volatility_train (S : ndarray2) (K r T v : R) (m n : nat)
      (s : nat -> R) :
  shape0 S = (m + 1)%nat -> (1 <= m)%nat -> (1 <= n)%nat ->
  0 < K -> 0 < T ->
  (forall t, (t <= m)%nat -> row S t = repeat (s t) n) ->
  v = Rmax (s m - K) 0 ->
  (forall t, (1 <= t <= m - 1)%nat ->
             Rmax (s t - K) 0 <= v * discount_factor r (T / INR m)) ->
  exists coeffs,
    Single.longstaff_schwartz_train np_polyfit S K r T 0 = Ok coeffs
    /\ length coeffs = (m - 1)%nat
    /\ Forall (held_entry (v * discount_factor r (T / INR m))) coeffs.
Proof.
  intros HS Hm Hn HK HT Hrow Hv Hle.
  unfold Single.longstaff_schwartz_train.
  rewrite (single_train_run_valid np_polyfit S K r T 0 m)
    by (assumption || lia).
  rewrite (Hrow m) by lia. rewrite call_payoff_repeat, <- Hv.
  change (Z.to_nat 0) with 0%nat.
  destruct (train_loop_hold np_polyfit np_polyfit_degree_0 S K
              (discount_factor r (T / INR m)) v n s (rev (seq 1 (m - 1))) Hn)
    with (cs := @nil (option (list R))) as [cs' [E [Hheld Hlen]]].
  - intros t Ht. apply in_rev, in_seq in Ht. apply Hrow. lia.
  - intros t Ht. apply in_rev, in_seq in Ht. apply Hle. lia.
  - rewrite E. exists (rev cs'). split; [reflexivity |]. split.
    + now rewrite length_rev, Hlen, length_rev, length_seq.
    + now apply Forall_rev.
Qed.

Lemma zero_volatility_test (S : ndarray2) (K r T v c : R) (m n : nat)
      (s : nat -> R) (coeffs : coeff_series) :
  shape0 S = (m + 1)%nat -> (1 <= m)%nat -> (1 <= n)%nat ->
  (forall t, (t <= m)%nat -> row S t = repeat (s t) n) ->
  v = Rmax (s m - K) 0 ->
  (forall t, (1 <= t <= m - 1)%nat -> Rmax (s t - K) 0 <= c) ->
  length coeffs = (m - 1)%nat -> Forall (held_entry c) coeffs ->
  Single.longstaff_schwartz_test S K r T coeffs
  = Ok (v * exp (- r * (T / INR m))).
Proof.
  intros HS Hm Hn Hrow Hv Hle Hlen Hheld.
  unfold Single.longstaff_schwartz_test.
  rewrite HS, dates_minus_one, Hlen.
  replace (Z.of_nat (m - 1) =? Z.of_nat m - 1)%Z with true
    by (symmetry; apply Z.eqb_eq; lia).
  simpl negb. cbv iota. rewrite py_div_pos by assumption.
  replace (m + 1 =? 0)%nat with false by (symmetry; apply Nat.eqb_neq; lia).
  unfold Single.test_run. rewrite HS, dates_minus_one.
  unfold Single.backward_dates. rewrite Nat2Z.id.
  replace (m + 1 - 1)%nat with m by lia.
  rewrite (Hrow m) by lia. rewrite call_payoff_repeat, <- Hv.
  rewrite (test_loop_hold S K c v n s coeffs); auto.
  - now rewrite np_mean_repeat.
  - intros t Ht. apply in_rev, in_seq in Ht. apply Hrow. lia.
  - intros t Ht. apply in_rev, in_seq in Ht. apply Hle. lia.
Qed.

End ZeroVolatilityPrice.

Lemma exp_le (x y : R) : x <= y -> exp x <= exp y.
Proof.
  intros [H | ->]; [left; now apply exp_increasing | right; reflexivity].
Qed.

Lemma Rmax_payoff_le (a b K : R) : a <= b -> Rmax (a - K) 0 <= Rmax (b - K) 0.
Proof.
  intros H. unfold Rmax.
  destruct (Rle_dec (a - K) 0), (Rle_dec (b - K) 0); lra.
Qed.

Lemma constant_fit_degree_0 (X Y : list R) :
  X <> [] -> constant_fit X Y 0 = [np_mean Y].
Proof. reflexivity. Qed.

(** C3, amended.  With zero volatility and degree 0 the pipeline returns
    the intrinsic payoff at maturity discounted to time 0,
    [exp(-r*T) * max(S0*exp((r-q)*T) - K, 0)], when there is a single
    exercise date ([M = 1]), and also, for any [M], when the rate is zero
    and the dividend yield is not positive (so that the deterministic price
    never falls and no discounting is involved). *)
Theorem zero_volatility_price_is_discounted_intrinsic
        (rng : Type) (np_random_seed : Z -> rng)
        (np_random_standard_normal :
           nat -> nat -> rng -> (nat -> nat -> R) * rng)
        (np_polyfit : list R -> list R -> nat -> list R)
        (S0 r dividend K T : R) (m n_train n_test : nat)
        (seed_train seed_test : option Z) (g : rng) :
  (forall X Y, X <> [] -> np_polyfit X Y 0%nat = [np_mean Y]) ->
  0 < S0 -> 0 < T -> 0 < K ->
  (1 <= m)%nat -> (1 <= n_train)%nat -> (1 <= n_test)%nat ->
  m = 1%nat \/ (r = 0 /\ dividend <= 0) ->
  fst (Single.price rng np_random_seed np_random_standard_normal np_polyfit
         S0 r dividend 0 K 0 T (PyInt (Z.of_nat m))
         (PyInt (Z.of_nat n_train)) seed_train
         (PyInt (Z.of_nat n_test)) seed_test g)
  = Ok (exp (- r * T) * Rmax (S0 * exp ((r - dividend) * T) - K) 0).
Proof.
  intros Hfit HS0 HT HK Hm Htrain Htest Hcase.
  set (s := fun t : nat => S0 * exp ((r - dividend) * (T / INR m) * INR t)).
  set (v := Rmax (s m - K) 0).
  assert (Hm0 : INR m <> 0) by (apply not_0_INR; lia).
  assert (Hhold : forall t, (1 <= t <= m - 1)%nat ->
                    Rmax (s t - K) 0 <= v * discount_factor r (T / INR m)).
  { intros t Ht. destruct Hcase as [-> | [-> Hq]]; [lia |].
    unfold discount_factor. replace (- 0 * (T / INR m)) with 0 by lra.
    rewrite exp_0, Rmult_1_r. apply Rmax_payoff_le. unfold s.
    apply Rmult_le_compat_l; [lra |]. apply exp_le.
    apply Rmult_le_compat_l.
    - apply Rmult_le_pos; [lra |].
      apply Rmult_le_pos; [lra |]. left. apply Rinv_0_lt_compat.
      apply lt_0_INR. lia.
    - apply le_INR. lia. }
  destruct (zero_volatility_simulate rng np_random_seed
              np_random_standard_normal S0 r dividend T m n_train seed_train g
              HS0 HT Hm Htrain) as [trained_s [g1 [E1 [Sh1 Rows1]]]].
  destruct (zero_volatility_train np_polyfit Hfit trained_s K r T v m n_train s
              Sh1 Hm Htrain HK HT Rows1 eq_refl Hhold)
    as [coeffs [E2 [Hlen Hheld]]].
  destruct (zero_volatility_simulate rng np_random_seed
              np_random_standard_normal S0 r dividend T m n_test seed_test g1
              HS0 HT Hm Htest) as [tested_s [g2 [E3 [Sh3 Rows3]]]].
  rewrite (price_valid rng np_random_seed np_random_standard_normal np_polyfit
             _ _ _ _ _ _ _ _ _ _ _ _ _ _ _ _ _ _ E1 E2 E3).
  simpl fst.
  rewrite (zero_volatility_test tested_s K r T v
             (v * discount_factor r (T / INR m)) m n_test s coeffs
             Sh3 Hm Htest Rows3 eq_refl Hhold Hlen Hheld).
  f_equal. unfold v, s.
  replace ((r - dividend) * (T / INR m) * INR m) with ((r - dividend) * T)
    by (field; exact Hm0).
  rewrite Rmult_comm. f_equal.
  destruct Hcase as [-> | [-> _]].
  - f_equal. simpl. field.
  - f_equal. lra.
Qed.

Lemma zero_volatility_price_is_discounted_intrinsic_witness :
  fst (Single.price counter_rng counter_seed counter_normal constant_fit
         100 0.05 0.1 0 100 0 3 (PyInt (Z.of_nat 1))
         (PyInt (Z.of_nat 2)) (Some 42%Z)
         (PyInt (Z.of_nat 1)) (Some 45%Z) 0%Z)
  = Ok (exp (- (0.05) * 3) * Rmax (100 * exp ((0.05 - 0.1) * 3) - 100) 0).
Proof.
  apply (zero_volatility_price_is_discounted_intrinsic counter_rng counter_seed
           counter_normal constant_fit 100 0.05 0.1 100 3 1 2 1
           (Some 42%Z) (Some 45%Z) 0%Z).
  - exact constant_fit_degree_0.
  - lra.
  - lra.
  - lra.
  - lia.
  - lia.
  - lia.
  - left. reflexivity.
Defined.

Lemma exp_neg_two_bound : exp (- 2) < / 4.
Proof.
  replace (-2) with (Ropp 1 + Ropp 1) by lra. rewrite exp_plus.
  assert (H : exp (Ropp 1) < / 2).
  { rewrite exp_Ropp. apply Rinv_lt_contravar.
    - apply Rmult_lt_0_compat; [lra | apply exp_pos].
    - pose proof (exp_ineq1 1). lra. }
  pose proof (exp_pos (Ropp 1)). nra.
Qed.

(** C3, as stated, fails.  With zero volatility, zero rate and dividend
    yield 1 the deterministic price falls from 4 to [4*exp(-1)] at date 1 and
    [4*exp(-2)] at maturity 2; with strike 1 the payoff at maturity is 0, so
    the claimed price is 0, but the pipeline exercises at date 1 and returns
    [4*exp(-1) - 1]. *)
Lemma zero_volatility_early_exercise :
  exists p,
    fst (Single.price counter_rng counter_seed counter_normal constant_fit
           4 0 1 0 1 0 2 (PyInt 2) (PyInt 1) (Some 42%Z)
           (PyInt 1) (Some 45%Z) 0%Z)
    = Ok p
    /\ p <> exp (- 0 * 2) * Rmax (4 * exp ((0 - 1) * 2) - 1) 0.
Proof.
  assert (HS0 : 0 < 4) by lra. assert (HT : 0 < 2) by lra.
  destruct (zero_volatility_simulate counter_rng counter_seed counter_normal
              4 0 1 2 2 1 (Some 42%Z) 0%Z HS0 HT (le_S _ _ (le_n 1)) (le_n 1))
    as [trained_s [g1 [E1 [Sh1 Rows1]]]].
  destruct (zero_volatility_simulate counter_rng counter_seed counter_normal
              4 0 1 2 2 1 (Some 45%Z) g1 HS0 HT (le_S _ _ (le_n 1)) (le_n 1))
    as [tested_s [g2 [E3 [Sh3 Rows3]]]].
  change (Z.of_nat 2) with 2%Z in *. change (Z.of_nat 1) with 1%Z in *.
  set (a1 := 4 * exp (- 1)).
  set (a2 := 4 * exp (- 2)).
  assert (Ha1 : 4 * exp ((0 - 1) * (2 / INR 2) * INR 1) = a1).
  { unfold a1. f_equal. f_equal. simpl. lra. }
  assert (Ha2 : 4 * exp ((0 - 1) * (2 / INR 2) * INR 2) = a2).
  { unfold a2. f_equal. f_equal. simpl. lra. }
  assert (B1 : 4 / 3 <= a1).
  { unfold a1. pose proof exp_neg_one_bounds. lra. }
  assert (B2 : a2 < 1).
  { unfold a2. pose proof exp_neg_two_bound. lra. }
  assert (R1 : row trained_s 1 = [a1]) by (rewrite Rows1, Ha1 by lia; reflexivity).
  assert (R2 : row trained_s 2 = [a2]) by (rewrite Rows1, Ha2 by lia; reflexivity).
  assert (R1' : row tested_s 1 = [a1]) by (rewrite Rows3, Ha1 by lia; reflexivity).
  assert (R2' : row tested_s 2 = [a2]) by (rewrite Rows3, Ha2 by lia; reflexivity).
  assert (P2 : Rmax (a2 - 1) 0 = 0) by (apply Rmax_right; lra).
  assert (P1 : Rmax (a1 - 1) 0 = a1 - 1) by (apply Rmax_left; lra).
  set (c := np_mean [0 * discount_factor 0 (2 / INR 2)]).
  assert (Hc : c = 0).
  { unfold c, np_mean, np_sum. simpl. field. }
  assert (E2 : Single.longstaff_schwartz_train constant_fit trained_s 1 0 2 0
               = Ok [Some [c]]).
  { unfold Single.longstaff_schwartz_train.
    rewrite (single_train_run_valid constant_fit trained_s 1 0 2 0 2);
      try lia; try lra; auto.
    simpl rev. cbn [fold_left]. unfold Single.train_step.
    rewrite R1, R2. unfold call_payoff. simpl map. rewrite P2.
    rewrite (Rgtb_true a1 1) by lra. simpl select. simpl length. simpl Nat.eqb.
    cbv iota. unfold constant_fit. simpl app. fold c. reflexivity. }
  exists (a1 - 1). split.
  - rewrite (price_valid counter_rng counter_seed counter_normal constant_fit
             _ _ _ _ _ _ _ _ _ _ _ _ _ _ _ _ _ _ E1 E2 E3).
    simpl fst. unfold Single.longstaff_schwartz_test.
    rewrite Sh3. simpl negb. cbv iota. unfold py_div. simpl Z.eqb. cbv iota.
    simpl Nat.eqb. cbv iota.
    unfold Single.test_run. rewrite Sh3. simpl. unfold Single.test_step.
    simpl nth. rewrite R1', R2'. unfold Single.exercise_update, call_payoff.
    simpl map. rewrite P1, P2. unfold np_polyval. simpl fold_left.
    simpl map2. rewrite (Rgtb_true (a1 - 1)) by lra. simpl np_where.
    unfold np_mean, np_sum. simpl. f_equal.
    replace (- 0 * (2 / 2)) with 0 by lra. rewrite exp_0. field.
  - replace (- 0 * 2) with 0 by lra. rewrite exp_0.
    replace ((0 - 1) * 2) with (-2) by lra. fold a2. rewrite P2. lra.
Qed.

(** * Further properties of the engines *)

Lemma fold_left_ext_in {A B : Type} (f g : A -> B -> A) (l : list B) :
  (forall a x, In x l -> f a x = g a x) ->
  forall a, fold_left f l a = fold_left g l a.
Proof.
  induction l as [|x l IH]; intros H a; [reflexivity |].
  simpl. rewrite (H a x) by now left.
  apply IH. intros a' y Hy. apply H. now right.
Qed.

Lemma row_transpose (P : ndarray2) (t : nat) : row (transpose P) t = col P t.
Proof. reflexivity. Qed.

Lemma last_column_payoff (P : ndarray2) (K : R) :
  (1 <= shape1 P)%nat ->
  Multi.bermudan_max_call_payoff (Multi.last_column P) K
  = call_payoff K (col P (shape1 P - 1)).
Proof.
  intros H. unfold Multi.bermudan_max_call_payoff, Multi.last_column, call_payoff,
              col, row.
  simpl. rewrite map_map. rewrite map_map.
  apply map_ext. intros p.
  destruct (shape1 P) as [|c]; [lia | reflexivity].
Qed.

Lemma multi_train_step_transpose
      (np_polyfit : list R -> list R -> nat -> list R)
      (P : ndarray2) (K discount : R) (degree : nat)
      (st : list R * coeff_series) (t : nat) :
  Multi.train_step np_polyfit P K discount degree st t
  = Single.train_step np_polyfit (transpose P) K discount degree st t.
Proof.
  unfold Multi.train_step, Single.train_step. destruct st as [V cs].
  rewrite row_transpose.
  destruct (length _ =? 0)%nat; [reflexivity |].
  now rewrite multi_exercise_update.
Qed.

Lemma multi_evaluate_step_transpose (P : ndarray2) (K : R)
      (coefficients : coeff_series) (V : list R) (t : nat) :
  Multi.evaluate_step P K coefficients V t
  = Single.test_step (transpose P) K coefficients V t.
Proof.
  unfold Multi.evaluate_step, Single.test_step.
  destruct (nth (t - 1) coefficients None); [| reflexivity].
  now rewrite multi_exercise_update, row_transpose.
Qed.

(** The basket trainer is the single-asset trainer on the transposed
    matrix, whenever the matrix has a date and the arguments pass the
    guard. *)
Lemma multi_train_is_single_train_transposed
      (np_polyfit : list R -> list R -> nat -> list R)
      (P : ndarray2) (K r T : R) (degree : Z) :
  (1 <= shape1 P)%nat -> 0 < K -> 0 < T -> (0 <= degree)%Z ->
  Multi.longstaff_schwartz_train np_polyfit P K r T degree
  = Single.longstaff_schwartz_train np_polyfit (transpose P) K r T degree.
Proof.
  intros Hs HK HT Hd.
  unfold Multi.longstaff_schwartz_train, Single.longstaff_schwartz_train,
    Multi.train_run, Single.train_run.
  rewrite !valid_strike_maturity by assumption.
  destruct (Z.ltb_spec degree 0); [lia |]. simpl orb. cbv iota.
  change (shape0 (transpose P)) with (shape1 P).
  destruct (py_div T (Z.of_nat (shape1 P) - 1)) as [dt | e]; [| reflexivity].
  destruct (Nat.eqb_spec (shape1 P) 0); [lia |].
  rewrite last_column_payoff, row_transpose by assumption.
  unfold Multi.backward_dates, Single.backward_dates.
  rewrite (fold_left_ext_in
             (Multi.train_step np_polyfit P K (discount_factor r dt) (Z.to_nat degree))
             (Single.train_step np_polyfit (transpose P) K (discount_factor r dt)
                                (Z.to_nat degree))).
  - reflexivity.
  - intros st t _. apply multi_train_step_transpose.
Qed.

(** The basket evaluator is the single-asset evaluator on the transposed
    matrix, whenever the series has the expected length. *)
Lemma multi_evaluate_is_single_test_transposed
      (P : ndarray2) (K r T : R) (coefficients : coeff_series) :
  Z.of_nat (length coefficients) = (Z.of_nat (shape1 P) - 1 - 1)%Z ->
  Multi.longstaff_schwartz_evaluate P K r T coefficients
  = Single.longstaff_schwartz_test (transpose P) K r T coefficients.
Proof.
  intros Hlen.
  unfold Multi.longstaff_schwartz_evaluate, Single.longstaff_schwartz_test,
    Single.test_run.
  change (shape0 (transpose P)) with (shape1 P).
  rewrite Hlen, Z.eqb_refl. simpl negb. cbv iota.
  destruct (py_div T (Z.of_nat (shape1 P) - 1)) as [dt | e]; [| reflexivity].
  destruct (Nat.eqb_spec (shape1 P) 0); [lia |].
  rewrite last_column_payoff, row_transpose by lia.
  unfold Multi.backward_dates, Single.backward_dates.
  rewrite (fold_left_ext_in
             (Multi.evaluate_step P K coefficients)
             (Single.test_step (transpose P) K coefficients)).
  - reflexivity.
  - intros V t _. apply multi_evaluate_step_transpose.
Qed.

Lemma np_where_Forall {A : Type} (Q : A -> Prop) (c : list bool) (a b : list A) :
  Forall Q a -> Forall Q b -> Forall Q (np_where c a b).
Proof.
  revert a b. induction c as [|k c IH]; intros a b Ha Hb; [constructor |].
  destruct a as [|x a]; [constructor |]. destruct b as [|y b]; [constructor |].
  inversion Ha; inversion Hb; subst. simpl. constructor.
  - now destruct k.
  - now apply IH.
Qed.

Lemma call_payoff_nonneg (K : R) (prices : list R) :
  Forall (fun v => 0 <= v) (call_payoff K prices).
Proof.
  unfold call_payoff. apply Forall_map, Forall_forall. intros x _. apply Rmax_r.
Qed.

Lemma exercise_update_nonneg (K : R) (coeff prices V : list R) :
  Forall (fun v => 0 <= v) V ->
  Forall (fun v => 0 <= v) (Single.exercise_update K coeff prices V).
Proof.
  intros HV. unfold Single.exercise_update.
  apply np_where_Forall; [apply call_payoff_nonneg | exact HV].
Qed.

Lemma np_sum_nonneg (V : list R) : Forall (fun v => 0 <= v) V -> 0 <= np_sum V.
Proof.
  induction 1 as [|x V Hx _ IH]; simpl; [lra |].
  change (fold_right Rplus 0 V) with (np_sum V). lra.
Qed.

Lemma np_mean_nonneg (V : list R) :
  (1 <= length V)%nat -> Forall (fun v => 0 <= v) V -> 0 <= np_mean V.
Proof.
  intros Hn HV. unfold np_mean. apply Rmult_le_pos; [now apply np_sum_nonneg |].
  left. apply Rinv_0_lt_compat, lt_0_INR. lia.
Qed.

(** The dates of the backward induction are the interior dates. *)
Lemma backward_dates_interior (s t : nat) :
  In t (Single.backward_dates (Z.of_nat s - 1)) -> (1 <= t <= s - 2)%nat.
Proof.
  unfold Single.backward_dates. intros H. apply in_rev, in_seq in H. lia.
Qed.

(** The value vector of the evaluator: one entry per path, each the payoff
    of that path at one of the dates [1 .. M]. *)
Lemma test_run_stops (S : ndarray2) (K : R) (coefficients : coeff_series) :
  (2 <= shape0 S)%nat ->
  let V := Single.test_run S K coefficients in
  length V = shape1 S
  /\ Forall (fun v => 0 <= v) V
  /\ forall i, (i < shape1 S)%nat ->
               exists t, (1 <= t <= shape0 S - 1)%nat
                         /\ nth i V 0 = Rmax (item2 S t i - K) 0.
Proof.
  intros Hs. unfold Single.test_run.
  set (M := (shape0 S - 1)%nat).
  assert (Hinv : forall dates V,
             (forall t, In t dates -> (1 <= t <= M)%nat) ->
             (length V = shape1 S
              /\ Forall (fun v => 0 <= v) V
              /\ forall i, (i < shape1 S)%nat ->
                           exists t, (1 <= t <= M)%nat
                                     /\ nth i V 0 = Rmax (item2 S t i - K) 0) ->
             let V' := fold_left (Single.test_step S K coefficients) dates V in
             length V' = shape1 S
             /\ Forall (fun v => 0 <= v) V'
             /\ forall i, (i < shape1 S)%nat ->
                          exists t, (1 <= t <= M)%nat
                                    /\ nth i V' 0 = Rmax (item2 S t i - K) 0).
  { induction dates as [|t dates IH]; intros V Hd HV; [exact HV |].
    cbn [fold_left]. apply IH; [intros t' H; apply Hd; now right |].
    destruct HV as [HL [HN HP]]. unfold Single.test_step.
    destruct (nth (t - 1) coefficients None) as [coeff |]; [| auto].
    split; [| split].
    - rewrite exercise_update_length; rewrite row_length; auto.
    - now apply exercise_update_nonneg.
    - intros i Hi.
      rewrite exercise_update_nth; rewrite ?row_length; auto.
      cbv zeta. rewrite row_nth by assumption.
      destruct (Rgtb _ _).
      + exists t. split; [apply Hd; now left | reflexivity].
      + now apply HP. }
  apply Hinv.
  - intros t Ht. apply backward_dates_interior in Ht. unfold M. lia.
  - split; [| split].
    + now rewrite call_payoff_length, row_length.
    + apply call_payoff_nonneg.
    + intros i Hi. exists M. split; [unfold M; lia |].
      rewrite call_payoff_nth by now rewrite row_length.
      now rewrite row_nth.
Qed.

(** The two outcomes of the single-asset evaluator. *)
Lemma single_test_cases (S : ndarray2) (K r T : R) (coefficients : coeff_series) :
  (Z.of_nat (length coefficients) <> (Z.of_nat (shape0 S) - 1 - 1)%Z
   /\ Single.longstaff_schwartz_test S K r T coefficients
      = Raise (ValueError "Coefficients length mismatch with time steps"))
  \/ (Z.of_nat (length coefficients) = (Z.of_nat (shape0 S) - 1 - 1)%Z
      /\ (2 <= shape0 S)%nat
      /\ Single.longstaff_schwartz_test S K r T coefficients
         = Ok (np_mean (Single.test_run S K coefficients)
               * exp (- r * (T / INR (shape0 S - 1))))).
Proof.
  unfold Single.longstaff_schwartz_test.
  destruct (Z.eqb_spec (Z.of_nat (length coefficients))
                       (Z.of_nat (shape0 S) - 1 - 1)) as [E | N].
  - right. split; [exact E |]. assert (Hs : (2 <= shape0 S)%nat) by lia.
    split; [exact Hs |]. simpl negb. cbv iota.
    replace (Z.of_nat (shape0 S) - 1)%Z with (Z.of_nat (shape0 S - 1)) by lia.
    rewrite py_div_pos by lia.
    destruct (Nat.eqb_spec (shape0 S) 0); [lia | reflexivity].
  - left. split; [exact N | reflexivity].
Qed.

(** ** The evaluator replays the trained series *)

(** The exercise rule with a recorded polynomial is the replay of that
    polynomial. *)
Lemma exercise_update_replay (K : R) (coeff prices V : list R) :
  Single.exercise_update K coeff prices V
  = replay_entry K (Some coeff) prices V.
Proof.
  unfold Single.exercise_update, replay_entry, call_payoff. cbv zeta.
  revert V. induction prices as [|x prices IH]; intros V; [reflexivity |].
  destruct V as [|v V]; [reflexivity |].
  cbn [map map2 np_where]. rewrite IH. f_equal.
  unfold Rgtb. now destruct (Rlt_dec (np_polyval coeff x) (Rmax (x - K) 0)).
Qed.

(** An evaluator given a series whose entry at position [d - 1] is [F d]
    for every interior date [d] replays [F] backwards from the payoff at
    the last date, and returns the discounted mean. *)
Lemma test_replays_series (F : nat -> option (list R))
      (S : ndarray2) (K r T : R) (coefficients : coeff_series) (M : nat) :
  shape0 S = (M + 1)%nat -> (1 <= M)%nat ->
  length coefficients = (M - 1)%nat ->
  (forall d, (1 <= d <= M - 1)%nat -> nth_error coefficients (d - 1) = Some (F d)) ->
  Single.longstaff_schwartz_test S K r T coefficients
  = Ok (np_mean
          (fold_left (fun V d => replay_entry K (F d) (row S d) V)
                     (rev (seq 1 (M - 1)))
                     (call_payoff K (row S M)))
        * exp (- r * (T / INR M))).
Proof.
  intros HS HM Hlen HF.
  destruct (single_test_cases S K r T coefficients) as [[N _] | [_ [_ E]]].
  - exfalso. apply N. rewrite Hlen, HS. lia.
  - rewrite E. unfold Single.test_run, Single.backward_dates. rewrite HS.
    replace (Z.to_nat (Z.of_nat (M + 1) - 1) - 1)%nat with (M - 1)%nat by lia.
    replace (M + 1 - 1)%nat with M by lia.
    rewrite (fold_left_ext_in
               (Single.test_step S K coefficients)
               (fun V d => replay_entry K (F d) (row S d) V)).
    + reflexivity.
    + intros V d Hd. apply in_rev, in_seq in Hd.
      unfold Single.test_step.
      rewrite (nth_error_nth _ _ None (HF d ltac:(lia))).
      destruct (F d) as [coeff |]; [apply exercise_update_replay | reflexivity].
Qed.

(** C7.  The series a trainer returns is chronological, and the evaluator
    replays it.  For a series [coeffs] returned by the trainer on a matrix
    with [M + 1] dates: its entry at position [t - 1], for every interior
    date [t] in [1 .. M-1], is what the trainer's loop fitted at date [t]
    (the polynomial [np.polyfit] gave there, or [None]); and the evaluator,
    given [coeffs] and any matrix with [M + 1] dates, returns the discounted
    mean of the value vector obtained from the payoff at date [M] by
    replaying, for [t = M-1] down to [1], the entry fitted at date [t] on the
    prices of date [t]: [None] keeps the vector, a polynomial exercises the
    paths whose payoff is strictly above its value.  So the polynomial
    fitted at date [t] in training is the polynomial evaluated at date [t],
    and the evaluator fits nothing.  This holds for the single-asset and for
    the basket engine. *)
Theorem series_is_chronological_and_replayed
        (np_polyfit : list R -> list R -> nat -> list R)
        (S P S' P' : ndarray2) (K r T K' r' T' : R) (degree : Z) (M : nat)
        (coeffs coeffs' : coeff_series) :
  shape0 S = (M + 1)%nat -> shape1 P = (M + 1)%nat ->
  shape0 S' = (M + 1)%nat -> shape1 P' = (M + 1)%nat ->
  Single.longstaff_schwartz_train np_polyfit S K r T degree = Ok coeffs ->
  Multi.longstaff_schwartz_train np_polyfit P K r T degree = Ok coeffs' ->
  (1 <= M)%nat ->
  ((forall t, (1 <= t <= M - 1)%nat ->
              nth_error coeffs (t - 1)
              = Some (Single.fitted_at np_polyfit S K r T degree t))
   /\ Single.longstaff_schwartz_test S' K' r' T' coeffs
      = Ok (np_mean
              (fold_left
                 (fun V t =>
                    replay_entry K'
                      (Single.fitted_at np_polyfit S K r T degree t)
                      (row S' t) V)
                 (rev (seq 1 (M - 1)))
                 (call_payoff K' (row S' M)))
            * exp (- r' * (T' / INR M))))
  /\ ((forall t, (1 <= t <= M - 1)%nat ->
                 nth_error coeffs' (t - 1)
                 = Some (Multi.fitted_at np_polyfit P K r T degree t))
      /\ Multi.longstaff_schwartz_evaluate P' K' r' T' coeffs'
         = Ok (np_mean
                 (fold_left
                    (fun V t =>
                       replay_entry K'
                         (Multi.fitted_at np_polyfit P K r T degree t)
                         (col P' t) V)
                    (rev (seq 1 (M - 1)))
                    (call_payoff K' (col P' M)))
               * exp (- r' * (T' / INR M)))).
Proof.
  intros HS HP HS' HP' Hsingle Hmulti HM.
  assert (E1 : forall t, (1 <= t <= M - 1)%nat ->
                         nth_error coeffs (t - 1)
                         = Some (Single.fitted_at np_polyfit S K r T degree t)).
  { intros t Ht.
    exact (single_recorded_entry np_polyfit S K r T degree M t coeffs
             HS Hsingle Ht). }
  assert (E2 : forall t, (1 <= t <= M - 1)%nat ->
                         nth_error coeffs' (t - 1)
                         = Some (Multi.fitted_at np_polyfit P K r T degree t)).
  { intros t Ht.
    exact (multi_recorded_entry np_polyfit P K r T degree M t coeffs'
             HP Hmulti Ht). }
  assert (L1 := single_train_length np_polyfit S K r T degree M coeffs
                  HS HM Hsingle).
  assert (L2 := multi_train_length np_polyfit P K r T degree M coeffs'
                  HP HM Hmulti).
  split; (split; [assumption |]).
  - exact (test_replays_series _ S' K' r' T' coeffs M HS' HM L1 E1).
  - rewrite multi_evaluate_is_single_test_transposed by (rewrite L2, HP'; lia).
    exact (test_replays_series _ (transpose P') K' r' T' coeffs' M HP' HM L2 E2).
Qed.

Lemma series_is_chronological_and_replayed_witness :
  exists coeffs coeffs',
    Single.longstaff_schwartz_train constant_fit four_dates 100 1 3 5 = Ok coeffs
    /\ Multi.longstaff_schwartz_train constant_fit four_dates_by_path 100 1 3 5
       = Ok coeffs'
    /\ (exists coeff,
           Single.fitted_at constant_fit four_dates 100 1 3 5 1 = Some coeff)
    /\ (exists coeff,
           Multi.fitted_at constant_fit four_dates_by_path 100 1 3 5 1
           = Some coeff)
    /\ ((forall t, (1 <= t <= 3 - 1)%nat ->
                   nth_error coeffs (t - 1)
                   = Some (Single.fitted_at constant_fit four_dates 100 1 3 5 t))
        /\ Single.longstaff_schwartz_test four_dates 100 1 3 coeffs
           = Ok (np_mean
                   (fold_left
                      (fun V t =>
                         replay_entry 100
                           (Single.fitted_at constant_fit four_dates 100 1 3 5 t)
                           (row four_dates t) V)
                      (rev (seq 1 (3 - 1)))
                      (call_payoff 100 (row four_dates 3)))
                 * exp (- 1 * (3 / INR 3))))
    /\ ((forall t, (1 <= t <= 3 - 1)%nat ->
                   nth_error coeffs' (t - 1)
                   = Some (Multi.fitted_at constant_fit four_dates_by_path
                                           100 1 3 5 t))
        /\ Multi.longstaff_schwartz_evaluate four_dates_by_path 100 1 3 coeffs'
           = Ok (np_mean
                   (fold_left
                      (fun V t =>
                         replay_entry 100
                           (Multi.fitted_at constant_fit four_dates_by_path
                                            100 1 3 5 t)
                           (col four_dates_by_path t) V)
                      (rev (seq 1 (3 - 1)))
                      (call_payoff 100 (col four_dates_by_path 3)))
                 * exp (- 1 * (3 / INR 3)))).
Proof.
  destruct (single_train_returns constant_fit four_dates 100 1 3 5 3)
    as [coeffs H1]; [reflexivity | lia | lra | lra | lia |].
  destruct (multi_train_returns constant_fit four_dates_by_path 100 1 3 5 3)
    as [coeffs' H2]; [reflexivity | lia | lra | lra | lia |].
  exists coeffs, coeffs'.
  split; [exact H1 |]. split; [exact H2 |].
  split.
  { destruct (single_fitted_in_the_money constant_fit four_dates 100 1 3 5
                1 1) as [_ E]; [simpl; lia | simpl; lra |].
    eexists. exact E. }
  split.
  { destruct (multi_fitted_in_the_money constant_fit four_dates_by_path
                100 1 3 5 1 1) as [_ E]; [simpl; lia | simpl; lra |].
    eexists. exact E. }
  exact (series_is_chronological_and_replayed constant_fit four_dates
           four_dates_by_path four_dates four_dates_by_path
           100 1 3 100 1 3 5 3 coeffs coeffs'
           eq_refl eq_refl eq_refl eq_refl H1 H2
           (le_S _ _ (le_S _ _ (le_n 1)))).
Defined.

(** ** Where each path stops *)

Lemma list_ext_R (l l' : list R) (n : nat) :
  length l = n -> length l' = n ->
  (forall i, (i < n)%nat -> nth i l 0 = nth i l' 0) -> l = l'.
Proof.
  intros Hl Hl' H. apply (nth_ext l l' 0 0); [congruence |].
  intros i Hi. apply H. lia.
Qed.

(** Running the evaluator's step backwards over the dates [l] leaves each
    path with its payoff at the earliest date of [l] that makes it
    exercise, or with the value it started from. *)
Lemma test_fold_stops (S : ndarray2) (K : R) (coefficients : coeff_series)
      (l : list nat) (V0 : list R) :
  length V0 = shape1 S ->
  fold_left (Single.test_step S K coefficients) (rev l) V0
  = map (fun i =>
           match filter (fun t => Single.exercise_signal S K coefficients t i) l
           with
           | t :: _ => Rmax (item2 S t i - K) 0
           | [] => nth i V0 0
           end)
        (seq 0 (shape1 S)).
Proof.
  intros HV. induction l as [|t l IH].
  - simpl. apply (list_ext_R _ _ (shape1 S));
      [exact HV | now rewrite length_map, length_seq |].
    intros i Hi. now rewrite (nth_map_seq (fun i => nth i V0 0)).
  - simpl rev. rewrite fold_left_app, IH. cbn [fold_left].
    set (f := fun i : nat =>
                match filter (fun t => Single.exercise_signal S K coefficients t i) l
                with
                | t :: _ => Rmax (item2 S t i - K) 0
                | [] => nth i V0 0
                end).
    assert (HW : length (map f (seq 0 (shape1 S))) = shape1 S)
      by now rewrite length_map, length_seq.
    apply (list_ext_R _ _ (shape1 S)).
    + unfold Single.test_step.
      destruct (nth (t - 1) coefficients None); [| exact HW].
      rewrite exercise_update_length; rewrite row_length; auto.
    + now rewrite length_map, length_seq.
    + intros i Hi.
      rewrite (nth_map_seq
                 (fun i =>
                    match filter (fun t' => Single.exercise_signal S K coefficients t' i)
                                 (t :: l)
                    with
                    | t' :: _ => Rmax (item2 S t' i - K) 0
                    | [] => nth i V0 0
                    end)) by exact Hi.
      cbn [filter]. unfold Single.test_step.
      unfold Single.exercise_signal at 1.
      destruct (nth (t - 1) coefficients None) as [coeff |].
      * rewrite exercise_update_nth by (rewrite ?row_length; auto).
        cbv zeta. rewrite row_nth by exact Hi.
        destruct (Rgtb _ _); [reflexivity |].
        now rewrite (nth_map_seq f).
      * now rewrite (nth_map_seq f).
Qed.

(** The evaluator's value vector when its loop ends. *)
Lemma test_run_stopping_date (S : ndarray2) (K : R)
      (coefficients : coeff_series) :
  (2 <= shape0 S)%nat ->
  Single.test_run S K coefficients
  = map (fun i =>
           Rmax (item2 S (Single.stopping_date S K coefficients i) i - K) 0)
        (seq 0 (shape1 S)).
Proof.
  intros Hs. unfold Single.test_run, Single.backward_dates.
  replace (Z.to_nat (Z.of_nat (shape0 S) - 1) - 1)%nat
    with (shape0 S - 1 - 1)%nat by lia.
  rewrite test_fold_stops by now rewrite call_payoff_length, row_length.
  apply map_ext_in. intros i Hi. apply in_seq in Hi.
  unfold Single.stopping_date. cbv zeta.
  destruct (filter _ _) as [|t ts]; [| reflexivity].
  cbn [hd]. rewrite call_payoff_nth by (rewrite row_length; lia).
  now rewrite row_nth by lia.
Qed.

(** X1.  The stopping rule of the evaluators.  A price the evaluator of
    either engine returns is the discounted mean, over the paths, of the
    payoff of each path at its stopping date: the earliest date in
    [1 .. M-1] whose entry of the series is a polynomial with the path's
    payoff strictly above the polynomial's value at the path's price, and
    the last date [M] when there is no such date. *)
Theorem evaluator_exercises_at_first_signal
        (S P : ndarray2) (K r T : R) (coefficients coefficients' : coeff_series)
        (p p' : R) :
  Single.longstaff_schwartz_test S K r T coefficients = Ok p ->
  Multi.longstaff_schwartz_evaluate P K r T coefficients' = Ok p' ->
  p = np_mean
        (map (fun i =>
                Rmax (item2 S (Single.stopping_date S K coefficients i) i - K) 0)
             (seq 0 (shape1 S)))
      * exp (- r * (T / INR (shape0 S - 1)))
  /\ p' = np_mean
            (map (fun i =>
                    Rmax (item2 P i (Multi.stopping_date P K coefficients' i)
                          - K) 0)
                 (seq 0 (shape0 P)))
          * exp (- r * (T / INR (shape1 P - 1))).
Proof.
  intros H H'. split.
  - destruct (single_test_cases S K r T coefficients) as [[_ E] | [_ [Hs E]]];
      rewrite E in H; [discriminate |].
    injection H as <-. now rewrite test_run_stopping_date.
  - assert (Hlen : Z.of_nat (length coefficients')
                   = (Z.of_nat (shape1 P) - 1 - 1)%Z).
    { unfold Multi.longstaff_schwartz_evaluate in H'.
      destruct (Z.eqb_spec (Z.of_nat (length coefficients'))
                           (Z.of_nat (shape1 P) - 1 - 1));
        [assumption | discriminate]. }
    rewrite (multi_evaluate_is_single_test_transposed P K r T coefficients' Hlen)
      in H'.
    destruct (single_test_cases (transpose P) K r T coefficients')
      as [[_ E] | [_ [Hs E]]]; rewrite E in H'; [discriminate |].
    injection H' as <-. now rewrite test_run_stopping_date.
Qed.

Lemma evaluator_exercises_at_first_signal_witness :
  exists p p',
    Single.longstaff_schwartz_test three_dates 1 1 2 [Some [10]] = Ok p
    /\ Multi.longstaff_schwartz_evaluate three_dates_by_path 1 1 2 [Some [10]]
       = Ok p'
    /\ p = np_mean
             (map (fun i =>
                     Rmax (item2 three_dates
                             (Single.stopping_date three_dates 1 [Some [10]] i) i
                           - 1) 0)
                  (seq 0 (shape1 three_dates)))
           * exp (- 1 * (2 / INR (shape0 three_dates - 1)))
    /\ p' = np_mean
              (map (fun i =>
                      Rmax (item2 three_dates_by_path i
                              (Multi.stopping_date three_dates_by_path 1
                                                   [Some [10]] i)
                            - 1) 0)
                   (seq 0 (shape0 three_dates_by_path)))
            * exp (- 1 * (2 / INR (shape1 three_dates_by_path - 1))).
Proof.
  destruct (single_test_cases three_dates 1 1 2 [Some [10]])
    as [[N _] | [_ [_ E]]]; [exfalso; apply N; reflexivity |].
  assert (E' : exists p',
             Multi.longstaff_schwartz_evaluate three_dates_by_path 1 1 2
                                               [Some [10]] = Ok p').
  { rewrite multi_evaluate_is_single_test_transposed by reflexivity.
    destruct (single_test_cases (transpose three_dates_by_path) 1 1 2
                                [Some [10]])
      as [[N _] | [_ [_ E2]]]; [exfalso; apply N; reflexivity |].
    eexists. exact E2. }
  destruct E' as [p' E'].
  eexists. exists p'. split; [exact E |]. split; [exact E' |].
  exact (evaluator_exercises_at_first_signal three_dates three_dates_by_path
           1 1 2 [Some [10]] [Some [10]] _ p' E E').
Defined.

(** X2.  A price the single-asset evaluator returns is the mean over the
    paths of one payoff per path — the payoff of that path at one of the
    dates [1 .. M] — times a single discount factor [exp(-r * T / M)]; in
    particular it is not negative. *)
Theorem evaluated_price_is_mean_of_realised_payoffs
        (S : ndarray2) (K r T : R) (coefficients : coeff_series) (p : R) :
  Single.longstaff_schwartz_test S K r T coefficients = Ok p ->
  (1 <= shape1 S)%nat ->
  (exists V,
      length V = shape1 S
      /\ (forall i, (i < shape1 S)%nat ->
                    exists t, (1 <= t <= shape0 S - 1)%nat
                              /\ nth i V 0 = Rmax (item2 S t i - K) 0)
      /\ p = np_mean V * exp (- r * (T / INR (shape0 S - 1))))
  /\ 0 <= p.
Proof.
  intros H Hpaths.
  destruct (single_test_cases S K r T coefficients) as [[_ E] | [_ [Hs E]]];
    rewrite E in H; [discriminate |].
  injection H as <-.
  destruct (test_run_stops S K coefficients Hs) as [HL [HN HP]].
  split.
  - exists (Single.test_run S K coefficients). auto.
  - apply Rmult_le_pos; [| left; apply exp_pos].
    apply np_mean_nonneg; [lia | exact HN].
Qed.

Lemma evaluated_price_is_mean_of_realised_payoffs_witness :
  exists p,
    Single.longstaff_schwartz_test three_dates 1 1 2 [Some [10]] = Ok p
    /\ (1 <= shape1 three_dates)%nat
    /\ (exists V,
           length V = shape1 three_dates
           /\ (forall i, (i < shape1 three_dates)%nat ->
                         exists t, (1 <= t <= shape0 three_dates - 1)%nat
                                   /\ nth i V 0
                                      = Rmax (item2 three_dates t i - 1) 0)
           /\ p = np_mean V * exp (- 1 * (2 / INR (shape0 three_dates - 1))))
    /\ 0 <= p.
Proof.
  destruct (single_test_cases three_dates 1 1 2 [Some [10]])
    as [[N _] | [_ [_ E]]]; [exfalso; apply N; reflexivity |].
  eexists. split; [exact E |]. split; [simpl; lia |].
  exact (evaluated_price_is_mean_of_realised_payoffs three_dates 1 1 2
           [Some [10]] _ E (le_n 1)).
Defined.

(** X3.  The same for the basket evaluator, whose matrix has a row per
    path: the price is the mean of one payoff per path, taken at one of the
    dates [1 .. exercise_steps], times [exp(-r * maturity / exercise_steps)],
    and is not negative. *)
Theorem basket_price_is_mean_of_realised_payoffs
        (P : ndarray2) (K r T : R) (coefficients : coeff_series) (p : R) :
  Multi.longstaff_schwartz_evaluate P K r T coefficients = Ok p ->
  (1 <= shape0 P)%nat ->
  (exists V,
      length V = shape0 P
      /\ (forall i, (i < shape0 P)%nat ->
                    exists t, (1 <= t <= shape1 P - 1)%nat
                              /\ nth i V 0 = Rmax (item2 P i t - K) 0)
      /\ p = np_mean V * exp (- r * (T / INR (shape1 P - 1))))
  /\ 0 <= p.
Proof.
  intros H Hpaths.
  assert (Hlen : Z.of_nat (length coefficients) = (Z.of_nat (shape1 P) - 1 - 1)%Z).
  { unfold Multi.longstaff_schwartz_evaluate in H.
    destruct (Z.eqb_spec (Z.of_nat (length coefficients))
                         (Z.of_nat (shape1 P) - 1 - 1)); [assumption | discriminate]. }
  rewrite (multi_evaluate_is_single_test_transposed P K r T coefficients Hlen) in H.
  destruct (single_test_cases (transpose P) K r T coefficients)
    as [[_ E] | [_ [Hs E]]]; rewrite E in H; [discriminate |].
  injection H as <-.
  destruct (test_run_stops (transpose P) K coefficients Hs) as [HL [HN HP]].
  split.
  - exists (Single.test_run (transpose P) K coefficients).
    split; [exact HL |]. split; [exact HP | reflexivity].
  - apply Rmult_le_pos; [| left; apply exp_pos].
    apply np_mean_nonneg; [| exact HN]. rewrite HL. exact Hpaths.
Qed.

Lemma basket_price_is_mean_of_realised_payoffs_witness :
  exists p,
    Multi.longstaff_schwartz_evaluate three_dates_by_path 1 1 2 [Some [10]] = Ok p
    /\ (1 <= shape0 three_dates_by_path)%nat
    /\ (exists V,
           length V = shape0 three_dates_by_path
           /\ (forall i, (i < shape0 three_dates_by_path)%nat ->
                         exists t, (1 <= t <= shape1 three_dates_by_path - 1)%nat
                                   /\ nth i V 0
                                      = Rmax (item2 three_dates_by_path i t - 1) 0)
           /\ p = np_mean V
                  * exp (- 1 * (2 / INR (shape1 three_dates_by_path - 1))))
    /\ 0 <= p.
Proof.
  assert (E : exists p,
             Multi.longstaff_schwartz_evaluate three_dates_by_path 1 1 2
                                               [Some [10]] = Ok p).
  { rewrite multi_evaluate_is_single_test_transposed by reflexivity.
    destruct (single_test_cases (transpose three_dates_by_path) 1 1 2 [Some [10]])
      as [[N _] | [_ [_ E]]]; [exfalso; apply N; reflexivity |].
    eexists. exact E. }
  destruct E as [p E]. exists p. split; [exact E |]. split; [simpl; lia |].
  exact (basket_price_is_mean_of_realised_payoffs three_dates_by_path 1 1 2
           [Some [10]] p E (le_n 1)).
Defined.

(** X4.  The evaluators raise nothing but their length-mismatch
    [ValueError]: whatever the matrix (one date, no date at all) and the
    series, the call either raises that error or returns a price; a division
    by zero or an index error cannot happen. *)
Theorem evaluators_raise_only_length_mismatch
        (S P : ndarray2) (K r T : R) (coefficients : coeff_series) :
  (Single.longstaff_schwartz_test S K r T coefficients
   = Raise (ValueError "Coefficients length mismatch with time steps")
   \/ exists p, Single.longstaff_schwartz_test S K r T coefficients = Ok p)
  /\ (Multi.longstaff_schwartz_evaluate P K r T coefficients
      = Raise (ValueError "Coefficients/exercise steps mismatch")
      \/ exists p, Multi.longstaff_schwartz_evaluate P K r T coefficients = Ok p).
Proof.
  split.
  - destruct (single_test_cases S K r T coefficients) as [[_ E] | [_ [_ E]]];
      rewrite E; [now left | right; eauto].
  - destruct (Z.eq_dec (Z.of_nat (length coefficients))
                       (Z.of_nat (shape1 P) - 1 - 1)) as [E | N].
    + right. rewrite (multi_evaluate_is_single_test_transposed P K r T _ E).
      destruct (single_test_cases (transpose P) K r T coefficients)
        as [[N _] | [_ [_ E']]]; [contradiction | rewrite E'; eauto].
    + left. unfold Multi.longstaff_schwartz_evaluate.
      destruct (Z.eqb_spec (Z.of_nat (length coefficients))
                           (Z.of_nat (shape1 P) - 1 - 1));
        [contradiction | reflexivity].
Qed.

(** X5.  What the single-asset trainer does, in the order the source
    tests: a strike or maturity that is not positive or a negative degree
    raises [ValueError]; otherwise a matrix with a single date raises
    [ZeroDivisionError] ([dt = T / 0]), a matrix with no date raises
    [IndexError] ([S_paths_train[-1]]), and a matrix with at least two dates
    gives a series with one entry per interior date. *)
Theorem single_trainer_outcomes
        (np_polyfit : list R -> list R -> nat -> list R)
        (A : ndarray2) (K r T : R) (degree : Z) :
  let train := Single.longstaff_schwartz_train np_polyfit A K r T degree in
  ((K <= 0 \/ T <= 0 \/ (degree < 0)%Z)
   /\ train = Raise (ValueError "K, T must be positive; degree must be non-negative"))
  \/ (0 < K /\ 0 < T /\ (0 <= degree)%Z
      /\ ((shape0 A = 1%nat /\ train = Raise ZeroDivisionError)
          \/ (shape0 A = 0%nat /\ train = Raise IndexError)
          \/ ((2 <= shape0 A)%nat
              /\ exists coeffs, train = Ok coeffs
                                /\ length coeffs = (shape0 A - 2)%nat))).
Proof.
  intros train. unfold train, Single.longstaff_schwartz_train.
  destruct (Rle_dec K 0) as [HK | HK];
    [left; split; [auto |]; unfold Single.train_run; simpl existsb;
     now rewrite (Rleb_true K 0) |].
  destruct (Rle_dec T 0) as [HT | HT];
    [left; split; [auto |]; unfold Single.train_run; simpl existsb;
     rewrite (Rleb_true T 0) by assumption; now rewrite !orb_true_r |].
  destruct (Z.ltb_spec degree 0) as [Hd | Hd];
    [left; split; [auto |]; unfold Single.train_run;
     destruct (Z.ltb_spec degree 0); [now rewrite orb_true_r | lia] |].
  right. split; [lra |]. split; [lra |]. split; [exact Hd |].
  destruct (shape0 A) as [|[|s]] eqn:Hs.
  - right. left. split; [reflexivity |]. unfold Single.train_run.
    rewrite valid_strike_maturity by lra.
    destruct (Z.ltb_spec degree 0); [lia |]. now rewrite Hs.
  - left. split; [reflexivity |]. unfold Single.train_run.
    rewrite valid_strike_maturity by lra.
    destruct (Z.ltb_spec degree 0); [lia |]. now rewrite Hs.
  - right. right. split; [lia |].
    rewrite (single_train_run_valid np_polyfit A K r T degree (S s));
      try lra; try lia.
    destruct (loop_appends _ (single_step_appends np_polyfit A K
                (discount_factor r (T / INR (S s))) (Z.to_nat degree))
                (rev (seq 1 (S s - 1))) (call_payoff K (row A (S s))) [])
      as [V' [cs' [E L]]].
    rewrite E. exists (rev cs'). split; [reflexivity |].
    rewrite length_rev, L, length_rev, length_seq. lia.
Qed.

(** X6.  What the basket trainer does, in the order the source tests: bad
    strike, maturity or degree raise [ValueError]; otherwise a matrix with a
    single date raises [ZeroDivisionError], a matrix with no date makes the
    maximum over an empty axis raise [ValueError], and a matrix with at
    least two dates gives a series with one entry per interior date. *)
Theorem basket_trainer_outcomes
        (np_polyfit : list R -> list R -> nat -> list R)
        (P : ndarray2) (K r T : R) (degree : Z) :
  let train := Multi.longstaff_schwartz_train np_polyfit P K r T degree in
  ((K <= 0 \/ T <= 0 \/ (degree < 0)%Z)
   /\ train = Raise (ValueError "Invalid parameter values"))
  \/ (0 < K /\ 0 < T /\ (0 <= degree)%Z
      /\ ((shape1 P = 1%nat /\ train = Raise ZeroDivisionError)
          \/ (shape1 P = 0%nat /\ train = Raise Multi.zero_size_reduction)
          \/ ((2 <= shape1 P)%nat
              /\ exists coeffs, train = Ok coeffs
                                /\ length coeffs = (shape1 P - 2)%nat))).
Proof.
  intros train. unfold train, Multi.longstaff_schwartz_train.
  destruct (Rle_dec K 0) as [HK | HK];
    [left; split; [auto |]; unfold Multi.train_run; simpl existsb;
     now rewrite (Rleb_true K 0) |].
  destruct (Rle_dec T 0) as [HT | HT];
    [left; split; [auto |]; unfold Multi.train_run; simpl existsb;
     rewrite (Rleb_true T 0) by assumption; now rewrite !orb_true_r |].
  destruct (Z.ltb_spec degree 0) as [Hd | Hd];
    [left; split; [auto |]; unfold Multi.train_run;
     destruct (Z.ltb_spec degree 0); [now rewrite orb_true_r | lia] |].
  right. split; [lra |]. split; [lra |]. split; [exact Hd |].
  destruct (shape1 P) as [|[|s]] eqn:Hs.
  - right. left. split; [reflexivity |]. unfold Multi.train_run.
    rewrite valid_strike_maturity by lra.
    destruct (Z.ltb_spec degree 0); [lia |]. now rewrite Hs.
  - left. split; [reflexivity |]. unfold Multi.train_run.
    rewrite valid_strike_maturity by lra.
    destruct (Z.ltb_spec degree 0); [lia |]. now rewrite Hs.
  - right. right. split; [lia |].
    rewrite (multi_train_run_valid np_polyfit P K r T degree (S s));
      try lra; try lia.
    destruct (loop_appends _ (multi_step_appends np_polyfit P K
                (discount_factor r (T / INR (S s))) (Z.to_nat degree))
                (rev (seq 1 (S s - 1)))
                (Multi.bermudan_max_call_payoff (Multi.last_column P) K) [])
      as [V' [cs' [E L]]].
    rewrite E. exists (rev cs'). split; [reflexivity |].
    rewrite length_rev, L, length_rev, length_seq. lia.
Qed.

(** X7.  With a single exercise date (a matrix of two dates) the trainer
    returns the empty series, and the evaluator given the empty series
    returns the mean payoff at maturity discounted over the whole maturity,
    [mean(max(S_T - K, 0)) * exp(-r * T)]: the European price estimate. *)
Theorem single_exercise_date_is_european
        (np_polyfit : list R -> list R -> nat -> list R)
        (S S' : ndarray2) (K r T : R) (degree : Z) :
  shape0 S = 2%nat -> shape0 S' = 2%nat ->
  0 < K -> 0 < T -> (0 <= degree)%Z ->
  Single.longstaff_schwartz_train np_polyfit S K r T degree = Ok []
  /\ Single.longstaff_schwartz_test S' K r T []
     = Ok (np_mean (call_payoff K (row S' 1)) * exp (- r * T)).
Proof.
  intros HS HS' HK HT Hd. split.
  - unfold Single.longstaff_schwartz_train.
    now rewrite (single_train_run_valid np_polyfit S K r T degree 1).
  - destruct (single_test_cases S' K r T []) as [[N _] | [_ [_ E]]].
    + exfalso. apply N. rewrite HS'. reflexivity.
    + rewrite E. unfold Single.test_run, Single.backward_dates. rewrite HS'.
      simpl. do 3 f_equal. field.
Qed.

Lemma single_exercise_date_is_european_witness :
  Single.longstaff_schwartz_train constant_fit (of_rows [[100; 100]; [90; 120]])
                                  100 0.05 3 5 = Ok []
  /\ Single.longstaff_schwartz_test (of_rows [[100; 100]; [90; 120]])
                                    100 0.05 3 []
     = Ok (np_mean (call_payoff 100 (row (of_rows [[100; 100]; [90; 120]]) 1))
           * exp (- (0.05) * 3)).
Proof.
  apply (single_exercise_date_is_european constant_fit
           (of_rows [[100; 100]; [90; 120]]) (of_rows [[100; 100]; [90; 120]])
           100 0.05 3 5).
  - reflexivity.
  - reflexivity.
  - lra.
  - lra.
  - lia.
Defined.

(** X8.  The basket engine is the single-asset engine on the transposed
    matrix: for a matrix with at least one date and arguments that pass the
    guard the two trainers return the same result, and for a series of the
    expected length the two evaluators return the same result. *)
Theorem engines_agree_under_transposition
        (np_polyfit : list R -> list R -> nat -> list R)
        (P : ndarray2) (K r T : R) (degree : Z) (coefficients : coeff_series) :
  (1 <= shape1 P)%nat -> 0 < K -> 0 < T -> (0 <= degree)%Z ->
  Z.of_nat (length coefficients) = (Z.of_nat (shape1 P) - 1 - 1)%Z ->
  Multi.longstaff_schwartz_train np_polyfit P K r T degree
  = Single.longstaff_schwartz_train np_polyfit (transpose P) K r T degree
  /\ Multi.longstaff_schwartz_evaluate P K r T coefficients
     = Single.longstaff_schwartz_test (transpose P) K r T coefficients.
Proof.
  intros Hs HK HT Hd Hlen. split.
  - now apply multi_train_is_single_train_transposed.
  - now apply multi_evaluate_is_single_test_transposed.
Qed.

Lemma engines_agree_under_transposition_witness :
  Multi.longstaff_schwartz_train constant_fit three_dates_by_path 1 1 2 5
  = Single.longstaff_schwartz_train constant_fit (transpose three_dates_by_path)
                                    1 1 2 5
  /\ Multi.longstaff_schwartz_evaluate three_dates_by_path 1 1 2 [Some [10]]
     = Single.longstaff_schwartz_test (transpose three_dates_by_path) 1 1 2
                                      [Some [10]].
Proof.
  apply (engines_agree_under_transposition constant_fit three_dates_by_path
           1 1 2 5 [Some [10]]).
  - simpl. lia.
  - lra.
  - lra.
  - lia.
  - reflexivity.
Defined.

(** A trained series is accepted by the evaluator on a matrix with the
    same number of dates, and the price is not negative. *)
Lemma single_train_then_test
      (np_polyfit : list R -> list R -> nat -> list R)
      (B B' : ndarray2) (K r T : R) (degree : Z) (M : nat) :
  shape0 B = (M + 1)%nat -> shape0 B' = (M + 1)%nat ->
  (1 <= M)%nat -> 0 < K -> 0 < T -> (0 <= degree)%Z ->
  exists coeffs p,
    Single.longstaff_schwartz_train np_polyfit B K r T degree = Ok coeffs
    /\ Single.longstaff_schwartz_test B' K r T coeffs = Ok p
    /\ ((1 <= shape1 B')%nat -> 0 <= p).
Proof.
  intros HB HB' HM HK HT Hd. unfold Single.longstaff_schwartz_train.
  rewrite (single_train_run_valid np_polyfit B K r T degree M) by assumption.
  destruct (loop_appends _ (single_step_appends np_polyfit B K
              (discount_factor r (T / INR M)) (Z.to_nat degree))
              (rev (seq 1 (M - 1))) (call_payoff K (row B M)) [])
    as [V' [cs' [E L]]].
  rewrite E. exists (rev cs').
  destruct (single_test_cases B' K r T (rev cs')) as [[N _] | [_ [Hs E']]].
  - exfalso. apply N.
    rewrite length_rev, L, length_rev, length_seq, HB'. lia.
  - eexists. split; [reflexivity |]. split; [exact E' |].
    intros Hpaths.
    destruct (test_run_stops B' K (rev cs') Hs) as [HL [HN _]].
    apply Rmult_le_pos; [| left; apply exp_pos].
    apply np_mean_nonneg; [lia | exact HN].
Qed.

Lemma multi_train_then_evaluate
      (np_polyfit : list R -> list R -> nat -> list R)
      (P P' : ndarray2) (K r T : R) (degree : Z) (M : nat) :
  shape1 P = (M + 1)%nat -> shape1 P' = (M + 1)%nat ->
  (1 <= M)%nat -> 0 < K -> 0 < T -> (0 <= degree)%Z ->
  exists coeffs p,
    Multi.longstaff_schwartz_train np_polyfit P K r T degree = Ok coeffs
    /\ Multi.longstaff_schwartz_evaluate P' K r T coeffs = Ok p
    /\ ((1 <= shape0 P')%nat -> 0 <= p).
Proof.
  intros HP HP' HM HK HT Hd.
  destruct (single_train_then_test np_polyfit (transpose P) (transpose P')
              K r T degree M HP HP' HM HK HT Hd) as [coeffs [p [E1 [E2 Hp]]]].
  exists coeffs, p. split; [| split; [| exact Hp]].
  - rewrite multi_train_is_single_train_transposed; auto. lia.
  - rewrite multi_evaluate_is_single_test_transposed; [exact E2 |].
    destruct (single_test_cases (transpose P') K r T coeffs)
      as [[_ E] | [E _]]; [rewrite E in E2; discriminate | exact E].
Qed.

(** X9.  Training and evaluation compose: a series trained on a matrix
    with [M + 1 >= 2] dates is accepted by the evaluator on any matrix with
    the same number of dates, which then returns a price; this holds for the
    single-asset and for the basket engine. *)
Theorem trained_series_is_accepted
        (np_polyfit : list R -> list R -> nat -> list R)
        (A A' P P' : ndarray2) (K r T : R) (degree : Z) (M : nat) :
  shape0 A = (M + 1)%nat -> shape0 A' = (M + 1)%nat ->
  shape1 P = (M + 1)%nat -> shape1 P' = (M + 1)%nat ->
  (1 <= M)%nat -> 0 < K -> 0 < T -> (0 <= degree)%Z ->
  (exists coeffs p,
      Single.longstaff_schwartz_train np_polyfit A K r T degree = Ok coeffs
      /\ Single.longstaff_schwartz_test A' K r T coeffs = Ok p)
  /\ (exists coeffs p,
         Multi.longstaff_schwartz_train np_polyfit P K r T degree = Ok coeffs
         /\ Multi.longstaff_schwartz_evaluate P' K r T coeffs = Ok p).
Proof.
  intros HA HA' HP HP' HM HK HT Hd. split.
  - destruct (single_train_then_test np_polyfit A A' K r T degree M
                HA HA' HM HK HT Hd) as [coeffs [p [E1 [E2 _]]]]. eauto.
  - destruct (multi_train_then_evaluate np_polyfit P P' K r T degree M
                HP HP' HM HK HT Hd) as [coeffs [p [E1 [E2 _]]]]. eauto.
Qed.

Lemma trained_series_is_accepted_witness :
  (exists coeffs p,
      Single.longstaff_schwartz_train constant_fit three_dates 3 1 2 5 = Ok coeffs
      /\ Single.longstaff_schwartz_test three_dates 3 1 2 coeffs = Ok p)
  /\ (exists coeffs p,
         Multi.longstaff_schwartz_train constant_fit three_dates_by_path 3 1 2 5
         = Ok coeffs
         /\ Multi.longstaff_schwartz_evaluate three_dates_by_path 3 1 2 coeffs
            = Ok p).
Proof.
  apply (trained_series_is_accepted constant_fit three_dates three_dates
           three_dates_by_path three_dates_by_path 3 1 2 5 2).
  - reflexivity.
  - reflexivity.
  - reflexivity.
  - reflexivity.
  - lia.
  - lra.
  - lra.
  - lia.
Defined.

Lemma row_ext (A A' : ndarray2) (t : nat) :
  shape1 A = shape1 A' ->
  (forall i, (i < shape1 A)%nat -> item2 A t i = item2 A' t i) ->
  row A t = row A' t.
Proof.
  intros Hs H. unfold row. rewrite <- Hs. apply map_ext_in.
  intros i Hi. apply in_seq in Hi. apply H. lia.
Qed.

(** X10.  Neither the trainer nor the evaluator reads the prices at date
    0: two matrices of one shape that agree from date 1 on give the same
    series and the same price (or the same exception). *)
Theorem date_zero_is_never_read
        (np_polyfit : list R -> list R -> nat -> list R)
        (A A' : ndarray2) (K r T : R) (degree : Z) (coefficients : coeff_series) :
  shape0 A = shape0 A' -> shape1 A = shape1 A' ->
  (forall t i, (1 <= t)%nat -> (i < shape1 A)%nat ->
               item2 A t i = item2 A' t i) ->
  Single.longstaff_schwartz_train np_polyfit A K r T degree
  = Single.longstaff_schwartz_train np_polyfit A' K r T degree
  /\ Single.longstaff_schwartz_test A K r T coefficients
     = Single.longstaff_schwartz_test A' K r T coefficients.
Proof.
  intros H0 H1 Hitems.
  assert (Hrow : forall t, (1 <= t)%nat -> row A t = row A' t).
  { intros t Ht. apply row_ext; auto. }
  split.
  - unfold Single.longstaff_schwartz_train, Single.train_run. rewrite <- H0.
    destruct (existsb _ _ || _); [reflexivity |].
    unfold py_div.
    destruct (Z.eqb_spec (Z.of_nat (shape0 A) - 1) 0); [reflexivity |].
    destruct (Nat.eqb_spec (shape0 A) 0); [reflexivity |].
    rewrite <- Hrow by lia.
    rewrite (fold_left_ext_in
               (Single.train_step np_polyfit A K _ (Z.to_nat degree))
               (Single.train_step np_polyfit A' K
                  (discount_factor r (T / IZR (Z.of_nat (shape0 A) - 1)))
                  (Z.to_nat degree))); [reflexivity |].
    intros [V cs] t Ht. apply backward_dates_interior in Ht.
    unfold Single.train_step. rewrite Hrow by lia. reflexivity.
  - unfold Single.longstaff_schwartz_test, Single.test_run. rewrite <- H0.
    destruct (negb _); [reflexivity |].
    unfold py_div.
    destruct (Z.eqb_spec (Z.of_nat (shape0 A) - 1) 0); [reflexivity |].
    destruct (Nat.eqb_spec (shape0 A) 0); [reflexivity |].
    rewrite <- Hrow by lia.
    rewrite (fold_left_ext_in
               (Single.test_step A K coefficients)
               (Single.test_step A' K coefficients)); [reflexivity |].
    intros V t Ht. apply backward_dates_interior in Ht.
    unfold Single.test_step. rewrite Hrow by lia. reflexivity.
Qed.

Lemma date_zero_is_never_read_witness :
  Single.longstaff_schwartz_train constant_fit (of_rows [[1]; [2]; [5]]) 1 1 2 5
  = Single.longstaff_schwartz_train constant_fit (of_rows [[7]; [2]; [5]]) 1 1 2 5
  /\ Single.longstaff_schwartz_test (of_rows [[1]; [2]; [5]]) 1 1 2 [Some [10]]
     = Single.longstaff_schwartz_test (of_rows [[7]; [2]; [5]]) 1 1 2 [Some [10]].
Proof.
  apply (date_zero_is_never_read constant_fit (of_rows [[1]; [2]; [5]])
           (of_rows [[7]; [2]; [5]]) 1 1 2 5 [Some [10]]).
  - reflexivity.
  - reflexivity.
  - intros t i Ht Hi. destruct t as [|t]; [lia | reflexivity].
Defined.

(** * Further properties of the simulators *)

Lemma np_sum_snoc (l : list R) (x : R) : np_sum (l ++ [x]) = np_sum l + x.
Proof.
  unfold np_sum. induction l as [|y l IH]; simpl; [lra |]. rewrite IH. lra.
Qed.

(** X11.  The single-asset simulator returns the exact solution of the
    discretised geometric Brownian motion: the entry of path [i] at date [t]
    is [S0 * exp(t * drift + vol * (z_0 + ... + z_{t-1}))], with
    [drift = (r - q - sigma^2/2) * T/M], [vol = sigma * sqrt(T/M)] and [z_k]
    the normals drawn for path [i]. *)
Theorem simulated_price_is_exponential_of_cumulated_draws
        (rng : Type) (np_random_seed : Z -> rng)
        (np_random_standard_normal :
           nat -> nat -> rng -> (nat -> nat -> R) * rng)
        (S0 r dividend sigma T : R) (M I : pyval) (seed : option Z) (g : rng)
        (paths : ndarray2) :
  fst (Single.simulate_gbm rng np_random_seed np_random_standard_normal
                           S0 r dividend sigma T M I seed g) = Ok paths ->
  exists m n,
    M = PyInt (Z.of_nat m) /\ I = PyInt (Z.of_nat n)
    /\ let dt := T / INR m in
       let z := fst (np_random_standard_normal
                       m n match seed with
                           | Some s => np_random_seed s
                           | None => g
                           end) in
       forall t i, (t <= m)%nat -> (i < n)%nat ->
                   item2 paths t i
                   = S0 * exp (INR t * ((r - dividend - 0.5 * sigma ^ 2) * dt)
                               + sigma * sqrt dt
                                 * np_sum (map (fun k => z k i) (seq 0 t))).
Proof.
  intros H.
  destruct (single_paths_invariant _ _ _ _ _ _ _ _ _ _ _ _ _ H)
    as [m [n [EM [EI [_ [_ [_ [_ [Hfirst [_ Hstep]]]]]]]]]].
  exists m, n. split; [exact EM |]. split; [exact EI |].
  intros dt z t i. induction t as [|t IHt]; intros Ht Hi.
  - rewrite Hfirst by assumption. simpl.
    replace (0 * _ + _ * 0) with 0 by lra. rewrite exp_0. lra.
  - rewrite Hstep by lia. replace (S t - 1)%nat with t by lia.
    rewrite IHt by lia. rewrite Rmult_assoc, <- exp_plus. f_equal. f_equal.
    rewrite seq_S, map_app. cbn [map]. rewrite np_sum_snoc, S_INR.
    cbn [Nat.add]. fold dt. fold z. lra.
Qed.

Lemma simulated_price_is_exponential_of_cumulated_draws_witness :
  exists paths,
    fst (Single.simulate_gbm counter_rng counter_seed counter_normal
           100 0.05 0.1 0.2 3 (PyInt 2) (PyInt 1) (Some 42%Z) 0%Z) = Ok paths
    /\ exists m n,
        PyInt 2 = PyInt (Z.of_nat m) /\ PyInt 1 = PyInt (Z.of_nat n)
        /\ let dt := 3 / INR m in
           let z := fst (counter_normal m n (counter_seed 42)) in
           forall t i, (t <= m)%nat -> (i < n)%nat ->
                       item2 paths t i
                       = 100 * exp (INR t * ((0.05 - 0.1 - 0.5 * 0.2 ^ 2) * dt)
                                    + 0.2 * sqrt dt
                                      * np_sum (map (fun k => z k i) (seq 0 t))).
Proof.
  assert (H1 : exists paths,
             fst (Single.simulate_gbm counter_rng counter_seed counter_normal
                    100 0.05 0.1 0.2 3 (PyInt 2) (PyInt 1) (Some 42%Z) 0%Z)
             = Ok paths).
  { pose proof (single_simulate_valid counter_rng counter_seed counter_normal
                  100 0.05 0.1 0.2 3 2 1 (Some 42%Z) 0%Z) as E.
    cbv zeta in E. change (Z.of_nat 2) with 2%Z in E.
    change (Z.of_nat 1) with 1%Z in E.
    rewrite E; [eexists; reflexivity | lra | lra | lra | lia | lia]. }
  destruct H1 as [paths H1]. exists paths. split; [exact H1 |].
  exact (simulated_price_is_exponential_of_cumulated_draws counter_rng
           counter_seed counter_normal 100 0.05 0.1 0.2 3 (PyInt 2) (PyInt 1)
           (Some 42%Z) 0%Z paths H1).
Defined.

(** X12.  With zero volatility the single-asset simulator is accepted and
    returns the deterministic curve [S0 * exp((r - q) * t * T/M)] on every
    path, whatever the generator holds and whichever seed NumPy accepts
    (none, or an integer in [0 .. 2^32 - 1]) is given. *)
Theorem zero_volatility_paths_are_deterministic
        (rng : Type) (np_random_seed : Z -> rng)
        (np_random_standard_normal :
           nat -> nat -> rng -> (nat -> nat -> R) * rng)
        (S0 r dividend T : R) (m n : nat) (seed : option Z) (g : rng) :
  0 < S0 -> 0 < T -> (1 <= m)%nat -> (1 <= n)%nat -> valid_seed seed ->
  exists paths,
    fst (Single.simulate_gbm rng np_random_seed np_random_standard_normal
           S0 r dividend 0 T (PyInt (Z.of_nat m)) (PyInt (Z.of_nat n)) seed g)
    = Ok paths
    /\ forall t i, (t <= m)%nat -> (i < n)%nat ->
                   item2 paths t i
                   = S0 * exp ((r - dividend) * (T / INR m) * INR t).
Proof.
  intros HS0 HT Hm Hn _.
  destruct (zero_volatility_simulate rng np_random_seed
              np_random_standard_normal S0 r dividend T m n seed g
              HS0 HT Hm Hn) as [paths [g1 [E [Sh Rows]]]].
  exists paths. split; [now rewrite E |].
  intros t i Ht Hi.
  assert (H : fst (Single.simulate_gbm rng np_random_seed
                     np_random_standard_normal S0 r dividend 0 T
                     (PyInt (Z.of_nat m)) (PyInt (Z.of_nat n)) seed g)
              = Ok paths) by now rewrite E.
  destruct (single_paths_invariant _ _ _ _ _ _ _ _ _ _ _ _ _ H)
    as [m' [n' [Em [En [_ [_ [_ [Hsh1 _]]]]]]]].
  injection En as En. apply Nat2Z.inj in En. subst n'.
  rewrite <- (row_nth paths t i) by lia.
  rewrite (Rows t Ht). now apply nth_repeat_lt.
Qed.

Lemma zero_volatility_paths_are_deterministic_witness :
  exists paths,
    fst (Single.simulate_gbm counter_rng counter_seed counter_normal
           100 0.05 0.1 0 3 (PyInt (Z.of_nat 9)) (PyInt (Z.of_nat 4))
           (Some 42%Z) 7%Z)
    = Ok paths
    /\ forall t i, (t <= 9)%nat -> (i < 4)%nat ->
                   item2 paths t i
                   = 100 * exp ((0.05 - 0.1) * (3 / INR 9) * INR t).
Proof.
  apply (zero_volatility_paths_are_deterministic counter_rng counter_seed
           counter_normal 100 0.05 0.1 3 9 4 (Some 42%Z) 7%Z).
  - lra.
  - lra.
  - lia.
  - lia.
  - simpl. lia.
Defined.





(** X15.  A seeded simulation does not read the global generator: the
    single-asset simulator called with a seed — 0 included — and the
    multi-asset simulator called with a seed other than 0 return the same
    result whatever state the generator was in. *)
Theorem seeded_simulation_ignores_ambient_generator
        (rng : Type) (np_random_seed : Z -> rng)
        (np_random_standard_normal np_random_randn :
           nat -> nat -> rng -> (nat -> nat -> R) * rng)
        (float32 : R -> R)
        (S0 r dividend sigma T : R) (M I : pyval) (s : Z)
        (dimension : Z) (risk_free_rate : R) (dividend_rates : Multi.dividend)
        (sigmas initial_prices : list R) (time_horizon time_step : R)
        (num_paths : Z) (s' : Z) (g1 g2 : rng) :
  s' <> 0%Z ->
  fst (Single.simulate_gbm rng np_random_seed np_random_standard_normal
                           S0 r dividend sigma T M I (Some s) g1)
  = fst (Single.simulate_gbm rng np_random_seed np_random_standard_normal
                             S0 r dividend sigma T M I (Some s) g2)
  /\ fst (Multi.simulate_gbm_multi rng np_random_seed np_random_randn float32
            dimension risk_free_rate dividend_rates sigmas initial_prices
            time_horizon time_step num_paths (Some s') g1)
     = fst (Multi.simulate_gbm_multi rng np_random_seed np_random_randn float32
              dimension risk_free_rate dividend_rates sigmas initial_prices
              time_horizon time_step num_paths (Some s') g2).
Proof.
  intros Hs. split.
  - unfold Single.simulate_gbm.
    repeat match goal with
           | |- context [if ?c then _ else _] => destruct c; [reflexivity |]
           end.
    reflexivity.
  - unfold Multi.simulate_gbm_multi, Multi.truthy.
    destruct (Z.eqb_spec s' 0); [contradiction |]. simpl negb. cbv iota.
    repeat match goal with
           | |- context [if ?c then _ else _] => destruct c; [reflexivity |]
           end.
    reflexivity.
Qed.

Lemma seeded_simulation_ignores_ambient_generator_witness :
  fst (Single.simulate_gbm counter_rng counter_seed counter_normal
         100 0.05 0.1 0.2 3 (PyInt 9) (PyInt 4) (Some 0%Z) 5%Z)
  = fst (Single.simulate_gbm counter_rng counter_seed counter_normal
           100 0.05 0.1 0.2 3 (PyInt 9) (PyInt 4) (Some 0%Z) 6%Z)
  /\ fst (Multi.simulate_gbm_multi counter_rng counter_seed counter_normal
            exact_store 2 0.05 (Multi.DivScalar 0.1) [0.2; 0.2] [100; 100]
            3 1 4 (Some 42%Z) 5%Z)
     = fst (Multi.simulate_gbm_multi counter_rng counter_seed counter_normal
              exact_store 2 0.05 (Multi.DivScalar 0.1) [0.2; 0.2] [100; 100]
              3 1 4 (Some 42%Z) 6%Z).
Proof.
  apply (seeded_simulation_ignores_ambient_generator counter_rng counter_seed
           counter_normal counter_normal exact_store
           100 0.05 0.1 0.2 3 (PyInt 9) (PyInt 4) 0%Z
           2 0.05 (Multi.DivScalar 0.1) [0.2; 0.2] [100; 100] 3 1 4 42%Z
           5%Z 6%Z).
  lia.
Defined.

(** ** The basket payoff *)

Lemma fold_Rmax_ge_init (xs : list R) (x : R) : x <= fold_left Rmax xs x.
Proof.
  revert x. induction xs as [|y xs IH]; intros x; simpl; [lra |].
  apply Rle_trans with (Rmax x y); [apply Rmax_l | apply IH].
Qed.

Lemma fold_Rmax_ge_elem (xs : list R) (x y : R) :
  In y xs -> y <= fold_left Rmax xs x.
Proof.
  revert x. induction xs as [|z xs IH]; intros x H; [contradiction |].
  simpl. destruct H as [-> | H]; [| now apply IH].
  apply Rle_trans with (Rmax x y); [apply Rmax_r | apply fold_Rmax_ge_init].
Qed.

Lemma fold_Rmax_In (xs : list R) (x : R) :
  In (fold_left Rmax xs x) (x :: xs).
Proof.
  revert x. induction xs as [|y xs IH]; intros x; simpl; [now left |].
  destruct (IH (Rmax x y)) as [E | H]; [| right; now right].
  rewrite <- E. unfold Rmax. destruct (Rle_dec x y); [right; now left | now left].
Qed.

Lemma np_amax_spec (l : list R) :
  l <> [] -> In (np_amax l) l /\ forall y, In y l -> y <= np_amax l.
Proof.
  destruct l as [|x xs]; [contradiction |]. intros _. simpl np_amax. split.
  - apply fold_Rmax_In.
  - intros y [<- | H]; [apply fold_Rmax_ge_init | now apply fold_Rmax_ge_elem].
Qed.

(** X16.  On an array of prices with a row per path and a column per
    asset, the basket payoff has one entry per path; the entry is not
    negative, is at least the call payoff of every asset of the path and is
    the call payoff of one of them. *)
Theorem basket_payoff_is_largest_call_payoff
        (underlying_prices : ndarray2) (strike_price : R) (p : nat) :
  (1 <= shape1 underlying_prices)%nat -> (p < shape0 underlying_prices)%nat ->
  let payoff := Multi.bermudan_max_call_payoff underlying_prices strike_price in
  length payoff = shape0 underlying_prices
  /\ 0 <= nth p payoff 0
  /\ (forall d, (d < shape1 underlying_prices)%nat ->
                Rmax (item2 underlying_prices p d - strike_price) 0
                <= nth p payoff 0)
  /\ (exists d, (d < shape1 underlying_prices)%nat
                /\ nth p payoff 0
                   = Rmax (item2 underlying_prices p d - strike_price) 0).
Proof.
  intros Hassets Hp payoff. unfold payoff, Multi.bermudan_max_call_payoff.
  rewrite map_map.
  split; [now rewrite length_map, length_seq |].
  rewrite (nth_map_seq
             (fun q => Rmax (np_amax (row underlying_prices q) - strike_price) 0))
    by assumption.
  assert (Hne : row underlying_prices p <> []).
  { intros E. apply (f_equal (@length R)) in E. rewrite row_length in E.
    simpl in E. lia. }
  destruct (np_amax_spec _ Hne) as [Hin Hmax].
  split; [apply Rmax_r |]. split.
  - intros d Hd. apply Rmax_payoff_le. apply Hmax. apply row_In. now exists d.
  - apply row_In in Hin. destruct Hin as [d [Hd E]].
    exists d. split; [exact Hd |]. now rewrite E.
Qed.

Lemma basket_payoff_is_largest_call_payoff_witness :
  let a := of_rows [[90; 120; 110]; [80; 70; 60]] in
  length (Multi.bermudan_max_call_payoff a 100) = shape0 a
  /\ 0 <= nth 0 (Multi.bermudan_max_call_payoff a 100) 0
  /\ (forall d, (d < shape1 a)%nat ->
                Rmax (item2 a 0 d - 100) 0
                <= nth 0 (Multi.bermudan_max_call_payoff a 100) 0)
  /\ (exists d, (d < shape1 a)%nat
                /\ nth 0 (Multi.bermudan_max_call_payoff a 100) 0
                   = Rmax (item2 a 0 d - 100) 0).
Proof.
  apply (basket_payoff_is_largest_call_payoff
           (of_rows [[90; 120; 110]; [80; 70; 60]]) 100 0).
  - simpl. lia.
  - simpl. lia.
Defined.

(** ** The driver cells *)









(** X19.  A time step longer than the horizon is accepted by the
    multi-asset simulator: [int(time_horizon / time_step)] is 0, so no
    normal is drawn and the tensor holds the single date 0 with the stored
    initial prices; the basket trainer run on its maximum over the assets
    then divides by zero exercise steps and raises [ZeroDivisionError]. *)
Theorem step_longer_than_horizon_gives_one_date
        (rng : Type) (np_random_seed : Z -> rng)
        (np_random_randn : nat -> nat -> rng -> (nat -> nat -> R) * rng)
        (float32 : R -> R)
        (np_polyfit : list R -> list R -> nat -> list R)
        (r : R) (dividend_rates : Multi.dividend)
        (sigma initial_prices : list R) (T time_step : R) (num_paths : nat)
        (seed : option Z) (g : rng) (K maturity : R) (degree : Z) :
  (1 <= length sigma)%nat -> length initial_prices = length sigma ->
  0 < T -> T < time_step -> (1 <= num_paths)%nat -> 0 <= r ->
  match dividend_rates with
  | Multi.DivArray qs => length qs = length sigma
  | Multi.DivScalar _ => True
  end ->
  0 < K -> 0 < maturity -> (0 <= degree)%Z ->
  exists paths,
    Multi.simulate_gbm_multi rng np_random_seed np_random_randn float32
      (Z.of_nat (length sigma)) r dividend_rates sigma initial_prices
      T time_step (Z.of_nat num_paths) seed g
    = (Ok paths,
       match seed with
       | Some s => if Multi.truthy seed then np_random_seed s else g
       | None => g
       end)
    /\ dim2 paths = 1%nat
    /\ (forall p d, item3 paths p d 0 = float32 (nth d initial_prices 0))
    /\ Multi.longstaff_schwartz_train np_polyfit (amax_axis1 paths)
                                      K r maturity degree
       = Raise ZeroDivisionError.
Proof.
  intros Hdim Hinit HT Hdt Hnp Hr Hq HK Hmat Hdeg.
  assert (Hsteps : Z.to_nat (py_int (T / time_step)) = 0%nat).
  { rewrite (py_int_spec (T / time_step) 0); [reflexivity | |].
    - apply Rlt_le, Rdiv_lt_0_compat; lra.
    - split; [apply Rlt_le, Rdiv_lt_0_compat; lra |].
      apply (Rmult_lt_reg_r time_step); [lra |].
      unfold Rdiv. rewrite Rmult_assoc, Rinv_l by lra. lra. }
  pose proof (multi_simulate_valid rng np_random_seed np_random_randn float32
                r dividend_rates sigma initial_prices T time_step num_paths
                seed g Hdim Hinit HT) as E.
  cbv zeta in E. rewrite Hsteps in E. simpl fold_left in E.
  eexists. split; [apply E; try assumption; lra |].
  split; [reflexivity |]. split; [reflexivity |].
  unfold Multi.longstaff_schwartz_train, Multi.train_run.
  rewrite valid_strike_maturity by assumption.
  destruct (Z.ltb_spec degree 0); [lia | reflexivity].
Qed.

Lemma step_longer_than_horizon_gives_one_date_witness :
  exists paths,
    Multi.simulate_gbm_multi counter_rng counter_seed counter_normal
      exact_store (Z.of_nat (length [0.2; 0.2])) 0.05 (Multi.DivScalar 0.1)
      [0.2; 0.2] [100; 100] 3 4 (Z.of_nat 5) (Some 42%Z) 0%Z
    = (Ok paths,
       if Multi.truthy (Some 42%Z) then counter_seed 42 else 0%Z)
    /\ dim2 paths = 1%nat
    /\ (forall p d, item3 paths p d 0 = exact_store (nth d [100; 100] 0))
    /\ Multi.longstaff_schwartz_train constant_fit (amax_axis1 paths)
                                      100 0.05 3 5
       = Raise ZeroDivisionError.
Proof.
  apply (step_longer_than_horizon_gives_one_date counter_rng counter_seed
           counter_normal exact_store constant_fit 0.05 (Multi.DivScalar 0.1)
           [0.2; 0.2] [100; 100] 3 4 5 (Some 42%Z) 0%Z 100 3 5).
  - simpl. lia.
  - reflexivity.
  - lra.
  - lra.
  - lia.
  - lra.
  - exact I.
  - lra.
  - lra.
  - lia.
Defined.
